(** * Fractal-Animator: the escape-time engine of [fractalAnimator.cpp]

    A shallow embedding of the rendering engine (escape-time evaluator,
    colour mapping, supersampler, tiled renderer, iteration controller),
    of the controls and the main loop that drive it, and the properties
    proved about them.

    Conventions of the embedding.
    - A C++ [double] is a primitive binary64 [float]; [+ - * /], [fabs] and
      [<] are the IEEE operations of [PrimFloat].
    - A C++ [float] is a binary64 value that is representable in binary32;
      every operation carried out in [float] rounds with the binary32
      parameters of [SpecFloat] (precision 24, emax 128).
    - [int] is a [Z]; [i++] and the cell index wrap as 32 bit two's
      complement numbers, [/] on [int] is [Z.quot], and [%] against a
      [size_t] first converts the [int] to 64 bit unsigned.  In the
      controls and the main loop, [int] arithmetic whose result does not
      fit is undefined.
    - The C library functions [log], [log10], [sin], [atan2], [powf] are not
      part of the repository: they are the fields of a [Libm] record every
      function of the engine is parameterised by.
    - Conversions the C++ standard leaves undefined (a floating value outside
      the target integer type, an index outside an array) yield [Undefined];
      a loop that has not finished when the fuel is spent yields [OutOfFuel]. *)

From Stdlib Require Import ZArith Floats Uint63 Bool Lia.
From stdpp Require Import base list strings pretty.

Set Warnings "-inexact-float".
Local Open Scope Z_scope.

(** ** Outcomes of a computation *)

Inductive outcome (A : Type) : Type :=
  | Ok (a : A)
  | Undefined
  | OutOfFuel.
Arguments Ok {A} a.
Arguments Undefined {A}.
Arguments OutOfFuel {A}.

#[global] Instance outcome_ret : MRet outcome := @Ok.
#[global] Instance outcome_bind : MBind outcome := fun A B f m =>
  match m with
  | Ok a => f a
  | Undefined => Undefined
  | OutOfFuel => OutOfFuel
  end.

(** Reading an object: a field that was never written has no value. *)
Definition read {A : Type} (o : option A) : outcome A :=
  match o with
  | Some a => Ok a
  | None => Undefined
  end.

(** ** Machine numbers *)

Module CNum.

Definition INT_MAX : Z := 2147483647.
Definition INT_MIN : Z := -2147483648.

(** 32 bit two's complement wrap-around. *)
Definition int_wrap (z : Z) : Z := (z + 2 ^ 31) mod 2 ^ 32 - 2 ^ 31.

(** Conversion of an [int] to [size_t] (64 bit unsigned). *)
Definition to_size_t (z : Z) : Z := z mod 2 ^ 64.

(** Conversion of an [int] to [sf::Uint8]. *)
Definition to_uint8 (z : Z) : Z := z mod 256.

(** Conversion of an integer to [double], exact below 2^53. *)
Definition of_int (z : Z) : float :=
  if z <? 0 then (- of_uint63 (Uint63.of_Z (- z)))%float
  else of_uint63 (Uint63.of_Z z).

(** The integer part of a finite [double], rounded toward zero. *)
Definition truncZ (x : float) : option Z :=
  match Prim2SF x with
  | S754_zero _ => Some 0
  | S754_finite s m e => Some (cond_Zopp s (Z.shiftl (Zpos m) e))
  | _ => None
  end.

(** The largest integer below a finite [double]. *)
Definition floorZ (x : float) : option Z :=
  match Prim2SF x with
  | S754_zero _ => Some 0
  | S754_finite s m e => Some (Z.shiftl (cond_Zopp s (Zpos m)) e)
  | _ => None
  end.

(** [static_cast<int>(x)]: truncation, undefined when the truncated value
    is not an [int] (in particular for NaN and the infinities). *)
Definition double_to_int (x : float) : outcome Z :=
  match truncZ x with
  | Some z => if (INT_MIN <=? z) && (z <=? INT_MAX) then Ok z else Undefined
  | None => Undefined
  end.

(** [static_cast<sf::Uint8>(x)] on a [double]. *)
Definition double_to_uint8 (x : float) : outcome Z :=
  match truncZ x with
  | Some z => if (0 <=? z) && (z <=? 255) then Ok z else Undefined
  | None => Undefined
  end.

(** [std::floor]: zeros, infinities, NaN and the doubles without fractional
    bits are returned as they are; below 2^53 the floor is exact. *)
Definition floor (x : float) : float :=
  match Prim2SF x with
  | S754_finite s m e =>
      if e <? 0 then of_int (Z.shiftl (cond_Zopp s (Zpos m)) e) else x
  | _ => x
  end.

(** Conversion of a [double] to [float]: rounding to nearest even in
    binary32. *)
Definition to_float (x : float) : float :=
  match Prim2SF x with
  | S754_finite s m e => SF2Prim (binary_round 24 128 s m e)
  | _ => x
  end.

(** Addition and subtraction carried out in [float]. *)
Definition addf (x y : float) : float :=
  SF2Prim (SFadd 24 128 (Prim2SF x) (Prim2SF y)).
Definition subf (x y : float) : float :=
  SF2Prim (SFsub 24 128 (Prim2SF x) (Prim2SF y)).

End CNum.
Import CNum.

(** ** The C mathematical library *)

Record Libm : Type := {
  c_log : float -> float;
  c_log10 : float -> float;
  c_sin : float -> float;
  c_atan2 : float -> float -> float;
  c_powf : float -> float -> float;
}.

(** ** Constants and data of the engine *)

Definition WINDOW_WIDTH : Z := 192 * 7.
Definition WINDOW_HEIGHT : Z := 108 * 7.
Definition ESCAPE_RADIUS_SQUARED : float := (100.0 * 100.0)%float.
Definition ASPECT_RATIO : float := (of_int WINDOW_WIDTH / of_int WINDOW_HEIGHT)%float.
Definition AA_MAX_SAMPLES : Z := 6.

Record RenderState : Type := {
  viewportX : float;
  viewportY : float;
  viewportHeight : float;
  maxIterations : Z;
  colorDensity : float;
  showJulia : bool;
  juliaX : float;
  juliaY : float;
  colorScheme : Z;
  autoIterations : bool;
  fractalType : Z;
  stripes : bool;
  stripeFrequency : float;
  stripeIntensity : float;
  innerCalculation : bool;
  antiAliasing : bool;
}.

(** The member initialisers of [RenderState]. *)
Definition defaultState : RenderState := {|
  viewportX := (-0.5)%float;
  viewportY := 0%float;
  viewportHeight := 3.0%float;
  maxIterations := 128;
  colorDensity := to_float 0.2%float;
  showJulia := false;
  juliaX := (-0.8)%float;
  juliaY := 0.156%float;
  colorScheme := 0;
  autoIterations := true;
  fractalType := 0;
  stripes := false;
  stripeFrequency := 5%float;
  stripeIntensity := 10%float;
  innerCalculation := false;
  antiAliasing := false;
|}.

Definition getViewportWidth (state : RenderState) : float :=
  (viewportHeight state * ASPECT_RATIO)%float.

(** [ReturnInfo]: the evaluator writes [smoothIteration] and [stripeSum]
    only on the paths that report an iteration count; on the paths that
    report [-1] the two fields stay unwritten. *)
Record ReturnInfo : Type := {
  iteration : Z;
  smoothIteration : option float;
  stripeSum : option float;
}.

Record Color : Type := { r : Z; g : Z; b : Z }.

Definition PALETTES : list (list Color) :=
  [ [ Build_Color 66 30 15; Build_Color 25 7 26; Build_Color 9 1 47;
      Build_Color 4 4 73; Build_Color 0 7 100; Build_Color 12 44 138;
      Build_Color 24 82 177; Build_Color 57 125 209; Build_Color 134 181 229;
      Build_Color 211 236 248; Build_Color 241 233 191; Build_Color 248 201 95;
      Build_Color 255 170 0; Build_Color 204 128 0; Build_Color 153 87 0 ];
    [ Build_Color 0 0 0; Build_Color 255 255 255 ] ].

(** ** [interpolateColors] *)

Definition interpolateColors (c1 c2 : Color) (factor : float) : outcome Color :=
  r' ← double_to_uint8 (of_int (r c1) + factor * of_int (r c2 - r c1))%float;
  g' ← double_to_uint8 (of_int (g c1) + factor * of_int (g c2 - g c1))%float;
  b' ← double_to_uint8 (of_int (b c1) + factor * of_int (b c2 - b c1))%float;
  mret (Build_Color r' g' b').

(** ** [calculateFractal] *)

(** The local variables of the iteration loop. *)
Record LoopState : Type := {
  ls_zr : float;
  ls_zi : float;
  ls_zr2 : float;
  ls_zi2 : float;
  ls_stripeSum : float;
  ls_i : Z;
}.

Section Evaluator.
Variable M : Libm.

Section Loop.
Variables (cr_actual ci_actual : float) (maxIter : Z) (fractalType : Z).
Variables (stripes : bool) (stripeFrequency : float) (innerCalculation : bool).

(** One pass of the [while] body, up to and including [i++]. *)
Definition loop_body (s : LoopState) : LoopState :=
  let zi := ((if (fractalType =? 0)%Z
              then 2 * ls_zr s * ls_zi s
              else 2 * abs (ls_zr s * ls_zi s)) + ci_actual)%float in
  let zr := (ls_zr2 s - ls_zi2 s + cr_actual)%float in
  {| ls_zr := zr;
     ls_zi := zi;
     ls_zr2 := (zr * zr)%float;
     ls_zi2 := (zi * zi)%float;
     ls_stripeSum :=
       if stripes
       then addf (ls_stripeSum s)
              (c_powf M (to_float (c_sin M (c_atan2 M zi zr * stripeFrequency)%float))
                 2.0%float)
       else ls_stripeSum s;
     ls_i := int_wrap (ls_i s + 1) |}.

(** The main iteration loop; one unit of fuel per pass. *)
Fixpoint iterate (fuel : nat) (s : LoopState) : outcome ReturnInfo :=
  if (ls_zr2 s + ls_zi2 s <? ESCAPE_RADIUS_SQUARED)%float then
    match fuel with
    | O => OutOfFuel
    | S fuel' =>
        let s' := loop_body s in
        if ls_i s' =? maxIter then
          if innerCalculation then
            Ok {| iteration := ls_i s';
                  smoothIteration :=
                    Some (of_int (int_wrap (ls_i s' + 1))
                          - c_log M (c_log M (ls_zr2 s' + ls_zi2 s') / 2)
                            / c_log M 2)%float;
                  stripeSum := Some (ls_stripeSum s') |}
          else
            Ok {| iteration := -1; smoothIteration := None; stripeSum := None |}
        else iterate fuel' s'
    end
  else
    Ok {| iteration := ls_i s;
          smoothIteration :=
            Some (of_int (int_wrap (ls_i s + 1))
                  - c_log M (c_log M (ls_zr2 s + ls_zi2 s) / 2) / c_log M 2)%float;
          stripeSum := Some (ls_stripeSum s) |}.
End Loop.

(** The state the loop is entered with. *)
Definition loop_init (zr zi : float) : LoopState :=
  {| ls_zr := zr; ls_zi := zi;
     ls_zr2 := (zr * zr)%float; ls_zi2 := (zi * zi)%float;
     ls_stripeSum := 0%float; ls_i := 0 |}.

Definition calculateFractal (fuel : nat) (cr ci jr ji : float) (maxIter : Z)
    (isJulia : bool) (fractalType : Z) (stripes : bool) (stripeFrequency : float)
    (innerCalculation : bool) : outcome ReturnInfo :=
  let zr := if isJulia then cr else 0%float in
  let zi := if isJulia then ci else 0%float in
  let cr_actual := if isJulia then jr else cr in
  let ci_actual := if isJulia then ji else ci in
  let run := iterate cr_actual ci_actual maxIter fractalType stripes
               stripeFrequency innerCalculation fuel (loop_init zr zi) in
  if negb innerCalculation && negb isJulia && (fractalType =? 0) then
    let q := ((cr - 0.25) * (cr - 0.25) + ci * ci)%float in
    if (q * (q + (cr - 0.25)) <? 0.25 * ci * ci)%float then
      Ok {| iteration := -1; smoothIteration := None; stripeSum := None |}
    else if ((cr + 1.0) * (cr + 1.0) + ci * ci <? 0.0625)%float then
      Ok {| iteration := -1; smoothIteration := None; stripeSum := None |}
    else run
  else run.

End Evaluator.

(** ** Colour mapping *)

(** Lines 267-269 (and 190-192): the palette lookup for a metric value held
    in the [float] variable [iterations]. *)
Definition colorFor (palette : list Color) (iterations : float) : outcome Color :=
  n ← double_to_int iterations;
  let size := Z.of_nat (length palette) in
  if size =? 0 then Undefined
  else
    let index := to_size_t n mod size in
    let fract := subf iterations (floor iterations) in
    c1 ← read (palette !! Z.to_nat index);
    c2 ← read (palette !! Z.to_nat (to_size_t (index + 1) mod size));
    interpolateColors c1 c2 fract.

(** Lines 260-266 (and 183-189): the metric of an evaluated sample. *)
Definition sampleMetric (state : RenderState) (info : ReturnInfo) : outcome float :=
  if stripes state then
    s ← read (stripeSum info);
    mret (to_float (stripeIntensity state * (s / of_int (iteration info)))%float)
  else
    s ← read (smoothIteration info);
    mret (to_float (s * colorDensity state)%float).

(** Lines 256-270 (and 179-193): the colour of an evaluated sample.  The
    source repeats this block verbatim in [renderFractalRegion] and in
    [calculateAntiAliasedColor]. *)
Definition sampleColor (state : RenderState) (palette : list Color)
    (info : ReturnInfo) : outcome Color :=
  if iteration info =? -1 then Ok (Build_Color 0 0 0)
  else
    iterations ← sampleMetric state info;
    colorFor palette iterations.

(** ** Loops in the outcome monad *)

Fixpoint foldM {A S : Type} (f : S -> A -> outcome S) (l : list A) (s : S)
    : outcome S :=
  match l with
  | [] => Ok s
  | a :: l' => s' ← f s a; foldM f l' s'
  end.

Fixpoint forM {A B : Type} (f : A -> outcome B) (l : list A) : outcome (list B) :=
  match l with
  | [] => Ok []
  | a :: l' => v ← f a; vs ← forM f l'; mret (v :: vs)
  end.

(** ** The pixel buffer *)

(** [pixels[index] = v] on a buffer of [length pixels] bytes. *)
Definition store (pixels : list Z) (index : Z) (v : Z) : outcome (list Z) :=
  if (0 <=? index) && (index <? Z.of_nat (length pixels))
  then Ok (<[Z.to_nat index := v]> pixels)
  else Undefined.

Section Renderer.
Variable M : Libm.
Variable fuel : nat.

(** The evaluation of one sample point and its colour. *)
Definition colorAt (state : RenderState) (palette : list Color) (cr ci : float)
    : outcome Color :=
  info ← calculateFractal M fuel cr ci (juliaX state) (juliaY state)
           (maxIterations state) (showJulia state) (fractalType state)
           (stripes state) (stripeFrequency state) (innerCalculation state);
  sampleColor state palette info.

(** ** [calculateAntiAliasedColor], for a grid of [samples] x [samples] *)

Definition subSampleColor (samples x y : Z) (state : RenderState)
    (width height : Z) (palette : list Color) (sy sx : Z) : outcome Color :=
  let pixelHeight := (viewportHeight state / of_int height)%float in
  let pixelWidth := (getViewportWidth state / of_int width)%float in
  let halfHeight := (viewportHeight state / 2)%float in
  let halfWidth := (getViewportWidth state / 2)%float in
  let offsetX := ((of_int sx + 0.5) / of_int samples)%float in
  let offsetY := ((of_int sy + 0.5) / of_int samples)%float in
  let cr := (viewportX state - halfWidth + (of_int x + offsetX) * pixelWidth)%float in
  let ci := (viewportY state - halfHeight + (of_int y + offsetY) * pixelHeight)%float in
  colorAt state palette cr ci.

Definition averageColors (sampleColors : list Color) : outcome Color :=
  let totalR := foldl (fun t c => t + r c) 0 sampleColors in
  let totalG := foldl (fun t c => t + g c) 0 sampleColors in
  let totalB := foldl (fun t c => t + b c) 0 sampleColors in
  let sampleCount := Z.of_nat (length sampleColors) in
  if sampleCount =? 0 then Undefined
  else Ok (Build_Color (to_uint8 (totalR ÷ sampleCount))
             (to_uint8 (totalG ÷ sampleCount))
             (to_uint8 (totalB ÷ sampleCount))).

Definition antiAliasedColorWith (samples x y : Z) (state : RenderState)
    (width height : Z) (palette : list Color) : outcome Color :=
  rows ← forM (fun sy =>
            forM (subSampleColor samples x y state width height palette sy)
              (seqZ 0 samples))
          (seqZ 0 samples);
  averageColors (concat rows).

(** The function of the source: [samples = AA_MAX_SAMPLES + 1]. *)
Definition calculateAntiAliasedColor (x y : Z) (state : RenderState)
    (width height : Z) (palette : list Color) : outcome Color :=
  antiAliasedColorWith (AA_MAX_SAMPLES + 1) x y state width height palette.

(** ** [renderFractalRegion] *)

(** The sample point of the single-sample path. *)
Definition singleSampleX (state : RenderState) (x width : Z) : float :=
  let pixelWidth := (getViewportWidth state / of_int width)%float in
  let halfWidth := (getViewportWidth state / 2)%float in
  (viewportX state - halfWidth + of_int x * pixelWidth)%float.

Definition singleSampleY (state : RenderState) (y height : Z) : float :=
  let pixelHeight := (viewportHeight state / of_int height)%float in
  let halfHeight := (viewportHeight state / 2)%float in
  (viewportY state - halfHeight + of_int y * pixelHeight)%float.

(** The colour of pixel [(x, y)]: the body of the inner loop up to the
    writes. *)
Definition pixelColor (state : RenderState) (palette : list Color)
    (x y width height : Z) : outcome Color :=
  if antiAliasing state then
    calculateAntiAliasedColor x y state width height palette
  else
    colorAt state palette (singleSampleX state x width)
      (singleSampleY state y height).

(** The four writes of one pixel. *)
Definition writePixel (pixels : list Z) (x y width : Z) (color : Color)
    : outcome (list Z) :=
  let pixelIndex := int_wrap ((y * width + x) * 4) in
  p1 ← store pixels pixelIndex (r color);
  p2 ← store p1 (pixelIndex + 1) (g color);
  p3 ← store p2 (pixelIndex + 2) (b color);
  store p3 (pixelIndex + 3) 255.

Definition renderRow (state : RenderState) (palette : list Color)
    (width height : Z) (pixels : list Z) (y : Z) : outcome (list Z) :=
  foldM (fun px x =>
           color ← pixelColor state palette x y width height;
           writePixel px x y width color)
    (seqZ 0 width) pixels.

Definition renderFractalRegion (pixels : list Z) (state : RenderState)
    (startY endY width height : Z) : outcome (list Z) :=
  palette ← read (PALETTES !! Z.to_nat (to_size_t (colorScheme state)
                                        mod Z.of_nat (length PALETTES)));
  foldM (renderRow state palette width height) (seqZ startY (endY - startY)) pixels.

(** ** [renderFractal] with [NUM_THREADS] workers *)

(** The rows [startY .. endY - 1] handed to worker [i]. *)
Definition band (NUM_THREADS height i : Z) : Z * Z :=
  let linesPerThread := height ÷ NUM_THREADS in
  (i * linesPerThread,
   if i =? NUM_THREADS - 1 then height else (i + 1) * linesPerThread).

(** The workers are joined before [renderFractal] returns; they are run
    here one after the other in the order [order] (creation order in
    [renderFractal] itself). *)
Definition runWorkers (NUM_THREADS : Z) (order : list Z) (pixels : list Z)
    (state : RenderState) (width height : Z) : outcome (list Z) :=
  foldM (fun px i =>
           renderFractalRegion px state (band NUM_THREADS height i).1
             (band NUM_THREADS height i).2 width height)
    order pixels.

Definition renderFractal (NUM_THREADS : Z) (pixels : list Z)
    (state : RenderState) (width height : Z) : outcome (list Z) :=
  runWorkers NUM_THREADS (seqZ 0 NUM_THREADS) pixels state width height.

End Renderer.

(** ** [adjustIterations] *)

Definition set_maxIterations (n : Z) (state : RenderState) : RenderState :=
  {| viewportX := viewportX state;
     viewportY := viewportY state;
     viewportHeight := viewportHeight state;
     maxIterations := n;
     colorDensity := colorDensity state;
     showJulia := showJulia state;
     juliaX := juliaX state;
     juliaY := juliaY state;
     colorScheme := colorScheme state;
     autoIterations := autoIterations state;
     fractalType := fractalType state;
     stripes := stripes state;
     stripeFrequency := stripeFrequency state;
     stripeIntensity := stripeIntensity state;
     innerCalculation := innerCalculation state;
     antiAliasing := antiAliasing state |}.

Definition adjustIterations (M : Libm) (state : RenderState) : outcome RenderState :=
  if autoIterations state then
    let zoomFactor := (3.0 / viewportHeight state)%float in
    n ← double_to_int (100 * c_log10 M (1 + zoomFactor))%float;
    let state1 := set_maxIterations (Z.min 10000 n) state in
    Ok (set_maxIterations (Z.max 100 (maxIterations state1)) state1)
  else Ok state.

(** * Reference definitions the engine is compared with *)

(** ** The escape-time iteration [z <- f(z) + c] *)

Definition complex : Type := float * float.

(** One step of the iteration: variant 0 squares [z]; the other variant
    takes the absolute value of the cross term before doubling it. *)
Definition spec_step (variant : Z) (c z : complex) : complex :=
  ((z.1 * z.1 - z.2 * z.2 + c.1)%float,
   ((if (variant =? 0)%Z then 2 * z.1 * z.2 else 2 * abs (z.1 * z.2)) + c.2)%float).

Fixpoint spec_orbit (variant : Z) (c z0 : complex) (n : nat) : complex :=
  match n with
  | O => z0
  | S k => spec_step variant c (spec_orbit variant c z0 k)
  end.

(** The squared modulus. *)
Definition norm2 (z : complex) : float := (z.1 * z.1 + z.2 * z.2)%float.

(** The test that ends the loop: [|z|^2 < ESCAPE_RADIUS_SQUARED] fails. *)
Definition escaped (z : complex) : bool :=
  negb (norm2 z <? ESCAPE_RADIUS_SQUARED)%float.

(** The first index below [k + count], from [k] on, whose point has escaped. *)
Fixpoint first_escape_from (z : nat -> complex) (k count : nat) : option nat :=
  match count with
  | O => None
  | S count' => if escaped (z k) then Some k else first_escape_from z (S k) count'
  end.

Definition first_escape (z : nat -> complex) (limit : nat) : option nat :=
  first_escape_from z 0 limit.

(** Mode selection: the start value and the additive constant. *)
Definition start_point (isJulia : bool) (cr ci : float) : complex :=
  if isJulia then (cr, ci) else (0%float, 0%float).
Definition constant_point (isJulia : bool) (cr ci jr ji : float) : complex :=
  if isJulia then (jr, ji) else (cr, ci).

(** The closed-form tests of the early bailout. *)
Definition in_cardioid (cr ci : float) : bool :=
  let q := ((cr - 0.25) * (cr - 0.25) + ci * ci)%float in
  (q * (q + (cr - 0.25)) <? 0.25 * ci * ci)%float.
Definition in_bulb (cr ci : float) : bool :=
  ((cr + 1.0) * (cr + 1.0) + ci * ci <? 0.0625)%float.
Definition pruned (innerCalculation isJulia : bool) (fractalType : Z)
    (cr ci : float) : bool :=
  negb innerCalculation && negb isJulia && (fractalType =? 0)
  && (in_cardioid cr ci || in_bulb cr ci).

Section Reference.
Variable M : Libm.

(** The stripe statistic accumulated over the first [n] steps. *)
Fixpoint spec_stripeSum (stripes : bool) (stripeFrequency : float)
    (z : nat -> complex) (n : nat) : float :=
  match n with
  | O => 0%float
  | S k =>
      if stripes
      then addf (spec_stripeSum stripes stripeFrequency z k)
             (c_powf M (to_float (c_sin M (c_atan2 M (z (S k)).2 (z (S k)).1
                                           * stripeFrequency)%float))
                2.0%float)
      else spec_stripeSum stripes stripeFrequency z k
  end.

(** The smoothed escape value [i + 1 - log(log(|z|^2)/2)/log(2)]. *)
Definition spec_smooth (i : Z) (z : complex) : float :=
  (of_int (i + 1) - c_log M (c_log M (norm2 z) / 2) / c_log M 2)%float.

(** What an escape at iteration [n] reports. *)
Definition escape_result (stripes : bool) (stripeFrequency : float)
    (z : nat -> complex) (n : nat) : ReturnInfo :=
  {| iteration := Z.of_nat n;
     smoothIteration := Some (spec_smooth (Z.of_nat n) (z n));
     stripeSum := Some (spec_stripeSum stripes stripeFrequency z n) |}.
End Reference.

(** The report "interior". *)
Definition interior_result : ReturnInfo :=
  {| iteration := -1; smoothIteration := None; stripeSum := None |}.

(** ** The colour map of the design: floor and fraction *)

Definition spec_colorFor (palette : list Color) (metric : float) : outcome Color :=
  n ← read (floorZ metric);
  let paletteSize := Z.of_nat (length palette) in
  if paletteSize =? 0 then Undefined
  else
    let index := n mod paletteSize in
    let fraction := subf metric (floor metric) in
    c1 ← read (palette !! Z.to_nat index);
    c2 ← read (palette !! Z.to_nat ((index + 1) mod paletteSize));
    interpolateColors c1 c2 fraction.

(** ** The clamp of the iteration controller *)

Definition spec_clamp (v lo hi : float) : float :=
  if (v <? lo)%float then lo else if (hi <? v)%float then hi else v.

(** ** The pixel-to-world transform of the design *)

Definition spec_pixelToWorld (center extent : float) (pixel : Z) (offset : float)
    (size : Z) : float :=
  (center - extent / 2 + (of_int pixel + offset) * (extent / of_int size))%float.


(** ** The loop state after [n] passes *)

Definition state_at (M : Libm) (cr_actual ci_actual : float) (fractalType : Z)
    (stripes : bool) (stripeFrequency : float) (zr0 zi0 : float) (n : nat)
    : LoopState :=
  Nat.iter n (loop_body M cr_actual ci_actual fractalType stripes stripeFrequency)
    (loop_init zr0 zi0).


(** ** A sample library

    An instance of [Libm] on which the engine can be run: [log] and [atan]
    by their power series after argument reduction, [sin] by its Taylor
    series, and the square for [powf].  It stands for the C library in the
    examples only; the theorems hold for every instance of [Libm]. *)

Module SampleLibm.

Definition LN2 : float := 0x1.62e42fefa39efp-1.
Definition LN10 : float := 0x1.26bb1bbb55516p+1.
Definition PI : float := 0x1.921fb54442d18p+1.

(** [sum_{k < terms} t^(2k+1) / (2k+1)], from the highest term down. *)
Fixpoint atanh_series (terms : nat) (t2 : float) (k : Z) : float :=
  match terms with
  | O => 0%float
  | S terms' => (1 / of_int (2 * k + 1) + t2 * atanh_series terms' t2 (k + 1))%float
  end.

(** [log x = e log 2 + 2 atanh((m - 1)/(m + 1))] for [x = m 2^e],
    [1/2 <= m < 1]. *)
Definition log (x : float) : float :=
  if is_nan x then nan
  else if (x <? 0)%float then nan
  else if (x =? 0)%float then neg_infinity
  else if (x =? infinity)%float then infinity
  else
    let (m, e) := Z.frexp x in
    let t := ((m - 1) / (m + 1))%float in
    (of_int e * LN2 + 2 * t * atanh_series 24 (t * t) 0)%float.

Definition log10 (x : float) : float := (log x / LN10)%float.

(** [sum_{k < terms} (-1)^k t^(2k+1) / (2k+1)]. *)
Fixpoint atan_series (terms : nat) (t2 : float) (k : Z) : float :=
  match terms with
  | O => 0%float
  | S terms' => (1 / of_int (2 * k + 1) - t2 * atan_series terms' t2 (k + 1))%float
  end.

(** [atan t = 2 atan (t / (1 + sqrt (1 + t^2)))], applied twice, then the
    series; arguments above 1 through [atan t = pi/2 - atan (1/t)]. *)
Definition atan_unit (t : float) : float :=
  let h := fun u => (u / (1 + PrimFloat.sqrt (1 + u * u)))%float in
  let u := h (h t) in
  (4 * u * atan_series 24 (u * u) 0)%float.

Definition atan (t : float) : float :=
  if is_nan t then nan
  else if (abs t <=? 1)%float then atan_unit t
  else if (0 <? t)%float then (PI / 2 - atan_unit (1 / t))%float
  else (- (PI / 2) - atan_unit (1 / t))%float.

Definition atan2 (y x : float) : float :=
  if (0 <? x)%float then atan (y / x)
  else if (x <? 0)%float then
    (if (y <? 0)%float then atan (y / x) - PI else atan (y / x) + PI)%float
  else if (0 <? y)%float then (PI / 2)%float
  else if (y <? 0)%float then (- (PI / 2))%float
  else (x + y)%float.

(** [sum_{k < terms} (-1)^k t^(2k+1) / (2k+1)!], by Horner's rule. *)
Fixpoint sin_series (terms : nat) (t2 : float) (k : Z) : float :=
  match terms with
  | O => 0%float
  | S terms' =>
      (1 - t2 / of_int ((2 * k + 2) * (2 * k + 3)) * sin_series terms' t2 (k + 1))%float
  end.

(** The argument is first reduced by a multiple of [2 pi]. *)
Definition sin (x : float) : float :=
  match truncZ (x / (2 * PI))%float with
  | Some q =>
      let t := (x - of_int q * (2 * PI))%float in
      (t * sin_series 24 (t * t) 0)%float
  | None => nan
  end.

(** [powf] is only called with the exponent 2. *)
Definition powf (x y : float) : float :=
  if (y =? 2)%float then to_float (x * x) else nan.

End SampleLibm.

Definition sampleLibm : Libm := {|
  c_log := SampleLibm.log;
  c_log10 := SampleLibm.log10;
  c_sin := SampleLibm.sin;
  c_atan2 := SampleLibm.atan2;
  c_powf := SampleLibm.powf;
|}.

(** ** States used in the examples *)

(** The default state with another view, mode and colouring. *)
Definition exampleState (centerX height : float) (julia stripe inner : bool)
    : RenderState := {|
  viewportX := centerX;
  viewportY := 0%float;
  viewportHeight := height;
  maxIterations := 128;
  colorDensity := to_float 0.2%float;
  showJulia := julia;
  juliaX := (-0.8)%float;
  juliaY := 0.156%float;
  colorScheme := 0;
  autoIterations := true;
  fractalType := 0;
  stripes := stripe;
  stripeFrequency := 5%float;
  stripeIntensity := 10%float;
  innerCalculation := inner;
  antiAliasing := false;
|}.

(** Interior colouring switched on. *)
Definition innerState : RenderState := exampleState (-0.5) 3.0 false false true.

(** The view height [3e-10]. *)
Definition deepZoomState : RenderState := exampleState (-0.5) 3e-10 false false false.

(** The view moved to the centre [200 + 0i]. *)
Definition mandelbrotFar : RenderState := exampleState 200 3.0 false false false.

(** Julia mode with stripe colouring, the view moved to the centre
    [200 + 0i]. *)
Definition juliaStripesFar : RenderState := exampleState 200 3.0 true true false.

(** The two palettes. *)
Definition palette0 : list Color := nth 0 PALETTES [].
Definition palette1 : list Color := nth 1 PALETTES [].

(** A colour whose channels are bytes. *)
Definition byte_color (c : Color) : Prop :=
  0 <= r c <= 255 /\ 0 <= g c <= 255 /\ 0 <= b c <= 255.

(** ** Accuracy of a library function

    [within_ulps k y x]: [y] is [x] or one of the [k] doubles next above or
    next below it. *)

Fixpoint float_steps (f : float -> float) (k : nat) (x : float) : list float :=
  match k with
  | O => []
  | S k' => f x :: float_steps f k' (f x)
  end.

Definition within_ulps (k : nat) (y x : float) : Prop :=
  y ∈ x :: float_steps next_up k x ++ float_steps next_down k x.

(** ** The writes of a worker

    A worker reads nothing from the buffer: what it does to the buffer is a
    list of writes [(index, byte)], which [applyWrites] performs in order. *)

Definition pixelWrites (x y width : Z) (color : Color) : list (Z * Z) :=
  let pixelIndex := int_wrap ((y * width + x) * 4) in
  [ (pixelIndex, r color); (pixelIndex + 1, g color);
    (pixelIndex + 2, b color); (pixelIndex + 3, 255) ].

Definition applyWrites (writes : list (Z * Z)) (pixels : list Z) : outcome (list Z) :=
  foldM (fun px w => store px w.1 w.2) writes pixels.

Definition rowWrites (M : Libm) (fuel : nat) (state : RenderState)
    (palette : list Color) (width height y : Z) : outcome (list (Z * Z)) :=
  ws ← forM (fun x =>
               color ← pixelColor M fuel state palette x y width height;
               mret (pixelWrites x y width color))
         (seqZ 0 width);
  mret (concat ws).

Definition regionWrites (M : Libm) (fuel : nat) (state : RenderState)
    (startY endY width height : Z) : outcome (list (Z * Z)) :=
  palette ← read (PALETTES !! Z.to_nat (to_size_t (colorScheme state)
                                        mod Z.of_nat (length PALETTES)));
  ws ← forM (rowWrites M fuel state palette width height)
         (seqZ startY (endY - startY));
  mret (concat ws).

(** ** Bounds on a colour, channel by channel *)

Definition color_between (lo hi c : Color) : Prop :=
  r lo <= r c <= r hi /\ g lo <= g c <= g hi /\ b lo <= b c <= b hi.

(** ** Sums over the grid of sub-samples *)

Definition sumZ (l : list Z) : Z := foldr Z.add 0 l.

(** The sum of [f sy sx] over the grid [0 <= sy, sx < n]. *)
Definition grid_sum (n : Z) (f : Z -> Z -> Z) : Z :=
  sumZ ((fun sy => sumZ (f sy <$> seqZ 0 n)) <$> seqZ 0 n).

(** ** A check of one channel of [interpolateColors]

    The channel computed at the factors 0 and 1 is the channel of the first
    and of the second colour. *)
Definition channel_ends_ok (r1 r2 : Z) : bool :=
  match double_to_uint8 (of_int r1 + 0 * of_int (r2 - r1))%float,
        double_to_uint8 (of_int r1 + 1 * of_int (r2 - r1))%float with
  | Ok v0, Ok v1 => (v0 =? r1) && (v1 =? r2)
  | _, _ => false
  end.

(** The 49 sub-samples of pixel (0, 0) of a 2 x 2 image of the default
    view, with the sample library. *)
Definition corner_sample (sy sx : Z) : Color :=
  match subSampleColor sampleLibm 128 7 0 0 defaultState 2 2 palette0 sy sx with
  | Ok c => c
  | _ => Build_Color 0 0 0
  end.

(** ** The controls of [main]

    The part of [main] that changes the render state: the handlers of the
    window events, the frame of the main loop and the camera path of the
    animation.  What the program reads from outside while it runs is an
    input of the model: the events of the window, the position
    [sf::Mouse::getPosition] returns while an event is handled, and the
    seconds [scrollTimer.getElapsedTime().asSeconds()] returns in a frame.
    Drawing, the render time string and the console output are left out. *)

Definition animating : bool := true.
Definition SCROLL_RENDER_DELAY : float := to_float 0.1.

(** The result of signed arithmetic on [int]: undefined when it does not
    fit. *)
Definition int_result (z : Z) : outcome Z :=
  if (INT_MIN <=? z) && (z <=? INT_MAX) then Ok z else Undefined.

(** Multiplication and division carried out in [float]. *)
Definition mulf (x y : float) : float :=
  SF2Prim (SFmul 24 128 (Prim2SF x) (Prim2SF y)).
Definition divf (x y : float) : float :=
  SF2Prim (SFdiv 24 128 (Prim2SF x) (Prim2SF y)).

(** [std::max(a, b)] on [float]: [b] when [a < b], else [a]. *)
Definition maxf (a b : float) : float := if (a <? b)%float then b else a.

(** Assignments to one field of the render state. *)

Definition set_viewportX (v : float) (state : RenderState) : RenderState :=
  Build_RenderState v (viewportY state) (viewportHeight state) (maxIterations state)
    (colorDensity state) (showJulia state) (juliaX state) (juliaY state)
    (colorScheme state) (autoIterations state) (fractalType state) (stripes state)
    (stripeFrequency state) (stripeIntensity state) (innerCalculation state)
    (antiAliasing state).

Definition set_viewportY (v : float) (state : RenderState) : RenderState :=
  Build_RenderState (viewportX state) v (viewportHeight state) (maxIterations state)
    (colorDensity state) (showJulia state) (juliaX state) (juliaY state)
    (colorScheme state) (autoIterations state) (fractalType state) (stripes state)
    (stripeFrequency state) (stripeIntensity state) (innerCalculation state)
    (antiAliasing state).

Definition set_viewportHeight (v : float) (state : RenderState) : RenderState :=
  Build_RenderState (viewportX state) (viewportY state) v (maxIterations state)
    (colorDensity state) (showJulia state) (juliaX state) (juliaY state)
    (colorScheme state) (autoIterations state) (fractalType state) (stripes state)
    (stripeFrequency state) (stripeIntensity state) (innerCalculation state)
    (antiAliasing state).

Definition set_colorDensity (v : float) (state : RenderState) : RenderState :=
  Build_RenderState (viewportX state) (viewportY state) (viewportHeight state)
    (maxIterations state) v (showJulia state) (juliaX state) (juliaY state)
    (colorScheme state) (autoIterations state) (fractalType state) (stripes state)
    (stripeFrequency state) (stripeIntensity state) (innerCalculation state)
    (antiAliasing state).

Definition set_showJulia (v : bool) (state : RenderState) : RenderState :=
  Build_RenderState (viewportX state) (viewportY state) (viewportHeight state)
    (maxIterations state) (colorDensity state) v (juliaX state) (juliaY state)
    (colorScheme state) (autoIterations state) (fractalType state) (stripes state)
    (stripeFrequency state) (stripeIntensity state) (innerCalculation state)
    (antiAliasing state).

Definition set_juliaX (v : float) (state : RenderState) : RenderState :=
  Build_RenderState (viewportX state) (viewportY state) (viewportHeight state)
    (maxIterations state) (colorDensity state) (showJulia state) v (juliaY state)
    (colorScheme state) (autoIterations state) (fractalType state) (stripes state)
    (stripeFrequency state) (stripeIntensity state) (innerCalculation state)
    (antiAliasing state).

Definition set_juliaY (v : float) (state : RenderState) : RenderState :=
  Build_RenderState (viewportX state) (viewportY state) (viewportHeight state)
    (maxIterations state) (colorDensity state) (showJulia state) (juliaX state) v
    (colorScheme state) (autoIterations state) (fractalType state) (stripes state)
    (stripeFrequency state) (stripeIntensity state) (innerCalculation state)
    (antiAliasing state).

Definition set_colorScheme (v : Z) (state : RenderState) : RenderState :=
  Build_RenderState (viewportX state) (viewportY state) (viewportHeight state)
    (maxIterations state) (colorDensity state) (showJulia state) (juliaX state)
    (juliaY state) v (autoIterations state) (fractalType state) (stripes state)
    (stripeFrequency state) (stripeIntensity state) (innerCalculation state)
    (antiAliasing state).

Definition set_autoIterations (v : bool) (state : RenderState) : RenderState :=
  Build_RenderState (viewportX state) (viewportY state) (viewportHeight state)
    (maxIterations state) (colorDensity state) (showJulia state) (juliaX state)
    (juliaY state) (colorScheme state) v (fractalType state) (stripes state)
    (stripeFrequency state) (stripeIntensity state) (innerCalculation state)
    (antiAliasing state).

Definition set_fractalType (v : Z) (state : RenderState) : RenderState :=
  Build_RenderState (viewportX state) (viewportY state) (viewportHeight state)
    (maxIterations state) (colorDensity state) (showJulia state) (juliaX state)
    (juliaY state) (colorScheme state) (autoIterations state) v (stripes state)
    (stripeFrequency state) (stripeIntensity state) (innerCalculation state)
    (antiAliasing state).

Definition set_stripes (v : bool) (state : RenderState) : RenderState :=
  Build_RenderState (viewportX state) (viewportY state) (viewportHeight state)
    (maxIterations state) (colorDensity state) (showJulia state) (juliaX state)
    (juliaY state) (colorScheme state) (autoIterations state) (fractalType state) v
    (stripeFrequency state) (stripeIntensity state) (innerCalculation state)
    (antiAliasing state).

Definition set_stripeFrequency (v : float) (state : RenderState) : RenderState :=
  Build_RenderState (viewportX state) (viewportY state) (viewportHeight state)
    (maxIterations state) (colorDensity state) (showJulia state) (juliaX state)
    (juliaY state) (colorScheme state) (autoIterations state) (fractalType state)
    (stripes state) v (stripeIntensity state) (innerCalculation state)
    (antiAliasing state).

Definition set_stripeIntensity (v : float) (state : RenderState) : RenderState :=
  Build_RenderState (viewportX state) (viewportY state) (viewportHeight state)
    (maxIterations state) (colorDensity state) (showJulia state) (juliaX state)
    (juliaY state) (colorScheme state) (autoIterations state) (fractalType state)
    (stripes state) (stripeFrequency state) v (innerCalculation state)
    (antiAliasing state).

Definition set_innerCalculation (v : bool) (state : RenderState) : RenderState :=
  Build_RenderState (viewportX state) (viewportY state) (viewportHeight state)
    (maxIterations state) (colorDensity state) (showJulia state) (juliaX state)
    (juliaY state) (colorScheme state) (autoIterations state) (fractalType state)
    (stripes state) (stripeFrequency state) (stripeIntensity state) v
    (antiAliasing state).

Definition set_antiAliasing (v : bool) (state : RenderState) : RenderState :=
  Build_RenderState (viewportX state) (viewportY state) (viewportHeight state)
    (maxIterations state) (colorDensity state) (showJulia state) (juliaX state)
    (juliaY state) (colorScheme state) (autoIterations state) (fractalType state)
    (stripes state) (stripeFrequency state) (stripeIntensity state)
    (innerCalculation state) v.

(** Lines 568-572: one step of the camera path. *)
Definition animationStep (state : RenderState) : outcome RenderState :=
  let state1 :=
    set_viewportX
      (viewportX state
       + (-1.7110287606470104826428269 - viewportX state) / 1)%float state in
  let state2 :=
    set_viewportY
      (viewportY state1
       + (0.0003109297379698081368812 - viewportY state1) / 1)%float state1 in
  let state3 :=
    set_viewportHeight
      (viewportHeight state2
       + (0.0000000000001705302565824 - viewportHeight state2) / 25)%float state2 in
  let state4 :=
    set_colorDensity
      (to_float (colorDensity state3
                 + (0.0186927672475576400756836 - colorDensity state3) / 25)%float)
      state3 in
  difference ← int_result (1941 - maxIterations state4);
  sum ← int_result (maxIterations state4 + difference ÷ 25);
  Ok (set_maxIterations sum state4).

(** The animation after [n] frames. *)
Fixpoint animation (n : nat) (state : RenderState) : outcome RenderState :=
  match n with
  | O => Ok state
  | S n' => state' ← animationStep state; animation n' state'
  end.

Module Main.

Inductive Key : Type :=
  | R | J | C | I | K | A | T | B | F | N | Up | Down | Left | Right | OtherKey.

Inductive Button : Type := LeftButton | OtherButton.

(** An event, with the mouse position [sf::Mouse::getPosition(window)]
    returns while it is handled. *)
Inductive Event : Type :=
  | Closed
  | MouseWheelScrolled (delta : float) (mousePos : Z * Z)
  | MouseButtonPressed (button : Button) (mousePos : Z * Z)
  | MouseButtonReleased (button : Button)
  | MouseMoved (mousePos : Z * Z)
  | KeyPressed (code : Key)
  | OtherEvent.

(** The variables of [main] and the global [frame]; [texture] holds what
    [texture.update(pixels)] copied, [screenshots] the files written by
    [saveScreenshot], [scrollTimerRestarts] counts the calls of
    [scrollTimer.restart()]. *)
Record Vars : Type := {
  state : RenderState;
  pixels : list Z;
  texture : list Z;
  lastMousePos : Z * Z;
  isDragging : bool;
  currentMousePos : Z * Z;
  mouseComplexX : float;
  mouseComplexY : float;
  viewChanged : bool;
  pendingHighQualityRender : bool;
  needsRedraw : bool;
  usePreview : bool;
  windowOpen : bool;
  scrollTimerRestarts : nat;
  frame : Z;
  screenshots : list (string * list Z);
}.

Definition set_state (v : RenderState) (m : Vars) : Vars :=
  Build_Vars v (pixels m) (texture m) (lastMousePos m) (isDragging m)
    (currentMousePos m) (mouseComplexX m) (mouseComplexY m) (viewChanged m)
    (pendingHighQualityRender m) (needsRedraw m) (usePreview m) (windowOpen m)
    (scrollTimerRestarts m) (frame m) (screenshots m).

Definition set_pixels (v : list Z) (m : Vars) : Vars :=
  Build_Vars (state m) v (texture m) (lastMousePos m) (isDragging m)
    (currentMousePos m) (mouseComplexX m) (mouseComplexY m) (viewChanged m)
    (pendingHighQualityRender m) (needsRedraw m) (usePreview m) (windowOpen m)
    (scrollTimerRestarts m) (frame m) (screenshots m).

Definition set_texture (v : list Z) (m : Vars) : Vars :=
  Build_Vars (state m) (pixels m) v (lastMousePos m) (isDragging m)
    (currentMousePos m) (mouseComplexX m) (mouseComplexY m) (viewChanged m)
    (pendingHighQualityRender m) (needsRedraw m) (usePreview m) (windowOpen m)
    (scrollTimerRestarts m) (frame m) (screenshots m).

Definition set_lastMousePos (v : Z * Z) (m : Vars) : Vars :=
  Build_Vars (state m) (pixels m) (texture m) v (isDragging m) (currentMousePos m)
    (mouseComplexX m) (mouseComplexY m) (viewChanged m) (pendingHighQualityRender m)
    (needsRedraw m) (usePreview m) (windowOpen m) (scrollTimerRestarts m) (frame m)
    (screenshots m).

Definition set_isDragging (v : bool) (m : Vars) : Vars :=
  Build_Vars (state m) (pixels m) (texture m) (lastMousePos m) v (currentMousePos m)
    (mouseComplexX m) (mouseComplexY m) (viewChanged m) (pendingHighQualityRender m)
    (needsRedraw m) (usePreview m) (windowOpen m) (scrollTimerRestarts m) (frame m)
    (screenshots m).

Definition set_currentMousePos (v : Z * Z) (m : Vars) : Vars :=
  Build_Vars (state m) (pixels m) (texture m) (lastMousePos m) (isDragging m) v
    (mouseComplexX m) (mouseComplexY m) (viewChanged m) (pendingHighQualityRender m)
    (needsRedraw m) (usePreview m) (windowOpen m) (scrollTimerRestarts m) (frame m)
    (screenshots m).

Definition set_mouseComplexX (v : float) (m : Vars) : Vars :=
  Build_Vars (state m) (pixels m) (texture m) (lastMousePos m) (isDragging m)
    (currentMousePos m) v (mouseComplexY m) (viewChanged m)
    (pendingHighQualityRender m) (needsRedraw m) (usePreview m) (windowOpen m)
    (scrollTimerRestarts m) (frame m) (screenshots m).

Definition set_mouseComplexY (v : float) (m : Vars) : Vars :=
  Build_Vars (state m) (pixels m) (texture m) (lastMousePos m) (isDragging m)
    (currentMousePos m) (mouseComplexX m) v (viewChanged m)
    (pendingHighQualityRender m) (needsRedraw m) (usePreview m) (windowOpen m)
    (scrollTimerRestarts m) (frame m) (screenshots m).

Definition set_viewChanged (v : bool) (m : Vars) : Vars :=
  Build_Vars (state m) (pixels m) (texture m) (lastMousePos m) (isDragging m)
    (currentMousePos m) (mouseComplexX m) (mouseComplexY m) v
    (pendingHighQualityRender m) (needsRedraw m) (usePreview m) (windowOpen m)
    (scrollTimerRestarts m) (frame m) (screenshots m).

Definition set_pendingHighQualityRender (v : bool) (m : Vars) : Vars :=
  Build_Vars (state m) (pixels m) (texture m) (lastMousePos m) (isDragging m)
    (currentMousePos m) (mouseComplexX m) (mouseComplexY m) (viewChanged m) v
    (needsRedraw m) (usePreview m) (windowOpen m) (scrollTimerRestarts m) (frame m)
    (screenshots m).

Definition set_needsRedraw (v : bool) (m : Vars) : Vars :=
  Build_Vars (state m) (pixels m) (texture m) (lastMousePos m) (isDragging m)
    (currentMousePos m) (mouseComplexX m) (mouseComplexY m) (viewChanged m)
    (pendingHighQualityRender m) v (usePreview m) (windowOpen m)
    (scrollTimerRestarts m) (frame m) (screenshots m).

Definition set_usePreview (v : bool) (m : Vars) : Vars :=
  Build_Vars (state m) (pixels m) (texture m) (lastMousePos m) (isDragging m)
    (currentMousePos m) (mouseComplexX m) (mouseComplexY m) (viewChanged m)
    (pendingHighQualityRender m) (needsRedraw m) v (windowOpen m)
    (scrollTimerRestarts m) (frame m) (screenshots m).

Definition set_windowOpen (v : bool) (m : Vars) : Vars :=
  Build_Vars (state m) (pixels m) (texture m) (lastMousePos m) (isDragging m)
    (currentMousePos m) (mouseComplexX m) (mouseComplexY m) (viewChanged m)
    (pendingHighQualityRender m) (needsRedraw m) (usePreview m) v
    (scrollTimerRestarts m) (frame m) (screenshots m).

Definition set_scrollTimerRestarts (v : nat) (m : Vars) : Vars :=
  Build_Vars (state m) (pixels m) (texture m) (lastMousePos m) (isDragging m)
    (currentMousePos m) (mouseComplexX m) (mouseComplexY m) (viewChanged m)
    (pendingHighQualityRender m) (needsRedraw m) (usePreview m) (windowOpen m) v
    (frame m) (screenshots m).

Definition set_frame (v : Z) (m : Vars) : Vars :=
  Build_Vars (state m) (pixels m) (texture m) (lastMousePos m) (isDragging m)
    (currentMousePos m) (mouseComplexX m) (mouseComplexY m) (viewChanged m)
    (pendingHighQualityRender m) (needsRedraw m) (usePreview m) (windowOpen m)
    (scrollTimerRestarts m) v (screenshots m).

Definition set_screenshots (v : list (string * list Z)) (m : Vars) : Vars :=
  Build_Vars (state m) (pixels m) (texture m) (lastMousePos m) (isDragging m)
    (currentMousePos m) (mouseComplexX m) (mouseComplexY m) (viewChanged m)
    (pendingHighQualityRender m) (needsRedraw m) (usePreview m) (windowOpen m)
    (scrollTimerRestarts m) (frame m) v.

(** Lines 388-391 and 425-430: the point of the plane under the mouse. *)
Definition mouseWorldX (state : RenderState) (x : Z) : float :=
  let halfWidth := (getViewportWidth state / 2)%float in
  (viewportX state - halfWidth
   + of_int x * getViewportWidth state / of_int WINDOW_WIDTH)%float.

Definition mouseWorldY (state : RenderState) (y : Z) : float :=
  let halfHeight := (viewportHeight state / 2)%float in
  (viewportY state - halfHeight
   + of_int y * viewportHeight state / of_int WINDOW_HEIGHT)%float.

(** Lines 382-406. *)
Definition mouseWheelScrolled (M : Libm) (delta : float) (mousePos : Z * Z)
    (m : Vars) : outcome Vars :=
  if (0 <=? mousePos.1) && (mousePos.1 <? WINDOW_WIDTH)
     && (0 <=? mousePos.2) && (mousePos.2 <? WINDOW_HEIGHT) then
    let mouseX := mouseWorldX (state m) mousePos.1 in
    let mouseY := mouseWorldY (state m) mousePos.2 in
    let zoomFactor := if (0 <? delta)%float then 0.5%float else 2.0%float in
    let state1 :=
      set_viewportX (mouseX + (viewportX (state m) - mouseX) * zoomFactor)%float
        (state m) in
    let state2 :=
      set_viewportY (mouseY + (viewportY state1 - mouseY) * zoomFactor)%float state1 in
    let state3 := set_viewportHeight (viewportHeight state2 * zoomFactor)%float state2 in
    state4 ← adjustIterations M state3;
    Ok (set_scrollTimerRestarts (S (scrollTimerRestarts m))
          (set_viewChanged true
             (set_usePreview true (set_needsRedraw true (set_state state4 m)))))
  else Ok m.

(** Lines 409-413. *)
Definition mouseButtonPressed (button : Button) (mousePos : Z * Z) (m : Vars) : Vars :=
  match button with
  | LeftButton => set_lastMousePos mousePos (set_usePreview true (set_isDragging true m))
  | OtherButton => m
  end.

(** Lines 415-419. *)
Definition mouseButtonReleased (button : Button) (m : Vars) : Vars :=
  match button with
  | LeftButton =>
      set_scrollTimerRestarts (S (scrollTimerRestarts m))
        (set_pendingHighQualityRender true (set_isDragging false m))
  | OtherButton => m
  end.

(** Lines 422-447. *)
Definition mouseMoved (mousePos : Z * Z) (m : Vars) : outcome Vars :=
  let m1 := set_currentMousePos mousePos m in
  let m2 := set_mouseComplexX (mouseWorldX (state m1) (currentMousePos m1).1) m1 in
  let m3 := set_mouseComplexY (mouseWorldY (state m2) (currentMousePos m2).2) m2 in
  if isDragging m3 then
    deltaX_ ← int_result ((lastMousePos m3).1 - (currentMousePos m3).1);
    deltaY_ ← int_result ((lastMousePos m3).2 - (currentMousePos m3).2);
    let deltaX :=
      (of_int deltaX_ * getViewportWidth (state m3) / of_int WINDOW_WIDTH)%float in
    let deltaY :=
      (of_int deltaY_ * viewportHeight (state m3) / of_int WINDOW_HEIGHT)%float in
    let state1 := set_viewportX (viewportX (state m3) + deltaX)%float (state m3) in
    let state2 := set_viewportY (viewportY state1 + deltaY)%float state1 in
    Ok (set_scrollTimerRestarts (S (scrollTimerRestarts m3))
          (set_viewChanged true
             (set_usePreview true
                (set_needsRedraw true
                   (set_lastMousePos (currentMousePos m3) (set_state state2 m3))))))
  else Ok m3.

(** Lines 450-529: the [switch] on the key. *)
Definition keyPressed (M : Libm) (code : Key) (m : Vars) : outcome Vars :=
  match code with
  | R =>
      let state1 :=
        set_viewportHeight 3.0
          (set_viewportY 0.0 (set_viewportX (-0.5) (state m))) in
      state2 ← adjustIterations M state1;
      Ok (set_pendingHighQualityRender true
            (set_viewChanged false (set_needsRedraw true (set_state state2 m))))
  | J =>
      let state1 := set_showJulia (negb (showJulia (state m))) (state m) in
      let state2 :=
        if negb (showJulia state1)
        then set_juliaY (mouseComplexY m) (set_juliaX (mouseComplexX m) state1)
        else state1 in
      Ok (set_needsRedraw true (set_state state2 m))
  | C =>
      next ← int_result (colorScheme (state m) + 1);
      Ok (set_needsRedraw true
            (set_state
               (set_colorScheme (to_size_t next mod Z.of_nat (length PALETTES))
                  (state m)) m))
  | I =>
      n ← double_to_int (of_int (maxIterations (state m)) * 1.5)%float;
      Ok (set_needsRedraw true
            (set_state (set_autoIterations false (set_maxIterations n (state m))) m))
  | K =>
      n ← double_to_int (of_int (maxIterations (state m)) / 1.5)%float;
      Ok (set_needsRedraw true
            (set_state
               (set_autoIterations false (set_maxIterations (Z.max 50 n) (state m))) m))
  | A =>
      let state1 := set_autoIterations (negb (autoIterations (state m))) (state m) in
      if autoIterations state1 then
        state2 ← adjustIterations M state1;
        Ok (set_needsRedraw true (set_state state2 m))
      else Ok (set_state state1 m)
  | T =>
      next ← int_result (fractalType (state m) + 1);
      Ok (set_needsRedraw true
            (set_state (set_fractalType (Z.rem next 2) (state m)) m))
  | B =>
      Ok (set_needsRedraw true
            (set_state (set_stripes (negb (stripes (state m))) (state m)) m))
  | F =>
      Ok (set_pendingHighQualityRender true
            (set_needsRedraw true
               (set_state (set_antiAliasing (negb (antiAliasing (state m))) (state m))
                  m)))
  | N =>
      Ok (set_needsRedraw true
            (set_state
               (set_innerCalculation (negb (innerCalculation (state m))) (state m)) m))
  | Up =>
      Ok (set_needsRedraw true
            (set_state
               (set_colorDensity (mulf (colorDensity (state m)) (to_float 1.2))
                  (state m)) m))
  | Down =>
      Ok (set_needsRedraw true
            (set_state
               (set_colorDensity (divf (colorDensity (state m)) (to_float 1.2))
                  (state m)) m))
  | Left =>
      if stripes (state m) then
        Ok (set_needsRedraw true
              (set_state
                 (set_stripeFrequency
                    (maxf 1.0 (subf (stripeFrequency (state m)) 1.0)) (state m)) m))
      else Ok m
  | Right =>
      if stripes (state m) then
        Ok (set_needsRedraw true
              (set_state
                 (set_stripeFrequency (addf (stripeFrequency (state m)) 1.0) (state m))
                 m))
      else Ok m
  | OtherKey => Ok m
  end.

(** Lines 382-529: the handlers an event passes when the loop goes on
    after the test of [animating]. *)
Definition handleEvent (M : Libm) (event : Event) (m : Vars) : outcome Vars :=
  match event with
  | Closed => Ok m
  | MouseWheelScrolled delta mousePos => mouseWheelScrolled M delta mousePos m
  | MouseButtonPressed button mousePos => Ok (mouseButtonPressed button mousePos m)
  | MouseButtonReleased button => Ok (mouseButtonReleased button m)
  | MouseMoved mousePos => mouseMoved mousePos m
  | KeyPressed code => keyPressed M code m
  | OtherEvent => Ok m
  end.

(** Lines 373-530: [while (window.pollEvent(event))]; the events that are
    not polled stay in the queue. *)
Fixpoint pollEvents (M : Libm) (events : list Event) (m : Vars)
    : outcome (Vars * list Event) :=
  match events with
  | [] => Ok (m, [])
  | event :: rest =>
      let m1 := match event with Closed => set_windowOpen false m | _ => m end in
      if animating then Ok (m1, rest)
      else m2 ← handleEvent M event m1; pollEvents M rest m2
  end.

(** Lines 283-301: the file [saveScreenshot] writes. *)
Definition saveScreenshot (m : Vars) : Vars :=
  set_screenshots
    (screenshots m ++ [((pretty (frame m) +:+ ".png")%string, texture m)]) m.

(** Lines 368-575: one pass of the main loop, with [NUM_THREADS] workers.
    [elapsed] is the reading of the scroll timer. *)
Definition mainLoopBody (M : Libm) (fuel : nat) (NUM_THREADS : Z)
    (events : list Event) (elapsed : float) (m : Vars)
    : outcome (Vars * list Event) :=
  let m0 := set_usePreview false (set_needsRedraw false m) in
  '(m1, rest) ← pollEvents M events m0;
  let m2 :=
    if viewChanged m1 && (SCROLL_RENDER_DELAY <? elapsed)%float
    then set_viewChanged false (set_pendingHighQualityRender true m1)
    else m1 in
  m3 ←
    (if pendingHighQualityRender m2 then
       px ← renderFractal M fuel NUM_THREADS (pixels m2) (state m2)
              WINDOW_WIDTH WINDOW_HEIGHT;
       Ok (set_pendingHighQualityRender false (set_texture px (set_pixels px m2)))
     else if needsRedraw m2 then
       px ← renderFractal M fuel NUM_THREADS (pixels m2) (state m2)
              WINDOW_WIDTH WINDOW_HEIGHT;
       Ok (set_texture px (set_pixels px m2))
     else Ok m2);
  if animating then
    let m4 := set_viewChanged true (saveScreenshot m3) in
    state' ← animationStep (state m4);
    next ← int_result (frame m4 + 1);
    Ok (set_frame next (set_state state' m4), rest)
  else Ok (m3, rest).

(** Lines 343-366: the variables when the loop is entered.  [buffer] is
    the content of the array that [new] returned. *)
Definition start (M : Libm) (fuel : nat) (NUM_THREADS : Z) (buffer : list Z)
    : outcome Vars :=
  state1 ← adjustIterations M defaultState;
  px ← renderFractal M fuel NUM_THREADS buffer state1 WINDOW_WIDTH WINDOW_HEIGHT;
  Ok {| state := state1; pixels := px; texture := px;
        lastMousePos := (0, 0); isDragging := false; currentMousePos := (0, 0);
        mouseComplexX := 0; mouseComplexY := 0;
        viewChanged := false; pendingHighQualityRender := false;
        needsRedraw := false; usePreview := false; windowOpen := true;
        scrollTimerRestarts := 0; frame := 0; screenshots := [] |}.

(** [while (window.isOpen())], for as many frames as there are inputs: a
    frame is given the events that arrived since the frame before, which
    join the queue, and the reading of the scroll timer. *)
Fixpoint mainLoop (M : Libm) (fuel : nat) (NUM_THREADS : Z)
    (inputs : list (list Event * float)) (queue : list Event) (m : Vars)
    : outcome Vars :=
  match inputs with
  | [] => Ok m
  | (arrived, elapsed) :: inputs' =>
      if windowOpen m then
        '(m', rest) ← mainLoopBody M fuel NUM_THREADS (queue ++ arrived) elapsed m;
        mainLoop M fuel NUM_THREADS inputs' rest m'
      else Ok m
  end.

(** The name of the file of frame [k]. *)
Definition screenshotName (k : Z) : string := (pretty k +:+ ".png")%string.

(** A frame of the animation: the render when the view has changed and
    the scroll timer is past its delay, or when a render is pending; the
    screenshot of the texture under the number of the frame; the step
    of the camera path; the next frame number. *)
Definition animationFrame (M : Libm) (fuel : nat) (NUM_THREADS : Z) (elapsed : float)
    (m : Vars) : outcome Vars :=
  shown ←
    (if (viewChanged m && (SCROLL_RENDER_DELAY <? elapsed)%float)
        || pendingHighQualityRender m
     then
       px ← renderFractal M fuel NUM_THREADS (pixels m) (state m)
              WINDOW_WIDTH WINDOW_HEIGHT;
       Ok (px, px)
     else Ok (pixels m, texture m));
  state' ← animationStep (state m);
  next ← int_result (frame m + 1);
  Ok {| state := state'; pixels := shown.1; texture := shown.2;
        lastMousePos := lastMousePos m; isDragging := isDragging m;
        currentMousePos := currentMousePos m;
        mouseComplexX := mouseComplexX m; mouseComplexY := mouseComplexY m;
        viewChanged := true; pendingHighQualityRender := false;
        needsRedraw := false; usePreview := false; windowOpen := windowOpen m;
        scrollTimerRestarts := scrollTimerRestarts m; frame := next;
        screenshots := screenshots m ++ [(screenshotName (frame m), shown.2)] |}.

(** Variables for the examples: the default state and an empty buffer. *)
Definition exampleVars : Vars :=
  {| state := defaultState; pixels := []; texture := [];
     lastMousePos := (0, 0); isDragging := false; currentMousePos := (0, 0);
     mouseComplexX := 0; mouseComplexY := 0;
     viewChanged := false; pendingHighQualityRender := false;
     needsRedraw := false; usePreview := false; windowOpen := true;
     scrollTimerRestarts := 0; frame := 0; screenshots := [] |}.

End Main.

(** An event other than [Closed]. *)
Definition notClosed (e : Main.Event) : Prop := e <> Main.Closed.

(** A check of the keys [I] and [K] on one cap: [I] gives [3 n / 2] and [K]
    gives [2 n / 3], rounded down. *)
Definition iteration_keys_ok (n : Z) : bool :=
  match double_to_int (of_int n * 1.5)%float, double_to_int (of_int n / 1.5)%float with
  | Ok i, Ok k => (i =? 3 * n / 2) && (k =? 2 * n / 3)
  | _, _ => false
  end.


(** * Properties *)

(** ** Machine integers *)

Lemma int_wrap_id (z : Z) : INT_MIN <= z <= INT_MAX -> int_wrap z = z.
Proof.
  unfold int_wrap, INT_MIN, INT_MAX. intros H.
  rewrite Z.mod_small by lia. lia.
Qed.

(** ** The search for the first escape *)

Lemma first_escape_from_Some (z : nat -> complex) (k count n : nat) :
  first_escape_from z k count = Some n ->
  (k <= n < k + count)%nat /\ escaped (z n) = true
  /\ forall j, (k <= j < n)%nat -> escaped (z j) = false.
Proof.
  revert k. induction count as [|count IH]; intros k; cbn [first_escape_from].
  - discriminate.
  - destruct (escaped (z k)) eqn:E.
    + intros [= <-]. repeat split; [lia|lia|exact E|intros; lia].
    + intros H. apply IH in H as (Hn & He & Hb).
      repeat split; [lia|lia|exact He|].
      intros j Hj. destruct (Nat.eq_dec j k) as [->|]; [exact E|apply Hb; lia].
Qed.

Lemma first_escape_from_None (z : nat -> complex) (k count : nat) :
  first_escape_from z k count = None ->
  forall j, (k <= j < k + count)%nat -> escaped (z j) = false.
Proof.
  revert k. induction count as [|count IH]; intros k; cbn [first_escape_from].
  - intros _ j Hj. lia.
  - destruct (escaped (z k)) eqn:E; [discriminate|].
    intros H j Hj. destruct (Nat.eq_dec j k) as [->|]; [exact E|].
    apply (IH _ H). lia.
Qed.

(** ** The iteration loop *)

Section LoopFacts.
Variable M : Libm.
Variables (cr_actual ci_actual : float) (maxIter : Z) (fractalType : Z).
Variables (stripes : bool) (stripeFrequency : float) (innerCalculation : bool).
Variables (zr0 zi0 : float).

Local Abbreviation body := (loop_body M cr_actual ci_actual fractalType stripes stripeFrequency).
Local Abbreviation run := (iterate M cr_actual ci_actual maxIter fractalType stripes
               stripeFrequency innerCalculation).
Local Abbreviation z := (spec_orbit fractalType (cr_actual, ci_actual) (zr0, zi0)).
Local Abbreviation st := (state_at M cr_actual ci_actual fractalType stripes stripeFrequency zr0 zi0).

(** The loop variables follow the orbit, cache its squares, count the
    passes and accumulate the stripe statistic. *)
Lemma state_at_orbit (n : nat) :
  Z.of_nat n <= INT_MAX ->
  st n =
    {| ls_zr := (z n).1; ls_zi := (z n).2;
       ls_zr2 := ((z n).1 * (z n).1)%float; ls_zi2 := ((z n).2 * (z n).2)%float;
       ls_stripeSum := spec_stripeSum M stripes stripeFrequency z n;
       ls_i := Z.of_nat n |}.
Proof.
  induction n as [|n IH]; intros Hn; [reflexivity|].
  unfold state_at in *. rewrite Nat.iter_succ, IH by lia.
  unfold loop_body; cbn [ls_zr ls_zi ls_zr2 ls_zi2 ls_stripeSum ls_i].
  rewrite int_wrap_id by (unfold INT_MIN; lia).
  cbn [spec_orbit spec_stripeSum]. unfold spec_step. cbn [fst snd].
  f_equal. lia.
Qed.

Lemma state_at_test (n : nat) :
  Z.of_nat n <= INT_MAX ->
  (ls_zr2 (st n) + ls_zi2 (st n) <? ESCAPE_RADIUS_SQUARED)%float
  = negb (escaped (z n)).
Proof.
  intros Hn. rewrite state_at_orbit by assumption.
  unfold escaped, norm2. cbn [ls_zr2 ls_zi2 fst snd]. now rewrite negb_involutive.
Qed.

Lemma state_at_succ (n : nat) : st (S n) = body (st n).
Proof. reflexivity. Qed.

(** While no point has escaped and the cap is not reached, [n] passes of
    the loop consume [n] units of fuel and advance the state by [n]. *)
Lemma iterate_advance_from (k n fuel : nat) :
  Z.of_nat (k + n) < maxIter <= INT_MAX ->
  (forall j, (k <= j < k + n)%nat -> escaped (z j) = false) ->
  run (n + fuel) (st k) = run fuel (st (k + n)).
Proof.
  revert k. induction n as [|n IH]; intros k Hn Hesc.
  - now rewrite Nat.add_0_r.
  - cbn [Nat.add iterate].
    rewrite state_at_test, Hesc by lia. cbn [negb].
    rewrite <- state_at_succ.
    rewrite (state_at_orbit (S k)) at 1 by lia. cbn [ls_i].
    destruct (Z.eqb_spec (Z.of_nat (S k)) maxIter) as [E|_]; [lia|].
    rewrite IH by (lia || (intros; apply Hesc; lia)).
    f_equal. f_equal. lia.
Qed.

(** Out of fuel before anything happened. *)
Lemma iterate_starved (k : nat) :
  Z.of_nat k <= INT_MAX -> escaped (z k) = false -> run 0 (st k) = OutOfFuel.
Proof.
  intros Hk He. cbn [iterate]. now rewrite state_at_test, He by lia.
Qed.

(** The exit through the loop test. *)
Lemma iterate_escape (k fuel : nat) :
  Z.of_nat k < INT_MAX -> escaped (z k) = true ->
  run fuel (st k) = Ok (escape_result M stripes stripeFrequency z k).
Proof.
  intros Hk He.
  assert (T := state_at_test k). rewrite He in T. cbn [negb] in T.
  destruct fuel; cbn [iterate]; rewrite T by lia;
    rewrite state_at_orbit by lia; cbn [ls_i ls_zr2 ls_zi2 ls_stripeSum];
    rewrite int_wrap_id by (unfold INT_MIN; lia); reflexivity.
Qed.

(** The exit through the cap. *)
Lemma iterate_cap (k fuel : nat) :
  Z.of_nat (S k) = maxIter -> maxIter < INT_MAX -> escaped (z k) = false ->
  run (S fuel) (st k) =
    Ok (if innerCalculation
        then escape_result M stripes stripeFrequency z (S k)
        else interior_result).
Proof.
  intros Hk Hm He. cbn [iterate].
  rewrite state_at_test, He by lia. cbn [negb].
  rewrite <- state_at_succ, (state_at_orbit (S k)) by lia.
  cbn [ls_i ls_zr2 ls_zi2 ls_stripeSum].
  rewrite Hk, Z.eqb_refl. destruct innerCalculation; [|reflexivity].
  rewrite int_wrap_id by (unfold INT_MIN; lia). rewrite <- Hk. reflexivity.
Qed.

(** Every pass either leaves the loop or uses one unit of fuel, and the
    counter reaches [maxIter] after at most [maxIter - i] more passes. *)
Lemma iterate_enough (fuel : nat) (s : LoopState) :
  0 <= ls_i s < maxIter -> maxIter <= INT_MAX ->
  (Z.to_nat (maxIter - ls_i s) <= fuel)%nat ->
  exists res, run fuel s = Ok res
    /\ (iteration res = -1 \/ ls_i s <= iteration res <= maxIter).
Proof.
  revert s. induction fuel as [|fuel IH]; intros s Hi Hm Hf.
  - lia.
  - cbn [iterate].
    destruct (ls_zr2 s + ls_zi2 s <? ESCAPE_RADIUS_SQUARED)%float.
    + unfold loop_body at 1. cbn [ls_i].
      rewrite int_wrap_id by (unfold INT_MIN; lia).
      destruct (Z.eqb_spec (ls_i s + 1) maxIter) as [E|N].
      * destruct innerCalculation; eexists; (split; [reflexivity|]);
          cbn [iteration]; [right|left; reflexivity].
        unfold loop_body; cbn [ls_i].
        rewrite int_wrap_id by (unfold INT_MIN; lia). lia.
      * destruct (IH (body s)) as (res & Hres & Hit).
        -- unfold loop_body; cbn [ls_i].
           rewrite int_wrap_id by (unfold INT_MIN; lia). lia.
        -- assumption.
        -- unfold loop_body; cbn [ls_i].
           rewrite int_wrap_id by (unfold INT_MIN; lia). lia.
        -- exists res. split; [exact Hres|].
           revert Hit. unfold loop_body; cbn [ls_i].
           rewrite int_wrap_id by (unfold INT_MIN; lia). lia.
    + eexists. split; [reflexivity|]. cbn [iteration]. right. lia.
Qed.

(** More fuel does not change a result. *)
Lemma iterate_fuel_mono (fuel fuel' : nat) (s : LoopState) (res : ReturnInfo) :
  (fuel <= fuel')%nat -> run fuel s = Ok res -> run fuel' s = Ok res.
Proof.
  revert fuel' s. induction fuel as [|fuel IH]; intros fuel' s Hf.
  - cbn [iterate]. destruct fuel'; cbn [iterate];
      destruct (ls_zr2 s + ls_zi2 s <? ESCAPE_RADIUS_SQUARED)%float; congruence.
  - destruct fuel' as [|fuel']; [lia|]. cbn [iterate].
    destruct (ls_zr2 s + ls_zi2 s <? ESCAPE_RADIUS_SQUARED)%float; [|congruence].
    destruct (ls_i (body s) =? maxIter); [congruence|].
    apply IH. lia.
Qed.

(** The loop, started at [state_at 0], as a function of the orbit. *)
Lemma iterate_from_start (fuel : nat) :
  1 <= maxIter < INT_MAX ->
  run fuel (st 0) =
    match first_escape z (Z.to_nat maxIter) with
    | Some n =>
        if (n <=? fuel)%nat
        then Ok (escape_result M stripes stripeFrequency z n)
        else OutOfFuel
    | None =>
        if (Z.to_nat maxIter <=? fuel)%nat
        then Ok (if innerCalculation
                 then escape_result M stripes stripeFrequency z (Z.to_nat maxIter)
                 else interior_result)
        else OutOfFuel
    end.
Proof.
  intros Hm. unfold first_escape.
  destruct (first_escape_from z 0 (Z.to_nat maxIter)) as [n|] eqn:E.
  - apply first_escape_from_Some in E as (Hn & He & Hbefore).
    destruct (Nat.leb_spec n fuel) as [L|L].
    + replace fuel with (n + (fuel - n))%nat by lia.
      rewrite (iterate_advance_from 0 n) by (lia || (intros; apply Hbefore; lia)).
      apply iterate_escape; [lia|exact He].
    + replace fuel with (fuel + 0)%nat at 1 by lia.
      rewrite (iterate_advance_from 0 fuel) by (lia || (intros; apply Hbefore; lia)).
      apply iterate_starved; [lia|apply Hbefore; lia].
  - assert (Hall := first_escape_from_None _ _ _ E). clear E.
    destruct (Nat.leb_spec (Z.to_nat maxIter) fuel) as [L|L].
    + replace fuel with (Z.to_nat (maxIter - 1) + S (fuel - Z.to_nat maxIter))%nat by lia.
      rewrite (iterate_advance_from 0 (Z.to_nat (maxIter - 1)))
        by (lia || (intros; apply Hall; lia)).
      cbn [Nat.add]. rewrite iterate_cap; [|lia|lia|apply Hall; lia].
      replace (S (Z.to_nat (maxIter - 1))) with (Z.to_nat maxIter) by lia.
      reflexivity.
    + replace fuel with (fuel + 0)%nat at 1 by lia.
      rewrite (iterate_advance_from 0 fuel) by (lia || (intros; apply Hall; lia)).
      apply iterate_starved; [lia|apply Hall; lia].
Qed.

End LoopFacts.

(** ** Comparisons of doubles *)

Lemma SFcompare_antisym (x y : spec_float) :
  SFcompare y x = option_map CompOpp (SFcompare x y).
Proof.
  destruct x as [sx|sx| |sx mx ex], y as [sy|sy| |sy my ey]; cbn;
    try reflexivity; try (destruct sx; reflexivity); try (destruct sy; reflexivity);
    try (destruct sx, sy; reflexivity).
  f_equal. rewrite (Z.compare_antisym ex ey).
  change (Pos.compare_cont Eq my mx) with (Pos.compare my mx).
  change (Pos.compare_cont Eq mx my) with (Pos.compare mx my).
  rewrite (Pos.compare_antisym mx my).
  destruct sx, sy, (ex ?= ey), (mx ?= my)%positive; reflexivity.
Qed.

Lemma SFcompare_None (x y : spec_float) :
  SFcompare x y = None <-> x = S754_nan \/ y = S754_nan.
Proof.
  destruct x as [sx|sx| |sx mx ex], y as [sy|sy| |sy my ey]; cbn;
    split; intros H; try discriminate; try (destruct H; discriminate);
    auto.
Qed.

Lemma is_nan_spec (x : float) : is_nan x = true <-> Prim2SF x = S754_nan.
Proof.
  unfold is_nan. rewrite FloatAxioms.eqb_spec. unfold SFeqb.
  destruct (Prim2SF x) as [s|s| |s m e]; cbn.
  - split; discriminate.
  - destruct s; split; discriminate.
  - split; reflexivity.
  - rewrite Z.compare_refl.
    change (Pos.compare_cont Eq m m) with (Pos.compare m m).
    rewrite Pos.compare_refl. destruct s; split; discriminate.
Qed.

(** The negation of [x < y] is [y <= x] unless one side is NaN. *)
Lemma ltb_false_iff (x y : float) :
  (x <? y)%float = false <->
  (y <=? x)%float = true \/ is_nan x = true \/ is_nan y = true.
Proof.
  rewrite FloatAxioms.ltb_spec, FloatAxioms.leb_spec, !is_nan_spec. unfold SFltb, SFleb.
  rewrite (SFcompare_antisym (Prim2SF x) (Prim2SF y)).
  destruct (SFcompare (Prim2SF x) (Prim2SF y)) as [[]|] eqn:E; cbn.
  - split; auto.
  - split; [discriminate|]. intros [H|H]; [discriminate|].
    apply SFcompare_None in H. congruence.
  - split; auto.
  - apply SFcompare_None in E. split; auto.
Qed.

Lemma escaped_iff (w : complex) :
  escaped w = true <->
  (ESCAPE_RADIUS_SQUARED <=? norm2 w)%float = true \/ is_nan (norm2 w) = true.
Proof.
  unfold escaped. rewrite negb_true_iff, ltb_false_iff.
  assert (N : is_nan ESCAPE_RADIUS_SQUARED = false) by reflexivity.
  rewrite N. intuition discriminate.
Qed.

(** ** [calculateFractal] *)

Section EvaluatorFacts.
Variable M : Libm.
Variables (cr ci jr ji : float) (maxIter : Z) (isJulia : bool) (fractalType : Z).
Variables (stripes : bool) (stripeFrequency : float) (innerCalculation : bool).

Local Abbreviation c := (constant_point isJulia cr ci jr ji).
Local Abbreviation z0 := (start_point isJulia cr ci).
Local Abbreviation z := (spec_orbit fractalType c z0).

(** The early bailout, then the loop entered at [state_at 0]. *)
Lemma calculateFractal_unfold (fuel : nat) :
  calculateFractal M fuel cr ci jr ji maxIter isJulia fractalType stripes
    stripeFrequency innerCalculation =
    if pruned innerCalculation isJulia fractalType cr ci then Ok interior_result
    else iterate M c.1 c.2 maxIter fractalType stripes stripeFrequency
           innerCalculation fuel
           (state_at M c.1 c.2 fractalType stripes stripeFrequency z0.1 z0.2 0).
Proof.
  unfold calculateFractal, pruned, in_cardioid, in_bulb, interior_result,
    constant_point, start_point, state_at.
  cbn [Nat.iter].
  destruct innerCalculation, isJulia, (fractalType =? 0); cbn [negb andb fst snd];
    try reflexivity.
  destruct (_ <? _)%float; [reflexivity|].
  destruct (_ <? _)%float; reflexivity.
Qed.

(** The evaluator as a function of the orbit of the sample point. *)
Lemma calculateFractal_run (fuel : nat) :
  1 <= maxIter < INT_MAX ->
  calculateFractal M fuel cr ci jr ji maxIter isJulia fractalType stripes
    stripeFrequency innerCalculation =
    if pruned innerCalculation isJulia fractalType cr ci then Ok interior_result
    else
      match first_escape z (Z.to_nat maxIter) with
      | Some n =>
          if (n <=? fuel)%nat
          then Ok (escape_result M stripes stripeFrequency z n)
          else OutOfFuel
      | None =>
          if (Z.to_nat maxIter <=? fuel)%nat
          then Ok (if innerCalculation
                   then escape_result M stripes stripeFrequency z (Z.to_nat maxIter)
                   else interior_result)
          else OutOfFuel
      end.
Proof.
  intros Hm. rewrite calculateFractal_unfold.
  destruct (pruned _ _ _ _ _); [reflexivity|].
  rewrite iterate_from_start by assumption.
  destruct c as [c1 c2], z0 as [z1 z2]. reflexivity.
Qed.

End EvaluatorFacts.

(** C10. [calculateFractal] terminates whenever [maxIterations >= 1]: one
    unit of fuel is spent per pass of the loop, and [maxIter] units are
    enough for a result, which more fuel does not change.  The counter it
    reports is [-1] or lies between [0] and [maxIter]. *)
Theorem calculateFractal_terminates (M : Libm) (cr ci jr ji : float) (maxIter : Z)
    (isJulia : bool) (fractalType : Z) (stripes : bool) (stripeFrequency : float)
    (innerCalculation : bool) :
  1 <= maxIter <= INT_MAX ->
  exists res : ReturnInfo,
    (forall fuel : nat, (Z.to_nat maxIter <= fuel)%nat ->
       calculateFractal M fuel cr ci jr ji maxIter isJulia fractalType stripes
         stripeFrequency innerCalculation = Ok res)
    /\ (iteration res = -1 \/ 0 <= iteration res <= maxIter).
Proof.
  intros Hm.
  destruct (pruned innerCalculation isJulia fractalType cr ci) eqn:P.
  - exists interior_result. split; [|left; reflexivity].
    intros fuel _. now rewrite calculateFractal_unfold, P.
  - set (c := constant_point isJulia cr ci jr ji).
    set (z0 := start_point isJulia cr ci).
    destruct (iterate_enough M c.1 c.2 maxIter fractalType stripes stripeFrequency
                innerCalculation (Z.to_nat maxIter)
                (state_at M c.1 c.2 fractalType stripes stripeFrequency z0.1 z0.2 0))
      as (res & Hres & Hit).
    { unfold state_at; simpl; lia. }
    { lia. }
    { unfold state_at; simpl; lia. }
    exists res. split; [|exact Hit].
    intros fuel Hf. rewrite calculateFractal_unfold, P.
    eapply iterate_fuel_mono; [exact Hf|exact Hres].
Qed.

(** An instance: the point [0.3 + 0.5i] with the default cap 128. *)
Lemma calculateFractal_terminates_witness :
  1 <= 128 <= INT_MAX /\
  exists res : ReturnInfo,
    (forall fuel : nat, (128 <= fuel)%nat ->
       calculateFractal sampleLibm fuel 0.3 0.5 (-0.8) 0.156 128 false 0 false 5 false
       = Ok res)
    /\ (iteration res = -1 \/ 0 <= iteration res <= 128).
Proof.
  assert (H : 1 <= 128 <= INT_MAX) by (unfold INT_MAX; lia).
  split; [exact H|].
  exact (calculateFractal_terminates sampleLibm 0.3 0.5 (-0.8) 0.156 128 false 0
           false 5 false H).
Defined.

(** ** The first escape, from its characteristic property *)

Lemma first_escape_Some_iff (z : nat -> complex) (limit n : nat) :
  first_escape z limit = Some n <->
  (n < limit)%nat /\ escaped (z n) = true
  /\ forall k, (k < n)%nat -> escaped (z k) = false.
Proof.
  unfold first_escape. split.
  - intros H. apply first_escape_from_Some in H as (Hn & He & Hb).
    repeat split; [lia|exact He|intros; apply Hb; lia].
  - intros (Hn & He & Hb).
    destruct (first_escape_from z 0 limit) as [m|] eqn:E.
    + apply first_escape_from_Some in E as (Hm & Hem & Hbm).
      destruct (Nat.lt_trichotomy m n) as [L|[->|L]]; [|reflexivity|].
      * rewrite Hb in Hem by lia. discriminate.
      * rewrite Hbm in He by lia. discriminate.
    + rewrite (first_escape_from_None _ _ _ E) in He by lia. discriminate.
Qed.

Lemma first_escape_None_iff (z : nat -> complex) (limit : nat) :
  first_escape z limit = None <->
  forall k, (k < limit)%nat -> escaped (z k) = false.
Proof.
  unfold first_escape. split.
  - intros H k Hk. apply (first_escape_from_None _ _ _ H). lia.
  - intros Hall. destruct (first_escape_from z 0 limit) as [m|] eqn:E; [|reflexivity].
    apply first_escape_from_Some in E as (Hm & Hem & _).
    rewrite Hall in Hem by lia. discriminate.
Qed.

(** C1. [calculateFractal] iterates [z <- f(z) + c]: variant 0 with the
    complex square (real part [zr^2 - zi^2], imaginary part [2 zr zi]), any
    other variant with the same real part and the absolute value of the
    cross term [zr zi] before doubling.  When the early bailout is not
    taken, the loop stops at the first [n < maxIter] for which the test
    [|z_n|^2 < 100^2] fails, which means [|z_n|^2 >= 100^2] unless
    [|z_n|^2] is NaN, and otherwise when the counter reaches [maxIter]; it
    needs exactly that many passes.  An escape at iteration [n] reports [n] and the smoothed
    value [n + 1 - log(log(|z_n|^2)/2)/log(2)] of the point [z_n] that
    escaped. *)
Theorem calculateFractal_escape_time (M : Libm) (fuel : nat) (cr ci jr ji : float)
    (maxIter : Z) (isJulia : bool) (fractalType : Z) (stripes : bool)
    (stripeFrequency : float) (innerCalculation : bool) :
  let c := constant_point isJulia cr ci jr ji in
  let z := spec_orbit fractalType c (start_point isJulia cr ci) in
  1 <= maxIter < INT_MAX ->
  pruned innerCalculation isJulia fractalType cr ci = false ->
  (forall n : nat,
     z (S n) =
       if fractalType =? 0
       then (((z n).1 * (z n).1 - (z n).2 * (z n).2 + c.1)%float,
             (2 * (z n).1 * (z n).2 + c.2)%float)
       else (((z n).1 * (z n).1 - (z n).2 * (z n).2 + c.1)%float,
             (2 * abs ((z n).1 * (z n).2) + c.2)%float))
  /\ (forall n : nat,
        Z.of_nat n < maxIter ->
        escaped (z n) = true ->
        (forall k : nat, (k < n)%nat -> escaped (z k) = false) ->
        calculateFractal M fuel cr ci jr ji maxIter isJulia fractalType stripes
          stripeFrequency innerCalculation =
          if (n <=? fuel)%nat
          then Ok {| iteration := Z.of_nat n;
                     smoothIteration :=
                       Some (of_int (Z.of_nat n + 1)
                             - c_log M (c_log M (norm2 (z n)) / 2) / c_log M 2)%float;
                     stripeSum := Some (spec_stripeSum M stripes stripeFrequency z n) |}
          else OutOfFuel)
  /\ ((forall k : nat, Z.of_nat k < maxIter -> escaped (z k) = false) ->
      calculateFractal M fuel cr ci jr ji maxIter isJulia fractalType stripes
        stripeFrequency innerCalculation =
        if (Z.to_nat maxIter <=? fuel)%nat
        then Ok (if innerCalculation
                 then escape_result M stripes stripeFrequency z (Z.to_nat maxIter)
                 else interior_result)
        else OutOfFuel)
  /\ (forall w : complex,
        (is_nan (norm2 w) = false ->
         (escaped w = true <-> (ESCAPE_RADIUS_SQUARED <=? norm2 w)%float = true))
        /\ (is_nan (norm2 w) = true -> escaped w = true)).
Proof.
  intros c z Hm Hp. split; [|split; [|split]].
  - intros n. subst z. cbn [spec_orbit]. unfold spec_step.
    destruct (fractalType =? 0); reflexivity.
  - intros n Hn He Hb.
    rewrite calculateFractal_run, Hp by assumption.
    fold c. fold z.
    assert (E : first_escape z (Z.to_nat maxIter) = Some n)
      by (apply first_escape_Some_iff; repeat split; [lia|exact He|exact Hb]).
    rewrite E. reflexivity.
  - intros Hall.
    rewrite calculateFractal_run, Hp by assumption.
    fold c. fold z.
    assert (E : first_escape z (Z.to_nat maxIter) = None)
      by (apply first_escape_None_iff; intros; apply Hall; lia).
    rewrite E. reflexivity.
  - intros w. split; intros N.
    + rewrite escaped_iff, N. intuition discriminate.
    + apply escaped_iff. now right.
Qed.

(** An instance: in Mandelbrot mode the point [200 + 0i] escapes at the
    first iteration. *)
Lemma calculateFractal_escape_time_witness :
  (1 <= 128 < INT_MAX
   /\ pruned false false 0 200 0 = false
   /\ escaped (spec_orbit 0 (200, 0)%float (0, 0)%float 1) = true
   /\ escaped (spec_orbit 0 (200, 0)%float (0, 0)%float 0) = false)
  /\ calculateFractal sampleLibm 5 200 0 (-0.8) 0.156 128 false 0 false 5 false =
       Ok {| iteration := 1;
             smoothIteration :=
               Some (2 - c_log sampleLibm (c_log sampleLibm 40000 / 2)
                         / c_log sampleLibm 2)%float;
             stripeSum := Some 0%float |}.
Proof.
  assert (Hm : 1 <= 128 < INT_MAX) by (unfold INT_MAX; lia).
  assert (Hp : pruned false false 0 200 0 = false) by reflexivity.
  assert (H1 : escaped (spec_orbit 0 (200, 0)%float (0, 0)%float 1) = true)
    by reflexivity.
  assert (H0 : escaped (spec_orbit 0 (200, 0)%float (0, 0)%float 0) = false)
    by reflexivity.
  split; [exact (conj Hm (conj Hp (conj H1 H0)))|].
  destruct (calculateFractal_escape_time sampleLibm 5 200 0 (-0.8) 0.156 128 false 0
              false 5 false Hm Hp) as (_ & Hesc & _).
  rewrite (Hesc 1%nat); [reflexivity|lia|exact H1|].
  intros k Hk. replace k with 0%nat by lia. exact H0.
Defined.

(** C5. A sample point whose orbit has not escaped within [maxIterations]
    iterations: with interior colouring disabled the evaluator reports
    "interior" and the sample is black, whatever the palette and the
    colouring settings, and so is the pixel on the single-sample path; with
    interior colouring enabled the evaluator returns the count, smoothed
    value and stripe sum that an escape at iteration [maxIterations]
    reports. *)
Theorem interior_handling (M : Libm) (fuel : nat) (state : RenderState)
    (palette : list Color) (cr ci : float) :
  let maxIter := maxIterations state in
  let z := spec_orbit (fractalType state)
             (constant_point (showJulia state) cr ci (juliaX state) (juliaY state))
             (start_point (showJulia state) cr ci) in
  1 <= maxIter < INT_MAX ->
  (Z.to_nat maxIter <= fuel)%nat ->
  (forall k : nat, Z.of_nat k < maxIter -> escaped (z k) = false) ->
  (innerCalculation state = false ->
     calculateFractal M fuel cr ci (juliaX state) (juliaY state) maxIter
       (showJulia state) (fractalType state) (stripes state) (stripeFrequency state)
       (innerCalculation state) = Ok interior_result
     /\ iteration interior_result = -1
     /\ sampleColor state palette interior_result = Ok (Build_Color 0 0 0)
     /\ colorAt M fuel state palette cr ci = Ok (Build_Color 0 0 0)
     /\ (forall x y width height : Z,
           antiAliasing state = false ->
           singleSampleX state x width = cr ->
           singleSampleY state y height = ci ->
           pixelColor M fuel state palette x y width height = Ok (Build_Color 0 0 0)))
  /\ (innerCalculation state = true ->
      calculateFractal M fuel cr ci (juliaX state) (juliaY state) maxIter
        (showJulia state) (fractalType state) (stripes state) (stripeFrequency state)
        (innerCalculation state) =
        Ok {| iteration := maxIter;
              smoothIteration :=
                Some (of_int (maxIter + 1)
                      - c_log M (c_log M (norm2 (z (Z.to_nat maxIter))) / 2)
                        / c_log M 2)%float;
              stripeSum :=
                Some (spec_stripeSum M (stripes state) (stripeFrequency state) z
                        (Z.to_nat maxIter)) |}).
Proof.
  intros maxIter z Hm Hf Hall.
  assert (E : first_escape z (Z.to_nat maxIter) = None)
    by (apply first_escape_None_iff; intros; apply Hall; lia).
  assert (L : (Z.to_nat maxIter <=? fuel)%nat = true) by (apply Nat.leb_le; exact Hf).
  split; intros Hi.
  - assert (R : calculateFractal M fuel cr ci (juliaX state) (juliaY state) maxIter
       (showJulia state) (fractalType state) (stripes state) (stripeFrequency state)
       (innerCalculation state) = Ok interior_result).
    { rewrite calculateFractal_run by assumption. fold z. rewrite E, L, Hi.
      now destruct (pruned _ _ _ _ _). }
    assert (C : colorAt M fuel state palette cr ci = Ok (Build_Color 0 0 0)).
    { unfold colorAt. fold maxIter. rewrite R. reflexivity. }
    repeat split; [exact R|exact C|].
    intros x y width height Ha <- <-. unfold pixelColor. rewrite Ha. exact C.
  - rewrite calculateFractal_run by assumption. fold z. rewrite E, L, Hi.
    unfold pruned. cbn [negb andb].
    unfold escape_result, spec_smooth. do 3 f_equal; [lia|].
    do 3 f_equal. lia.
Qed.

(** Instances: the point [0 + 0i] in Mandelbrot mode, whose orbit stays at
    the origin, without and with interior colouring. *)
Lemma interior_handling_witness :
  (1 <= 128 < INT_MAX
   /\ (128 <= 128)%nat
   /\ first_escape (spec_orbit 0 (0, 0)%float (0, 0)%float) 128 = None)
  /\ colorAt sampleLibm 128 defaultState [] 0 0 = Ok (Build_Color 0 0 0)
  /\ exists smoothed : float,
       calculateFractal sampleLibm 128 0 0 (-0.8) 0.156 128 false 0 false 5 true =
         Ok {| iteration := 128; smoothIteration := Some smoothed;
               stripeSum := Some 0%float |}.
Proof.
  assert (Hm : 1 <= 128 < INT_MAX) by (unfold INT_MAX; lia).
  assert (Hf : (128 <= 128)%nat) by lia.
  assert (E : first_escape (spec_orbit 0 (0, 0)%float (0, 0)%float) 128 = None)
    by (vm_compute; reflexivity).
  assert (Hall : forall k : nat, Z.of_nat k < 128 ->
            escaped (spec_orbit 0 (0, 0)%float (0, 0)%float k) = false).
  { intros k Hk. apply (proj1 (first_escape_None_iff _ _) E). lia. }
  split; [exact (conj Hm (conj Hf E))|]. split.
  - destruct (interior_handling sampleLibm 128 defaultState [] 0 0 Hm Hf Hall)
      as (Hoff & _).
    destruct (Hoff eq_refl) as (_ & _ & _ & C & _). exact C.
  - destruct (interior_handling sampleLibm 128 innerState [] 0 0 Hm Hf Hall)
      as (_ & Hon).
    eexists. refine (eq_trans (Hon eq_refl) _). reflexivity.
Defined.

(** ** The iteration count that reaches the colouring *)

(** X1. In Mandelbrot mode the loop is entered at the origin, so a reported
    iteration count other than [-1] is at least 1: the stripe branch then
    divides by a positive count. *)
Theorem mandelbrot_iteration_positive (M : Libm) (fuel : nat) (cr ci jr ji : float)
    (maxIter : Z) (fractalType : Z) (stripes : bool) (stripeFrequency : float)
    (innerCalculation : bool) (res : ReturnInfo) :
  1 <= maxIter < INT_MAX ->
  calculateFractal M fuel cr ci jr ji maxIter false fractalType stripes
    stripeFrequency innerCalculation = Ok res ->
  iteration res = -1 \/ 1 <= iteration res.
Proof.
  intros Hm. rewrite calculateFractal_run by assumption.
  destruct (pruned _ _ _ _ _); [intros [= <-]; left; reflexivity|].
  destruct (first_escape _ _) as [n|] eqn:E.
  - apply first_escape_Some_iff in E as (_ & He & _).
    destruct (_ <=? _)%nat; [|discriminate]. intros [= <-]. right.
    cbn [escape_result iteration].
    destruct n; [|lia]. cbn in He. discriminate.
  - destruct (_ <=? _)%nat; [|discriminate]. intros [= <-].
    destruct innerCalculation; [right|left; reflexivity].
    cbn [escape_result iteration]. lia.
Qed.

(** An instance: the point [200 + 0i] escapes at the first iteration. *)
Lemma mandelbrot_iteration_positive_witness :
  (1 <= 128 < INT_MAX
   /\ calculateFractal sampleLibm 128 200 0 (-0.8) 0.156 128 false 0 false 5 false
      = Ok {| iteration := 1;
              smoothIteration := Some (-0.4055342630038421)%float;
              stripeSum := Some 0%float |})
  /\ (1 = -1 \/ 1 <= 1).
Proof.
  assert (Hm : 1 <= 128 < INT_MAX) by (unfold INT_MAX; lia).
  assert (Hr : calculateFractal sampleLibm 128 200 0 (-0.8) 0.156 128 false 0 false 5
                 false
               = Ok {| iteration := 1;
                       smoothIteration := Some (-0.4055342630038421)%float;
                       stripeSum := Some 0%float |})
    by (vm_compute; reflexivity).
  split; [exact (conj Hm Hr)|].
  exact (mandelbrot_iteration_positive sampleLibm 128 200 0 (-0.8) 0.156 128 0 false 5
           false _ Hm Hr).
Defined.

(** The palette of a state always exists and is not empty. *)
Lemma palette_selection (colorScheme : Z) :
  exists palette : list Color,
    PALETTES !! Z.to_nat (to_size_t colorScheme mod Z.of_nat (length PALETTES))
    = Some palette
    /\ (0 < length palette)%nat.
Proof.
  change (Z.of_nat (length PALETTES)) with 2.
  assert (H : 0 <= to_size_t colorScheme mod 2 < 2) by (apply Z.mod_pos_bound; lia).
  destruct (Z.eq_dec (to_size_t colorScheme mod 2) 0) as [->|N].
  - eexists. split; [reflexivity|cbn; lia].
  - replace (to_size_t colorScheme mod 2) with 1 by lia.
    eexists. split; [reflexivity|cbn; lia].
Qed.

(** X2. Palette indexing is taken modulo a sequence that is not empty.
    [renderFractalRegion] finds a palette with at least one entry for every
    [colorScheme] and renders its rows with it.  [colorFor], on a palette
    that is not empty (and whose size fits an [int], as [index] is one) and
    a metric whose conversion to [int] gives [n],
    reads the entry at [i = size_t(n) mod size] and the entry at
    [(i + 1) mod size]; both exist, and the colour is their interpolation
    at the fraction [metric - floor(metric)]: no read goes outside the
    palette. *)
Theorem palette_index_in_range (M : Libm) (fuel : nat) (pixels : list Z)
    (state : RenderState) (startY endY width height : Z) :
  (exists palette : list Color,
     PALETTES !! Z.to_nat (to_size_t (colorScheme state) mod 2) = Some palette
     /\ (0 < length palette)%nat
     /\ renderFractalRegion M fuel pixels state startY endY width height
        = foldM (renderRow M fuel state palette width height)
            (seqZ startY (endY - startY)) pixels)
  /\ (forall (palette : list Color) (metric : float) (n : Z),
        (0 < length palette)%nat -> Z.of_nat (length palette) <= INT_MAX ->
        double_to_int metric = Ok n ->
        let size := Z.of_nat (length palette) in
        let i := to_size_t n mod size in
        0 <= i < size
        /\ 0 <= (i + 1) mod size < size
        /\ exists c1 c2 : Color,
             palette !! Z.to_nat i = Some c1
             /\ palette !! Z.to_nat ((i + 1) mod size) = Some c2
             /\ colorFor palette metric
                = interpolateColors c1 c2 (subf metric (floor metric))).
Proof.
  split.
  - destruct (palette_selection (colorScheme state)) as (palette & Hp & Hlen).
    exists palette. split; [exact Hp|]. split; [exact Hlen|].
    unfold renderFractalRegion. rewrite Hp. reflexivity.
  - intros palette metric n Hlen Hmax Hn size i.
    assert (Hs : 0 < size) by (unfold size; lia).
    assert (Hi : 0 <= i < size) by (apply Z.mod_pos_bound; lia).
    assert (Hj : 0 <= (i + 1) mod size < size) by (apply Z.mod_pos_bound; lia).
    split; [exact Hi|]. split; [exact Hj|].
    destruct (lookup_lt_is_Some_2 palette (Z.to_nat i)) as [c1 E1];
      [unfold size in *; lia|].
    destruct (lookup_lt_is_Some_2 palette (Z.to_nat ((i + 1) mod size))) as [c2 E2];
      [unfold size in *; lia|].
    exists c1, c2. split; [exact E1|]. split; [exact E2|].
    unfold colorFor. rewrite Hn. cbn [mbind outcome_bind].
    fold size. destruct (Z.eqb_spec size 0) as [|_]; [lia|].
    fold i. rewrite E1. cbn [read mbind outcome_bind].
    assert (W : to_size_t (i + 1) = i + 1).
    { unfold to_size_t. apply Z.mod_small.
      unfold size, INT_MAX in *. lia. }
    rewrite W, E2. reflexivity.
Qed.

(** An instance: the metric [-20.5] on the first palette; its truncation
    [-20] becomes [2^64 - 20] as a [size_t], whose remainder by 15 is 11, so
    the entries 11 and 12 are read. *)
Lemma palette_index_in_range_witness :
  ((0 < length palette0)%nat /\ Z.of_nat (length palette0) <= INT_MAX
   /\ double_to_int (-20.5) = Ok (-20))
  /\ to_size_t (-20) mod 15 = 11
  /\ colorFor palette0 (-20.5)
     = interpolateColors (Build_Color 248 201 95) (Build_Color 255 170 0)
         (subf (-20.5) (floor (-20.5))).
Proof.
  assert (H1 : (0 < length palette0)%nat) by (cbn; lia).
  assert (H2 : double_to_int (-20.5) = Ok (-20)) by reflexivity.
  assert (H3 : Z.of_nat (length palette0) <= INT_MAX) by (cbn; unfold INT_MAX; lia).
  split; [exact (conj H1 (conj H3 H2))|]. split; [reflexivity|].
  destruct (palette_index_in_range sampleLibm 0 [] defaultState 0 0 0 0) as (_ & H).
  destruct (H palette0 (-20.5)%float (-20) H1 H3 H2)
    as (_ & _ & c1 & c2 & E1 & E2 & E).
  rewrite E. vm_compute in E1, E2.
  injection E1 as <-. injection E2 as <-. reflexivity.
Defined.

(** C3, at the input that breaks it.  In Julia mode with stripe colouring, a
    sample point that lies outside the escape radius leaves the loop before
    its first pass: the evaluator reports the iteration count 0, the stripe
    branch divides the stripe sum by it, the quotient [0/0] is NaN, and the
    conversion of the NaN metric to an index is undefined.  Pixel (0, 0) of
    the view centred at [200 + 0i] is such a sample. *)
Theorem julia_far_sample_divides_by_zero (M : Libm) (fuel : nat)
    (palette : list Color) :
  let state := juliaStripesFar in
  let cr := singleSampleX state 0 WINDOW_WIDTH in
  let ci := singleSampleY state 0 WINDOW_HEIGHT in
  exists info : ReturnInfo,
    calculateFractal M fuel cr ci (juliaX state) (juliaY state) (maxIterations state)
      (showJulia state) (fractalType state) (stripes state) (stripeFrequency state)
      (innerCalculation state) = Ok info
    /\ iteration info = 0
    /\ stripeSum info = Some 0%float
    /\ (0 / of_int (iteration info))%float = nan
    /\ sampleMetric state info = Ok nan
    /\ pixelColor M fuel state palette 0 0 WINDOW_WIDTH WINDOW_HEIGHT = Undefined.
Proof.
  intros state cr ci. eexists. split.
  - destruct fuel; reflexivity.
  - repeat split. unfold pixelColor, colorAt. cbn [antiAliasing state juliaStripesFar].
    destruct fuel; reflexivity.
Qed.

(** ** Truncation and floor *)

Lemma double_to_int_Ok (x : float) (n : Z) :
  double_to_int x = Ok n <-> truncZ x = Some n /\ INT_MIN <= n <= INT_MAX.
Proof.
  unfold double_to_int. destruct (truncZ x) as [z|].
  - destruct ((INT_MIN <=? z) && (z <=? INT_MAX)) eqn:E.
    + apply andb_true_iff in E as [A B]. apply Z.leb_le in A, B.
      split; [intros [= <-]; auto|intros [[= <-] _]; reflexivity].
    + split; [discriminate|]. intros [[= <-] [A B]].
      apply Z.leb_le in A, B. rewrite A, B in E. discriminate.
  - split; [discriminate|intros [? _]; discriminate].
Qed.

(** On a metric that is not negative, truncation is the floor. *)
Lemma truncZ_floorZ_nonneg (x : float) :
  (0 <=? x)%float = true -> truncZ x = floorZ x.
Proof.
  rewrite FloatAxioms.leb_spec. change (Prim2SF 0) with (S754_zero false).
  unfold truncZ, floorZ, SFleb.
  destruct (Prim2SF x) as [s|s| |s m e]; try reflexivity.
  destruct s; [discriminate|reflexivity].
Qed.

Lemma truncZ_nonneg (x : float) (n : Z) :
  (0 <=? x)%float = true -> truncZ x = Some n -> 0 <= n.
Proof.
  rewrite FloatAxioms.leb_spec. change (Prim2SF 0) with (S754_zero false).
  unfold truncZ, SFleb.
  destruct (Prim2SF x) as [s|s| |s m e]; try discriminate.
  - intros _ [= <-]. lia.
  - destruct s; [discriminate|]. intros _ [= <-]. cbn [cond_Zopp].
    apply Z.shiftl_nonneg. lia.
Qed.

(** ** Colour mapping *)

(** The palette entries the code reads for a truncated metric [n >= 0] are
    the entries at [n mod size] and its cyclic successor. *)
Lemma palette_index_nonneg (n size : Z) :
  0 <= n <= INT_MAX -> 0 < size ->
  to_size_t n mod size = n mod size
  /\ to_size_t (n mod size + 1) mod size = (n mod size + 1) mod size.
Proof.
  unfold INT_MAX, to_size_t. intros Hn Hs.
  assert (0 <= n mod size < size) by (apply Z.mod_pos_bound; lia).
  assert (n mod size <= n) by (apply Z.mod_le; lia).
  rewrite (Z.mod_small n) by lia.
  rewrite (Z.mod_small (n mod size + 1)) by lia. auto.
Qed.

(** X3. On metrics that are not negative and fit an [int], the code maps
    colours as the design says: index [floor(metric) mod paletteSize],
    fraction [metric - floor(metric)]. *)
Theorem colorFor_nonneg (palette : list Color) (metric : float) (n : Z) :
  (0 <=? metric)%float = true ->
  double_to_int metric = Ok n ->
  colorFor palette metric = spec_colorFor palette metric.
Proof.
  intros Hpos Hn. unfold colorFor, spec_colorFor. rewrite Hn.
  apply double_to_int_Ok in Hn as [Ht Hr].
  assert (0 <= n) by (eapply truncZ_nonneg; eassumption).
  rewrite <- (truncZ_floorZ_nonneg _ Hpos), Ht. cbn [read mbind outcome_bind].
  destruct (Z.eqb_spec (Z.of_nat (length palette)) 0) as [|Hs]; [reflexivity|].
  destruct (palette_index_nonneg n (Z.of_nat (length palette))) as [-> ->];
    [lia|lia|reflexivity].
Qed.

(** An instance: the metric [14.5]. *)
Lemma colorFor_nonneg_witness :
  ((0 <=? 14.5)%float = true /\ double_to_int 14.5 = Ok 14)
  /\ colorFor palette0 14.5 = spec_colorFor palette0 14.5.
Proof.
  assert (H1 : (0 <=? 14.5)%float = true) by reflexivity.
  assert (H2 : double_to_int 14.5 = Ok 14) by reflexivity.
  split; [exact (conj H1 H2)|].
  exact (colorFor_nonneg palette0 14.5 14 H1 H2).
Defined.

(** X4. The colour depends on the metric only through its truncation
    modulo the palette size and through its fractional part: two metrics
    that are not negative, whose truncations differ by a multiple of the
    palette size and whose fractional parts agree, get the same colour. *)
Theorem colorFor_cyclic_nonneg (palette : list Color) (m1 m2 : float) (n1 n2 k : Z) :
  double_to_int m1 = Ok n1 -> double_to_int m2 = Ok n2 ->
  0 <= n1 -> 0 <= n2 ->
  n2 = n1 + k * Z.of_nat (length palette) ->
  subf m2 (floor m2) = subf m1 (floor m1) ->
  colorFor palette m2 = colorFor palette m1.
Proof.
  intros H1 H2 P1 P2 Hk Hf. unfold colorFor. rewrite H1, H2, Hf.
  apply double_to_int_Ok in H1 as [_ R1], H2 as [_ R2].
  cbn [mbind outcome_bind].
  destruct (Z.eqb_spec (Z.of_nat (length palette)) 0) as [|Hs]; [reflexivity|].
  destruct (palette_index_nonneg n1 (Z.of_nat (length palette))) as [-> ->]; [lia|lia|].
  destruct (palette_index_nonneg n2 (Z.of_nat (length palette))) as [-> ->]; [lia|lia|].
  rewrite Hk, Z.mod_add by lia. reflexivity.
Qed.

(** An instance: the metrics [0.5] and [15.5] on the 15-entry palette. *)
Lemma colorFor_cyclic_nonneg_witness :
  (double_to_int 0.5 = Ok 0 /\ double_to_int 15.5 = Ok 15
   /\ 0 <= 0 /\ 0 <= 15 /\ 15 = 0 + 1 * Z.of_nat (length palette0)
   /\ subf 15.5 (floor 15.5) = subf 0.5 (floor 0.5))
  /\ colorFor palette0 15.5 = colorFor palette0 0.5.
Proof.
  assert (H1 : double_to_int 0.5 = Ok 0) by reflexivity.
  assert (H2 : double_to_int 15.5 = Ok 15) by reflexivity.
  assert (P1 : 0 <= 0) by lia.
  assert (P2 : 0 <= 15) by lia.
  assert (Hk : 15 = 0 + 1 * Z.of_nat (length palette0)) by reflexivity.
  assert (Hf : subf 15.5 (floor 15.5) = subf 0.5 (floor 0.5)) by reflexivity.
  split; [exact (conj H1 (conj H2 (conj P1 (conj P2 (conj Hk Hf)))))|].
  exact (colorFor_cyclic_nonneg palette0 0.5 15.5 0 15 1 H1 H2 P1 P2 Hk Hf).
Defined.

(** C4, at the input that breaks it.  The metric [-0.5] has floor [-1] and
    fraction [0.5]: the design interpolates between the last and the first
    entry of the palette.  The code takes the index from the truncation
    [0] and the fraction from the floor, and interpolates between the first
    and the second entry.  Negative metrics are met as soon as the view
    leaves the disc of radius 100: with the sample library, pixel (0, 0) of
    the default state moved to the centre [200 + 0i] escapes at the first
    iteration with a negative smoothed value, and its colour is not the
    colour of the design. *)
Theorem colorFor_negative_metric :
  floorZ (-0.5) = Some (-1)
  /\ subf (-0.5) (floor (-0.5)) = 0.5%float
  /\ double_to_int (-0.5) = Ok 0
  /\ spec_colorFor palette0 (-0.5) = interpolateColors (Build_Color 153 87 0)
                                       (Build_Color 66 30 15) 0.5
  /\ colorFor palette0 (-0.5) = interpolateColors (Build_Color 66 30 15)
                                  (Build_Color 25 7 26) 0.5
  /\ spec_colorFor palette0 (-0.5) = Ok (Build_Color 109 58 7)
  /\ colorFor palette0 (-0.5) = Ok (Build_Color 45 18 20)
  /\ exists (info : ReturnInfo) (metric : float),
       calculateFractal sampleLibm 128
         (singleSampleX mandelbrotFar 0 WINDOW_WIDTH)
         (singleSampleY mandelbrotFar 0 WINDOW_HEIGHT)
         (juliaX mandelbrotFar) (juliaY mandelbrotFar) (maxIterations mandelbrotFar)
         (showJulia mandelbrotFar) (fractalType mandelbrotFar) (stripes mandelbrotFar)
         (stripeFrequency mandelbrotFar) (innerCalculation mandelbrotFar) = Ok info
       /\ iteration info = 1
       /\ sampleMetric mandelbrotFar info = Ok metric
       /\ (metric <? 0)%float = true
       /\ pixelColor sampleLibm 128 mandelbrotFar palette0 0 0 WINDOW_WIDTH WINDOW_HEIGHT
          = colorFor palette0 metric
       /\ colorFor palette0 metric <> spec_colorFor palette0 metric.
Proof.
  repeat split.
  do 2 eexists. split; [vm_compute; reflexivity|].
  repeat split. vm_compute. discriminate.
Qed.

(** C9, at the input that breaks it.  With the 15-entry palette and [k = 1]
    the metrics [-0.5] and [-0.5 + 15 = 14.5] (an exact sum) get different
    colours: the first is mapped with index 0, the second with index 14. *)
Theorem colorFor_not_cyclic_negative :
  Z.of_nat (length palette0) = 15
  /\ addf (-0.5) (of_int (1 * 15)) = 14.5%float
  /\ colorFor palette0 14.5 = Ok (Build_Color 109 58 7)
  /\ colorFor palette0 (-0.5) = Ok (Build_Color 45 18 20)
  /\ colorFor palette0 (addf (-0.5) (of_int (1 * 15))) <> colorFor palette0 (-0.5).
Proof. repeat split. vm_compute. discriminate. Qed.

(** ** Colour channels are bytes *)

Lemma double_to_uint8_range (x : float) (n : Z) :
  double_to_uint8 x = Ok n -> 0 <= n <= 255.
Proof.
  unfold double_to_uint8. destruct (truncZ x) as [z|]; [|discriminate].
  destruct ((0 <=? z) && (z <=? 255)) eqn:E; [|discriminate].
  apply andb_true_iff in E as [A B]. apply Z.leb_le in A, B.
  intros [= <-]. lia.
Qed.

Lemma interpolateColors_range (c1 c2 c : Color) (factor : float) :
  interpolateColors c1 c2 factor = Ok c -> byte_color c.
Proof.
  unfold interpolateColors.
  destruct (double_to_uint8 (of_int (r c1) + _)) as [r'| |] eqn:R; try discriminate.
  cbn [mbind outcome_bind].
  destruct (double_to_uint8 (of_int (g c1) + _)) as [g'| |] eqn:G; try discriminate.
  cbn [mbind outcome_bind].
  destruct (double_to_uint8 (of_int (b c1) + _)) as [b'| |] eqn:B; try discriminate.
  intros [= <-]. unfold byte_color. cbn [r g b].
  apply double_to_uint8_range in R, G, B. auto.
Qed.

Lemma colorFor_range (palette : list Color) (iterations : float) (c : Color) :
  colorFor palette iterations = Ok c -> byte_color c.
Proof.
  unfold colorFor. destruct (double_to_int iterations) as [n| |]; try discriminate.
  cbn [mbind outcome_bind]. destruct (_ =? 0); [discriminate|].
  repeat match goal with
         | |- context [read ?o] =>
             destruct (read o) as [?| |]; cbn [mbind outcome_bind]; try discriminate
         end.
  apply interpolateColors_range.
Qed.

Lemma sampleColor_range (state : RenderState) (palette : list Color)
    (info : ReturnInfo) (c : Color) :
  sampleColor state palette info = Ok c -> byte_color c.
Proof.
  unfold sampleColor. destruct (iteration info =? -1).
  - intros [= <-]. unfold byte_color. cbn. lia.
  - destruct (sampleMetric state info); try discriminate.
    apply colorFor_range.
Qed.

Lemma colorAt_range (M : Libm) (fuel : nat) (state : RenderState)
    (palette : list Color) (cr ci : float) (c : Color) :
  colorAt M fuel state palette cr ci = Ok c -> byte_color c.
Proof.
  unfold colorAt. destruct (calculateFractal _ _ _ _ _ _ _ _ _ _ _ _); try discriminate.
  apply sampleColor_range.
Qed.

(** The truncated mean of a single sample is the sample. *)
Lemma averageColors_single (c : Color) :
  byte_color c -> averageColors [c] = Ok c.
Proof.
  intros (Hr & Hg & Hb). unfold averageColors, to_uint8. cbn.
  rewrite !Z.quot_1_r, !Z.mod_small by lia. now destruct c.
Qed.

(** C2, amended.  The single-sample path maps pixel [(x, y)] to
    [viewportX - viewportWidth/2 + x * (viewportWidth/width)] (and likewise
    for [y]): it samples the corner of the pixel, offset 0.  The sub-sample
    offsets of the supersampler are [(k + 0.5)/S]; with a 1 x 1 grid it
    evaluates the one sample at offset 0.5, the centre of the pixel, and
    returns the colour the single-sample colouring gives at that point. *)
Theorem single_sample_is_corner (M : Libm) (fuel : nat) (state : RenderState)
    (palette : list Color) (x y width height : Z) :
  singleSampleX state x width =
    (viewportX state - getViewportWidth state / 2
     + of_int x * (getViewportWidth state / of_int width))%float
  /\ singleSampleY state y height =
       (viewportY state - viewportHeight state / 2
        + of_int y * (viewportHeight state / of_int height))%float
  /\ pixelColor M fuel state palette x y width height =
       (if antiAliasing state
        then calculateAntiAliasedColor M fuel x y state width height palette
        else colorAt M fuel state palette (singleSampleX state x width)
               (singleSampleY state y height))
  /\ antiAliasedColorWith M fuel 1 x y state width height palette =
       colorAt M fuel state palette
         (spec_pixelToWorld (viewportX state) (getViewportWidth state) x 0.5 width)
         (spec_pixelToWorld (viewportY state) (viewportHeight state) y 0.5 height).
Proof.
  repeat split.
  unfold antiAliasedColorWith, subSampleColor, spec_pixelToWorld.
  change (seqZ 0 1) with [0]. cbn [forM].
  change ((of_int 0 + 0.5) / of_int 1)%float with 0.5%float.
  destruct (colorAt _ _ _ _ _ _) as [c| |] eqn:E; try reflexivity.
  cbn [mbind outcome_bind mret outcome_ret concat app].
  apply averageColors_single. eapply colorAt_range. exact E.
Qed.

(** C2 as stated fails: at pixel 0 of the default view the single-sample
    path evaluates the left edge of the view, not the point half a pixel
    further. *)
Lemma single_sample_not_centered :
  singleSampleX defaultState 0 WINDOW_WIDTH
  <> spec_pixelToWorld (viewportX defaultState) (getViewportWidth defaultState)
       0 0.5 WINDOW_WIDTH.
Proof.
  intros H. apply (f_equal (fun v => (v =? singleSampleX defaultState 0 WINDOW_WIDTH)%float)) in H.
  vm_compute in H. discriminate.
Qed.

(** ** The value of a finite double against an integer bound *)

Lemma digits2_pos_bounds (m : positive) :
  2 ^ Zpos (digits2_pos m) <= 2 * Zpos m < 2 * 2 ^ Zpos (digits2_pos m).
Proof.
  induction m as [p IH|p IH|]; cbn [digits2_pos].
  - rewrite Pos2Z.inj_succ, Z.pow_succ_r by lia. lia.
  - rewrite Pos2Z.inj_succ, Z.pow_succ_r by lia. lia.
  - cbn. lia.
Qed.

Lemma shiftl_negative (a e : Z) : e < 0 -> Z.shiftl a e = a / 2 ^ (- e).
Proof.
  intros He. rewrite <- (Z.opp_involutive e) at 1.
  now rewrite Z.shiftl_opp_r, Z.shiftr_div_pow2 by lia.
Qed.

(** A valid binary64 mantissa has at most 53 digits, and exactly 53 above
    the smallest exponent. *)
Lemma valid_binary_mantissa (s : bool) (m : positive) (e : Z) :
  valid_binary (S754_finite s m e) = true ->
  Zpos m < 2 ^ 53 /\ (-1074 < e -> 2 ^ 52 <= Zpos m).
Proof.
  cbn [SpecFloat.valid_binary]. unfold bounded, canonical_mantissa, fexp, SpecFloat.emin.
  intros H. apply andb_true_iff in H as [H _]. apply Z.eqb_eq in H.
  change (3 - emax - prec) with (-1074) in H. change prec with 53 in H.
  assert (B := digits2_pos_bounds m).
  set (d := Zpos (digits2_pos m)) in *.
  assert (Hd : d <= 53) by lia.
  split.
  - assert (2 ^ d <= 2 ^ 53) by (apply Z.pow_le_mono_r; lia). lia.
  - intros He. assert (d = 53) as -> by lia.
    change (2 ^ 53) with (2 * 2 ^ 52) in B. lia.
Qed.

(** The truncation of a finite double [v], compared with a positive
    integer [K] the way the doubles [v] and [K] compare. *)
Lemma SFcompare_int_bound (s : bool) (m mK : positive) (e eK K : Z) :
  valid_binary (S754_finite s m e) = true ->
  -1074 < eK < 0 -> Zpos mK = K * 2 ^ (- eK) -> 2 ^ 52 <= Zpos mK < 2 ^ 53 ->
  let n := cond_Zopp s (Z.shiftl (Zpos m) e) in
  match SFcompare (S754_finite s m e) (S754_finite false mK eK) with
  | Some Lt => n < K
  | Some Eq => n = K
  | Some Gt => K <= n
  | None => False
  end.
Proof.
  intros Hv HeK HmK HK n.
  apply valid_binary_mantissa in Hv as [Hm Hnorm].
  assert (P : 0 < 2 ^ (- eK)) by (apply Z.pow_pos_nonneg; lia).
  assert (HKpos : 0 < K) by nia.
  assert (Hsh : 0 <= Z.shiftl (Zpos m) e) by (apply Z.shiftl_nonneg; lia).
  cbn [SFcompare]. destruct s; subst n; cbn [cond_Zopp]; [lia|].
  destruct (Z.compare_spec e eK) as [->|L|G].
  - (* same exponent: the mantissas decide *)
    rewrite shiftl_negative by lia.
    change (Pos.compare_cont Eq m mK) with (Pos.compare m mK).
    destruct (Pos.compare_spec m mK) as [->|L|G].
    + rewrite HmK. now rewrite Z.div_mul by lia.
    + apply Z.div_lt_upper_bound; lia.
    + apply Z.div_le_lower_bound; lia.
  - (* smaller exponent: the value is below 2^53 * 2^(eK - 1) <= K *)
    rewrite shiftl_negative by lia.
    assert (Q : 0 < 2 ^ (- e)) by (apply Z.pow_pos_nonneg; lia).
    apply Z.div_lt_upper_bound; [exact Q|].
    replace (- e) with (- eK + (- e + eK)) by lia.
    rewrite Z.pow_add_r by lia.
    assert (2 ^ 1 <= 2 ^ (- e + eK)) by (apply Z.pow_le_mono_r; lia).
    change (2 ^ 1) with 2 in *. nia.
  - (* larger exponent: the value is at least 2^52 * 2^(eK + 1) > K *)
    specialize (Hnorm ltac:(lia)).
    destruct (Z_lt_le_dec e 0) as [Neg|Pos].
    + rewrite shiftl_negative by lia.
      assert (Q : 0 < 2 ^ (- e)) by (apply Z.pow_pos_nonneg; lia).
      apply Z.div_le_lower_bound; [exact Q|].
      replace (- eK) with (- e + (- eK + e)) in HmK by lia.
      rewrite Z.pow_add_r in HmK by lia.
      assert (2 ^ 1 <= 2 ^ (- eK + e)) by (apply Z.pow_le_mono_r; lia).
      change (2 ^ 1) with 2 in *. nia.
    + rewrite Z.shiftl_mul_pow2 by lia.
      assert (Q : 0 < 2 ^ e) by (apply Z.pow_pos_nonneg; lia).
      assert (2 ^ 1 <= 2 ^ (- eK)) by (apply Z.pow_le_mono_r; lia).
      change (2 ^ 1) with 2 in *. nia.
Qed.

Lemma truncZ_bound (v Kf : float) (mK : positive) (eK K n : Z) :
  Prim2SF Kf = S754_finite false mK eK ->
  -1074 < eK < 0 -> Zpos mK = K * 2 ^ (- eK) -> 2 ^ 52 <= Zpos mK < 2 ^ 53 ->
  truncZ v = Some n ->
  ((v <? Kf)%float = true -> n < K)
  /\ ((v <? Kf)%float = false -> K <= n)
  /\ ((Kf <? v)%float = true -> K <= n)
  /\ ((Kf <? v)%float = false -> n <= K).
Proof.
  intros HK HeK HmK Hr Hn.
  rewrite !FloatAxioms.ltb_spec, HK. unfold SFltb.
  rewrite (SFcompare_antisym (Prim2SF v) (S754_finite false mK eK)).
  assert (Hv := Prim2SF_valid v).
  unfold truncZ in Hn.
  assert (HKpos : 0 < K).
  { assert (0 < 2 ^ (- eK)) by (apply Z.pow_pos_nonneg; lia). nia. }
  destruct (Prim2SF v) as [sv|sv| |sv mv ev]; try discriminate.
  - injection Hn as <-. cbn. repeat split; try discriminate; lia.
  - injection Hn as <-.
    assert (C := SFcompare_int_bound sv mv mK ev eK K Hv HeK HmK Hr).
    cbv zeta in C.
    destruct (SFcompare (S754_finite sv mv ev) (S754_finite false mK eK)) as [[]|];
      cbn [option_map CompOpp]; repeat split; try discriminate; try lia.
Qed.

(** Clamping a double to [100, 10000] and truncating it is truncating it
    and clamping the integer. *)
Lemma clamp_then_truncate (v : float) (n : Z) :
  double_to_int v = Ok n ->
  double_to_int (spec_clamp v 100 10000) = Ok (Z.max 100 (Z.min 10000 n)).
Proof.
  intros Hn. assert (Ht := Hn). apply double_to_int_Ok in Ht as [Ht _].
  destruct (truncZ_bound v 100 7036874417766400 (-46) 100 n) as (A1 & A2 & _);
    [reflexivity|lia|reflexivity|lia|exact Ht|].
  destruct (truncZ_bound v 10000 5497558138880000 (-39) 10000 n) as (_ & _ & B1 & B2);
    [reflexivity|lia|reflexivity|lia|exact Ht|].
  unfold spec_clamp.
  destruct (v <? 100)%float.
  - specialize (A1 eq_refl). replace (Z.max 100 (Z.min 10000 n)) with 100 by lia.
    reflexivity.
  - specialize (A2 eq_refl). destruct (10000 <? v)%float.
    + specialize (B1 eq_refl). replace (Z.max 100 (Z.min 10000 n)) with 10000 by lia.
      reflexivity.
    + specialize (B2 eq_refl). replace (Z.max 100 (Z.min 10000 n)) with n by lia.
      exact Hn.
Qed.

(** ** [adjustIterations] *)

Lemma set_maxIterations_twice (n k : Z) (state : RenderState) :
  set_maxIterations n (set_maxIterations k state) = set_maxIterations n state.
Proof. reflexivity. Qed.

Lemma adjustIterations_auto (M : Libm) (state : RenderState) (n : Z) :
  autoIterations state = true ->
  double_to_int (100 * c_log10 M (1 + 3.0 / viewportHeight state))%float = Ok n ->
  adjustIterations M state = Ok (set_maxIterations (Z.max 100 (Z.min 10000 n)) state).
Proof.
  intros Ha Hn. unfold adjustIterations. rewrite Ha, Hn. reflexivity.
Qed.

(** Every field of an adjusted state: the iteration cap is the new one, the
    fifteen other fields are those of the state before. *)
Lemma set_maxIterations_fields (n : Z) (state : RenderState) :
  maxIterations (set_maxIterations n state) = n
  /\ viewportX (set_maxIterations n state) = viewportX state
  /\ viewportY (set_maxIterations n state) = viewportY state
  /\ viewportHeight (set_maxIterations n state) = viewportHeight state
  /\ colorDensity (set_maxIterations n state) = colorDensity state
  /\ showJulia (set_maxIterations n state) = showJulia state
  /\ juliaX (set_maxIterations n state) = juliaX state
  /\ juliaY (set_maxIterations n state) = juliaY state
  /\ colorScheme (set_maxIterations n state) = colorScheme state
  /\ autoIterations (set_maxIterations n state) = autoIterations state
  /\ fractalType (set_maxIterations n state) = fractalType state
  /\ stripes (set_maxIterations n state) = stripes state
  /\ stripeFrequency (set_maxIterations n state) = stripeFrequency state
  /\ stripeIntensity (set_maxIterations n state) = stripeIntensity state
  /\ innerCalculation (set_maxIterations n state) = innerCalculation state
  /\ antiAliasing (set_maxIterations n state) = antiAliasing state.
Proof. repeat split. Qed.

(** C7. [adjustIterations] leaves the state as it is when [autoIterations]
    is off.  When it is on and the conversion to [int] is defined, the
    state it returns has [maxIterations] equal to the truncation of
    [100 * log10(1 + 3.0/viewportHeight)] clamped to [100, 10000], which is
    the truncation of the value clamped to [100, 10000], and every other
    field as before.  With a [log10] that is accurate to two units in the
    last place, the view height 3.0 gives [maxIterations = 100] (the value
    30 is raised to the minimum) and the view height 3e-10 gives
    [maxIterations = 1000].  When the conversion to [int] is undefined
    (the product is NaN, infinite or outside the range of [int]) so is
    the call. *)
Theorem adjustIterations_spec (M : Libm) (state : RenderState) :
  (autoIterations state = false -> adjustIterations M state = Ok state)
  /\ (autoIterations state = true ->
      forall n : Z,
        double_to_int (100 * c_log10 M (1 + 3.0 / viewportHeight state))%float = Ok n ->
        exists state' : RenderState,
          adjustIterations M state = Ok state'
          /\ maxIterations state' = Z.max 100 (Z.min 10000 n)
          /\ double_to_int
               (spec_clamp (100 * c_log10 M (1 + 3.0 / viewportHeight state)) 100 10000)%float
             = Ok (maxIterations state')
          /\ 100 <= maxIterations state' <= 10000
          /\ viewportX state' = viewportX state
          /\ viewportY state' = viewportY state
          /\ viewportHeight state' = viewportHeight state
          /\ colorDensity state' = colorDensity state
          /\ showJulia state' = showJulia state
          /\ juliaX state' = juliaX state
          /\ juliaY state' = juliaY state
          /\ colorScheme state' = colorScheme state
          /\ autoIterations state' = autoIterations state
          /\ fractalType state' = fractalType state
          /\ stripes state' = stripes state
          /\ stripeFrequency state' = stripeFrequency state
          /\ stripeIntensity state' = stripeIntensity state
          /\ innerCalculation state' = innerCalculation state
          /\ antiAliasing state' = antiAliasing state
          /\ state' = set_maxIterations (Z.max 100 (Z.min 10000 n)) state)
  /\ (autoIterations state = true ->
      viewportHeight state = 3.0%float ->
      within_ulps 2 (c_log10 M 2) 0x1.34413509f79ffp-2 ->
      exists state' : RenderState,
        adjustIterations M state = Ok state'
        /\ maxIterations state' = 100
        /\ state' = set_maxIterations 100 state)
  /\ (autoIterations state = true ->
      viewportHeight state = 3e-10%float ->
      within_ulps 2 (c_log10 M 10000000001) 0x1.4000000005f81p+3 ->
      exists state' : RenderState,
        adjustIterations M state = Ok state'
        /\ maxIterations state' = 1000
        /\ state' = set_maxIterations 1000 state)
  /\ (autoIterations state = true ->
      double_to_int (100 * c_log10 M (1 + 3.0 / viewportHeight state))%float = Undefined ->
      adjustIterations M state = Undefined).
Proof.
  split; [|split; [|split; [|split]]]; cycle 4.
  { intros Ha Hn. unfold adjustIterations. now rewrite Ha, Hn. }
  - intros Ha. unfold adjustIterations. now rewrite Ha.
  - intros Ha n Hn. exists (set_maxIterations (Z.max 100 (Z.min 10000 n)) state).
    destruct (set_maxIterations_fields (Z.max 100 (Z.min 10000 n)) state)
      as (F0 & F1 & F2 & F3 & F4 & F5 & F6 & F7 & F8 & F9 & F10 & F11 & F12 & F13
          & F14 & F15).
    split; [now apply adjustIterations_auto|]. split; [exact F0|].
    split; [rewrite F0; now apply clamp_then_truncate|].
    split; [rewrite F0; lia|].
    exact (conj F1 (conj F2 (conj F3 (conj F4 (conj F5 (conj F6 (conj F7 (conj F8
             (conj F9 (conj F10 (conj F11 (conj F12 (conj F13 (conj F14
             (conj F15 eq_refl))))))))))))))).
  - intros Ha Hv Hl. exists (set_maxIterations 100 state).
    split; [|split; [apply set_maxIterations_fields|reflexivity]].
    rewrite (adjustIterations_auto M state 30 Ha); [reflexivity|].
    rewrite Hv. change (1 + 3.0 / 3.0)%float with 2%float.
    unfold within_ulps in Hl. cbn [float_steps app] in Hl.
    repeat (apply elem_of_cons in Hl as [->|Hl]; [vm_compute; reflexivity|]).
    now apply elem_of_nil in Hl.
  - intros Ha Hv Hl. exists (set_maxIterations 1000 state).
    split; [|split; [apply set_maxIterations_fields|reflexivity]].
    rewrite (adjustIterations_auto M state 1000 Ha); [reflexivity|].
    rewrite Hv. change (1 + 3.0 / 3e-10)%float with 10000000001%float.
    unfold within_ulps in Hl. cbn [float_steps app] in Hl.
    repeat (apply elem_of_cons in Hl as [->|Hl]; [vm_compute; reflexivity|]).
    now apply elem_of_nil in Hl.
Qed.

(** Instances: the default state (view height 3.0, cap 128 before) and the
    state at view height 3e-10, with the sample library. *)
Lemma adjustIterations_spec_witness :
  (autoIterations defaultState = true
   /\ viewportHeight defaultState = 3.0%float
   /\ within_ulps 2 (c_log10 sampleLibm 2) 0x1.34413509f79ffp-2
   /\ viewportHeight deepZoomState = 3e-10%float
   /\ within_ulps 2 (c_log10 sampleLibm 10000000001) 0x1.4000000005f81p+3)
  /\ (exists state' : RenderState,
        adjustIterations sampleLibm defaultState = Ok state'
        /\ maxIterations state' = 100
        /\ state' = set_maxIterations 100 defaultState)
  /\ (exists state' : RenderState,
        adjustIterations sampleLibm deepZoomState = Ok state'
        /\ maxIterations state' = 1000
        /\ state' = set_maxIterations 1000 deepZoomState).
Proof.
  assert (Ha : autoIterations defaultState = true) by reflexivity.
  assert (Hv : viewportHeight defaultState = 3.0%float) by reflexivity.
  assert (Hl : within_ulps 2 (c_log10 sampleLibm 2) 0x1.34413509f79ffp-2)
    by (vm_compute; repeat first [apply list_elem_of_here | apply list_elem_of_further]).
  assert (Hv' : viewportHeight deepZoomState = 3e-10%float) by reflexivity.
  assert (Hl' : within_ulps 2 (c_log10 sampleLibm 10000000001) 0x1.4000000005f81p+3)
    by (vm_compute; repeat first [apply list_elem_of_here | apply list_elem_of_further]).
  split; [exact (conj Ha (conj Hv (conj Hl (conj Hv' Hl'))))|]. split.
  - destruct (adjustIterations_spec sampleLibm defaultState) as (_ & _ & H3 & _).
    exact (H3 Ha Hv Hl).
  - destruct (adjustIterations_spec sampleLibm deepZoomState) as (_ & _ & _ & H4 & _).
    exact (H4 eq_refl Hv' Hl').
Defined.

(** ** Loops in the outcome monad *)

Lemma foldM_app {A S : Type} (f : S -> A -> outcome S) (l1 l2 : list A) (s : S) :
  foldM f (l1 ++ l2) s = (s' ← foldM f l1 s; foldM f l2 s').
Proof.
  revert s. induction l1 as [|a l1 IH]; intros s; cbn [foldM app]; [reflexivity|].
  destruct (f s a) as [s'| |]; cbn [mbind outcome_bind]; [apply IH|reflexivity|reflexivity].
Qed.

(** ** The bands of [renderFractal] *)

Section Bands.
Variables (N height : Z).
Hypothesis HN : 1 <= N.
Hypothesis Hh : 0 <= height.

Local Abbreviation lines := (height ÷ N).

Lemma lines_bounds : 0 <= lines /\ N * lines <= height /\ (N - 1) * lines <= height.
Proof.
  rewrite Z.quot_div_nonneg by lia.
  assert (0 <= height / N) by (apply Z.div_pos; lia).
  assert (N * (height / N) <= height) by (apply Z.mul_div_le; lia).
  nia.
Qed.

Lemma band_inner (i : Z) :
  i <> N - 1 -> band N height i = (i * lines, (i + 1) * lines).
Proof.
  intros Hi. unfold band. destruct (Z.eqb_spec i (N - 1)); [contradiction|reflexivity].
Qed.

Lemma band_last : band N height (N - 1) = ((N - 1) * lines, height).
Proof. unfold band. now rewrite Z.eqb_refl. Qed.

End Bands.

(** ** Rendering row ranges *)

Section RenderFacts.
Variable M : Libm.
Variable fuel : nat.
Variables (state : RenderState) (width height : Z).

(** Rendering the rows [a .. c-1] is rendering [a .. b-1] and then
    [b .. c-1]. *)
Lemma renderFractalRegion_split (pixels : list Z) (a b c : Z) :
  a <= b <= c ->
  renderFractalRegion M fuel pixels state a c width height =
    (px ← renderFractalRegion M fuel pixels state a b width height;
     renderFractalRegion M fuel px state b c width height).
Proof.
  intros Habc. unfold renderFractalRegion.
  destruct (read _) as [palette| |]; cbn [mbind outcome_bind]; try reflexivity.
  replace (c - a) with ((b - a) + (c - b)) by lia.
  rewrite seqZ_app, foldM_app by lia.
  replace (a + (b - a)) with b by lia. reflexivity.
Qed.

(** Rendering no row leaves the buffer as it is. *)
Lemma renderFractalRegion_empty (pixels : list Z) (a : Z) :
  renderFractalRegion M fuel pixels state a a width height = Ok pixels.
Proof.
  unfold renderFractalRegion.
  destruct (palette_selection (colorScheme state)) as (palette & -> & _).
  cbn [read mbind outcome_bind]. now rewrite Z.sub_diag.
Qed.

(** The first [k] workers, none of them the last, render the first
    [k * linesPerThread] rows. *)
Lemma runWorkers_prefix (N : Z) (pixels : list Z) (k : nat) :
  1 <= N -> 0 <= height -> Z.of_nat k <= N - 1 ->
  runWorkers M fuel N (seqZ 0 (Z.of_nat k)) pixels state width height =
    renderFractalRegion M fuel pixels state 0 (Z.of_nat k * (height ÷ N)) width height.
Proof.
  intros HN Hh. induction k as [|k IH]; intros Hk.
  - cbn [Z.of_nat Z.mul]. now rewrite renderFractalRegion_empty.
  - unfold runWorkers in *. rewrite seqZ_S, foldM_app, IH by lia.
    destruct (lines_bounds N height HN Hh) as (L0 & _ & _).
    rewrite (renderFractalRegion_split pixels 0 (Z.of_nat k * (height ÷ N))
               (Z.of_nat (S k) * (height ÷ N))) by nia.
    destruct (renderFractalRegion _ _ pixels _ _ _ _ _) as [px| |];
      cbn [mbind outcome_bind foldM]; try reflexivity.
    rewrite band_inner by lia. cbn [fst snd].
    replace (0 + Z.of_nat k + 1) with (Z.of_nat (S k)) by lia.
    rewrite Z.add_0_l.
    now destruct (renderFractalRegion _ _ px _ _ _ _ _).
Qed.

(** All [N] workers together render the rows [0 .. height-1]. *)
Lemma renderFractal_whole (N : Z) (pixels : list Z) :
  1 <= N -> 0 <= height ->
  renderFractal M fuel N pixels state width height =
    renderFractalRegion M fuel pixels state 0 height width height.
Proof.
  intros HN Hh. unfold renderFractal.
  replace N with (Z.of_nat (S (Z.to_nat (N - 1)))) at 2 by lia.
  unfold runWorkers. rewrite seqZ_S, foldM_app.
  fold (runWorkers M fuel N (seqZ 0 (Z.of_nat (Z.to_nat (N - 1)))) pixels state
          width height).
  rewrite runWorkers_prefix by lia.
  destruct (lines_bounds N height HN Hh) as (L0 & _ & L2).
  rewrite Z2Nat.id by lia.
  rewrite (renderFractalRegion_split pixels 0 ((N - 1) * (height ÷ N)) height) by nia.
  destruct (renderFractalRegion _ _ pixels _ _ _ _ _) as [px| |];
    cbn [mbind outcome_bind foldM]; try reflexivity.
  rewrite Z.add_0_l, band_last. cbn [fst snd].
  now destruct (renderFractalRegion _ _ px _ _ _ _ _).
Qed.

End RenderFacts.

(** C8. With [N >= 1] workers [renderFractal] cuts the rows [0 .. height-1]
    into [N] bands: band 0 starts at row 0, each band ends where the next
    one starts, the last band ends at [height]; every band but the last has
    [height / N] rows and the last has the [height - (N-1) * (height / N)]
    rows that remain, never fewer.  The buffer the workers fill is the one
    a single pass over all rows fills, so it is the same for every number
    of workers. *)
Theorem renderFractal_worker_count (M : Libm) (fuel : nat) (N N' : Z)
    (pixels : list Z) (state : RenderState) (width height : Z) :
  1 <= N -> 1 <= N' -> 0 <= height ->
  (band N height 0).1 = 0
  /\ (band N height (N - 1)).2 = height
  /\ (forall i : Z, 0 <= i < N - 1 ->
        (band N height i).2 = (band N height (i + 1)).1
        /\ (band N height i).2 - (band N height i).1 = height ÷ N)
  /\ (forall i : Z, 0 <= i < N -> (band N height i).1 <= (band N height i).2)
  /\ (band N height (N - 1)).2 - (band N height (N - 1)).1
     = height - (N - 1) * (height ÷ N)
  /\ height ÷ N <= height - (N - 1) * (height ÷ N)
  /\ renderFractal M fuel N pixels state width height =
       renderFractalRegion M fuel pixels state 0 height width height
  /\ renderFractal M fuel N pixels state width height =
       renderFractal M fuel N' pixels state width height.
Proof.
  intros HN HN' Hh.
  destruct (lines_bounds N height HN Hh) as (L0 & L1 & L2).
  assert (P1 : (band N height 0).1 = 0) by reflexivity.
  assert (P2 : (band N height (N - 1)).2 = height) by now rewrite band_last.
  assert (P3 : forall i : Z, 0 <= i < N - 1 ->
            (band N height i).2 = (band N height (i + 1)).1
            /\ (band N height i).2 - (band N height i).1 = height ÷ N).
  { intros i Hi. rewrite (band_inner N height i) by lia. cbn [fst snd]. split; [|lia].
    destruct (Z.eq_dec (i + 1) (N - 1)) as [E|E].
    - rewrite E, band_last. reflexivity.
    - now rewrite band_inner by lia. }
  assert (P4 : forall i : Z, 0 <= i < N -> (band N height i).1 <= (band N height i).2).
  { intros i Hi. destruct (Z.eq_dec i (N - 1)) as [->|E].
    - rewrite band_last. cbn [fst snd]. lia.
    - rewrite band_inner by lia. cbn [fst snd]. lia. }
  assert (P5 : (band N height (N - 1)).2 - (band N height (N - 1)).1
               = height - (N - 1) * (height ÷ N)) by now rewrite band_last.
  assert (P6 : height ÷ N <= height - (N - 1) * (height ÷ N)) by lia.
  assert (P7 : renderFractal M fuel N pixels state width height =
               renderFractalRegion M fuel pixels state 0 height width height)
    by now apply renderFractal_whole.
  assert (P8 : renderFractal M fuel N pixels state width height =
               renderFractal M fuel N' pixels state width height)
    by now rewrite !renderFractal_whole.
  exact (conj P1 (conj P2 (conj P3 (conj P4 (conj P5 (conj P6 (conj P7 P8))))))).
Qed.

(** An instance: one worker and eight workers on a 4 x 6 image. *)
Lemma renderFractal_worker_count_witness :
  (1 <= 1 /\ 1 <= 8 /\ 0 <= 6)
  /\ renderFractal sampleLibm 128 1 (repeat 0 96) defaultState 4 6 =
       renderFractal sampleLibm 128 8 (repeat 0 96) defaultState 4 6.
Proof.
  assert (H1 : 1 <= 1) by lia.
  assert (H8 : 1 <= 8) by lia.
  assert (H6 : 0 <= 6) by lia.
  split; [exact (conj H1 (conj H8 H6))|].
  destruct (renderFractal_worker_count sampleLibm 128 1 8 (repeat 0 96) defaultState
              4 6 H1 H8 H6) as (_ & _ & _ & _ & _ & _ & _ & E).
  exact E.
Defined.

(** ** Writes to the buffer *)

Lemma outcome_bind_assoc {A B C : Type} (m : outcome A) (f : A -> outcome B)
    (k : B -> outcome C) :
  (y ← (x ← m; f x); k y) = (x ← m; y ← f x; k y).
Proof. now destruct m. Qed.

Lemma store_length (pixels pixels' : list Z) (index v : Z) :
  store pixels index v = Ok pixels' -> length pixels' = length pixels.
Proof.
  unfold store. destruct (_ && _); [|discriminate].
  intros [= <-]. apply length_insert.
Qed.

(** Two writes to different cells can be swapped. *)
Lemma store_commute (pixels : list Z) (i j v w : Z) :
  i <> j ->
  (px ← store pixels i v; store px j w) = (px ← store pixels j w; store px i v).
Proof.
  intros Hij. unfold store.
  destruct ((0 <=? i) && (i <? Z.of_nat (length pixels))) eqn:Ei;
  destruct ((0 <=? j) && (j <? Z.of_nat (length pixels))) eqn:Ej;
    cbn [mbind outcome_bind]; rewrite ?length_insert, ?Ei, ?Ej; try reflexivity.
  f_equal. apply list_insert_insert_ne.
  apply andb_true_iff in Ei as [Ei _], Ej as [Ej _]. apply Z.leb_le in Ei, Ej. lia.
Qed.

Lemma applyWrites_app (ws1 ws2 : list (Z * Z)) (pixels : list Z) :
  applyWrites (ws1 ++ ws2) pixels = (px ← applyWrites ws1 pixels; applyWrites ws2 px).
Proof. apply foldM_app. Qed.

(** Writes to pairwise different cells can be performed in any order. *)
Lemma applyWrites_perm (ws ws' : list (Z * Z)) (pixels : list Z) :
  NoDup ws.*1 -> ws ≡ₚ ws' -> applyWrites ws pixels = applyWrites ws' pixels.
Proof.
  intros Hnd Hp. revert pixels Hnd.
  induction Hp as [|w ws ws' Hp IH|w1 w2 ws|ws ws' ws'' Hp1 IH1 Hp2 IH2];
    intros pixels Hnd.
  - reflexivity.
  - cbn [applyWrites foldM]. apply NoDup_cons in Hnd as [_ Hnd].
    destruct (store pixels w.1 w.2); cbn [mbind outcome_bind]; try reflexivity.
    apply IH, Hnd.
  - cbn [fmap list_fmap] in Hnd.
    apply NoDup_cons in Hnd as [Hin _].
    assert (Hne : w2.1 <> w1.1) by (intros E; apply Hin; rewrite E; left).
    unfold applyWrites. cbn [foldM].
    rewrite <- !outcome_bind_assoc.
    now rewrite (store_commute pixels w2.1 w1.1).
  - rewrite IH1 by assumption. apply IH2. now rewrite <- Hp1.
Qed.

(** ** A worker as a list of writes *)

Lemma forM_app {A B : Type} (f : A -> outcome B) (l1 l2 : list A) :
  forM f (l1 ++ l2) = (v1 ← forM f l1; v2 ← forM f l2; mret (v1 ++ v2)).
Proof.
  induction l1 as [|a l1 IH]; cbn [forM app mbind outcome_bind].
  - now destruct (forM f l2).
  - destruct (f a); cbn [mbind outcome_bind]; try reflexivity.
    rewrite IH. destruct (forM f l1); cbn [mbind outcome_bind]; try reflexivity.
    now destruct (forM f l2).
Qed.

Lemma writePixel_as_writes (pixels : list Z) (x y width : Z) (color : Color) :
  writePixel pixels x y width color = applyWrites (pixelWrites x y width color) pixels.
Proof.
  unfold writePixel, applyWrites, pixelWrites. cbn [foldM fst snd].
  destruct (store pixels _ _) as [p1| |]; cbn [mbind outcome_bind]; try reflexivity.
  destruct (store p1 _ _) as [p2| |]; cbn [mbind outcome_bind]; try reflexivity.
  destruct (store p2 _ _) as [p3| |]; cbn [mbind outcome_bind]; try reflexivity.
  now destruct (store p3 _ _).
Qed.

Section WorkerWrites.
Variable M : Libm.
Variable fuel : nat.
Variables (state : RenderState) (width height : Z).

(** The pixels of a row, one after the other, perform the writes of the
    row. *)
Lemma renderPixels_as_writes (palette : list Color) (y : Z) (xs : list Z)
    (wss : list (list (Z * Z))) (pixels : list Z) :
  forM (fun x =>
          color ← pixelColor M fuel state palette x y width height;
          mret (pixelWrites x y width color)) xs = Ok wss ->
  foldM (fun px x =>
           color ← pixelColor M fuel state palette x y width height;
           writePixel px x y width color) xs pixels
  = applyWrites (concat wss) pixels.
Proof.
  revert wss pixels. induction xs as [|x xs IH]; intros wss pixels; cbn [forM foldM].
  - intros [= <-]. reflexivity.
  - destruct (pixelColor M fuel state palette x y width height) as [color| |];
      cbn [mbind outcome_bind mret outcome_ret]; try discriminate.
    destruct (forM _ xs) as [vs| |] eqn:E; cbn [mbind outcome_bind]; try discriminate.
    intros [= <-]. cbn [concat]. rewrite applyWrites_app, writePixel_as_writes.
    destruct (applyWrites (pixelWrites x y width color) pixels);
      cbn [mbind outcome_bind]; try reflexivity.
    now apply IH.
Qed.

Lemma renderRow_as_writes (palette : list Color) (y : Z) (ws : list (Z * Z))
    (pixels : list Z) :
  rowWrites M fuel state palette width height y = Ok ws ->
  renderRow M fuel state palette width height pixels y = applyWrites ws pixels.
Proof.
  unfold rowWrites, renderRow.
  destruct (forM _ (seqZ 0 width)) as [wss| |] eqn:E; cbn [mbind outcome_bind];
    try discriminate.
  intros [= <-]. now apply renderPixels_as_writes.
Qed.

Lemma renderRows_as_writes (palette : list Color) (ys : list Z)
    (wss : list (list (Z * Z))) (pixels : list Z) :
  forM (rowWrites M fuel state palette width height) ys = Ok wss ->
  foldM (renderRow M fuel state palette width height) ys pixels
  = applyWrites (concat wss) pixels.
Proof.
  revert wss pixels. induction ys as [|y ys IH]; intros wss pixels; cbn [forM foldM].
  - intros [= <-]. reflexivity.
  - destruct (rowWrites M fuel state palette width height y) as [ws| |] eqn:R;
      cbn [mbind outcome_bind]; try discriminate.
    destruct (forM _ ys) as [vs| |] eqn:E; cbn [mbind outcome_bind]; try discriminate.
    intros [= <-]. cbn [concat]. rewrite applyWrites_app, (renderRow_as_writes _ _ ws) by exact R.
    destruct (applyWrites ws pixels); cbn [mbind outcome_bind]; try reflexivity.
    now apply IH.
Qed.

(** A worker whose colours are all defined performs its list of writes. *)
Lemma renderFractalRegion_as_writes (pixels : list Z) (startY endY : Z)
    (ws : list (Z * Z)) :
  regionWrites M fuel state startY endY width height = Ok ws ->
  renderFractalRegion M fuel pixels state startY endY width height
  = applyWrites ws pixels.
Proof.
  unfold regionWrites, renderFractalRegion.
  destruct (read _) as [palette| |]; cbn [mbind outcome_bind]; try discriminate.
  destruct (forM _ (seqZ startY (endY - startY))) as [wss| |] eqn:E;
    cbn [mbind outcome_bind]; try discriminate.
  intros [= <-]. now apply renderRows_as_writes.
Qed.

End WorkerWrites.

(** ** The cells a worker writes *)

Lemma seqZ_four (m : Z) : seqZ m 4 = [m; m + 1; m + 2; m + 3].
Proof.
  unfold seqZ. change (Z.to_nat 4) with 4%nat. cbn [seq fmap list_fmap].
  replace (Z.of_nat 0 + m) with m by lia.
  replace (Z.of_nat 1 + m) with (m + 1) by lia.
  replace (Z.of_nat 2 + m) with (m + 2) by lia.
  replace (Z.of_nat 3 + m) with (m + 3) by lia.
  reflexivity.
Qed.

Lemma pixelWrites_indices (x y width : Z) (color : Color) :
  0 <= (y * width + x) * 4 <= INT_MAX ->
  (pixelWrites x y width color).*1 = seqZ ((y * width + x) * 4) 4.
Proof.
  intros H. unfold pixelWrites. rewrite int_wrap_id by (unfold INT_MIN; lia).
  now rewrite seqZ_four.
Qed.

Section WrittenCells.
Variable M : Libm.
Variable fuel : nat.
Variables (state : RenderState) (width height : Z).
Hypothesis Hw : 0 <= width.
Hypothesis Hsize : 4 * (width * height) <= INT_MAX.

(** The first [n] pixels of row [y] write the [4 n] cells from
    [4 y width] on, in increasing order. *)
Lemma rowPrefix_indices (palette : list Color) (y : Z) (n : nat)
    (wss : list (list (Z * Z))) :
  0 <= y < height -> Z.of_nat n <= width ->
  forM (fun x =>
          color ← pixelColor M fuel state palette x y width height;
          mret (pixelWrites x y width color)) (seqZ 0 (Z.of_nat n)) = Ok wss ->
  (concat wss).*1 = seqZ (4 * (y * width)) (4 * Z.of_nat n).
Proof.
  intros Hy. revert wss. induction n as [|n IH]; intros wss Hn.
  - cbn. intros [= <-]. reflexivity.
  - rewrite seqZ_S, forM_app.
    destruct (forM _ (seqZ 0 (Z.of_nat n))) as [v1| |] eqn:E1;
      cbn [mbind outcome_bind]; try discriminate.
    cbn [forM]. rewrite Z.add_0_l.
    destruct (pixelColor M fuel state palette (Z.of_nat n) y width height) as [color| |];
      cbn [mbind outcome_bind mret outcome_ret]; try discriminate.
    intros [= <-].
    rewrite concat_app, fmap_app, (IH v1) by (lia || reflexivity).
    cbn [concat]. rewrite app_nil_r, pixelWrites_indices by nia.
    replace (4 * Z.of_nat (S n)) with (4 * Z.of_nat n + 4) by lia.
    rewrite seqZ_app by lia. do 2 f_equal. lia.
Qed.

Lemma rowWrites_indices (palette : list Color) (y : Z) (ws : list (Z * Z)) :
  0 <= y < height ->
  rowWrites M fuel state palette width height y = Ok ws ->
  ws.*1 = seqZ (4 * (y * width)) (4 * width).
Proof.
  intros Hy. unfold rowWrites.
  destruct (forM _ (seqZ 0 width)) as [wss| |] eqn:E; cbn [mbind outcome_bind];
    try discriminate.
  intros [= <-].
  rewrite (rowPrefix_indices palette y (Z.to_nat width) wss Hy).
  - now rewrite Z2Nat.id by lia.
  - lia.
  - now rewrite Z2Nat.id by lia.
Qed.

(** The rows [a .. a + n - 1] write the cells from [4 a width] on. *)
Lemma rowsPrefix_indices (palette : list Color) (a : Z) (n : nat)
    (wss : list (list (Z * Z))) :
  0 <= a -> a + Z.of_nat n <= height ->
  forM (rowWrites M fuel state palette width height) (seqZ a (Z.of_nat n)) = Ok wss ->
  (concat wss).*1 = seqZ (4 * (a * width)) (4 * (Z.of_nat n * width)).
Proof.
  intros Ha. revert wss. induction n as [|n IH]; intros wss Hn.
  - cbn. intros [= <-]. reflexivity.
  - rewrite seqZ_S, forM_app.
    destruct (forM _ (seqZ a (Z.of_nat n))) as [v1| |] eqn:E1;
      cbn [mbind outcome_bind]; try discriminate.
    cbn [forM].
    destruct (rowWrites M fuel state palette width height (a + Z.of_nat n)) as [ws| |] eqn:R;
      cbn [mbind outcome_bind mret outcome_ret]; try discriminate.
    intros [= <-].
    rewrite concat_app, fmap_app, (IH v1) by (lia || reflexivity).
    cbn [concat]. rewrite app_nil_r, (rowWrites_indices palette (a + Z.of_nat n) ws) by (lia || exact R).
    replace (4 * (Z.of_nat (S n) * width)) with (4 * (Z.of_nat n * width) + 4 * width) by lia.
    rewrite seqZ_app by nia. do 2 f_equal. lia.
Qed.

Lemma regionWrites_indices (a b : Z) (ws : list (Z * Z)) :
  0 <= a <= b -> b <= height ->
  regionWrites M fuel state a b width height = Ok ws ->
  ws.*1 = seqZ (4 * (a * width)) (4 * ((b - a) * width)).
Proof.
  intros Hab Hb. unfold regionWrites.
  destruct (read _) as [palette| |]; cbn [mbind outcome_bind]; try discriminate.
  destruct (forM _ (seqZ a (b - a))) as [wss| |] eqn:E; cbn [mbind outcome_bind];
    try discriminate.
  intros [= <-].
  rewrite (rowsPrefix_indices palette a (Z.to_nat (b - a)) wss).
  - now rewrite Z2Nat.id by lia.
  - lia.
  - lia.
  - now rewrite Z2Nat.id by lia.
Qed.

End WrittenCells.

(** ** The writes of all workers *)

Section AllWorkers.
Variable M : Libm.
Variable fuel : nat.
Variables (state : RenderState) (width height : Z).

Lemma regionWrites_split (a b c : Z) :
  a <= b <= c ->
  regionWrites M fuel state a c width height =
    (w1 ← regionWrites M fuel state a b width height;
     w2 ← regionWrites M fuel state b c width height;
     mret (w1 ++ w2)).
Proof.
  intros Habc. unfold regionWrites.
  destruct (read _) as [palette| |]; cbn [mbind outcome_bind mret outcome_ret]; try reflexivity.
  replace (c - a) with ((b - a) + (c - b)) by lia.
  rewrite seqZ_app, forM_app by lia.
  replace (a + (b - a)) with b by lia.
  destruct (forM _ (seqZ a (b - a))) as [v1| |]; cbn [mbind outcome_bind mret outcome_ret];
    try reflexivity.
  destruct (forM _ (seqZ b (c - b))) as [v2| |]; cbn [mbind outcome_bind mret outcome_ret];
    try reflexivity.
  now rewrite concat_app.
Qed.

Lemma regionWrites_empty (a : Z) :
  regionWrites M fuel state a a width height = Ok [].
Proof.
  unfold regionWrites.
  destruct (palette_selection (colorScheme state)) as (palette & -> & _).
  cbn [read mbind outcome_bind]. now rewrite Z.sub_diag.
Qed.

(** The write list of worker [i]. *)
Local Abbreviation workerWrites := (fun N i =>
  regionWrites M fuel state (band N height i).1 (band N height i).2 width height).

Lemma workerWrites_prefix (N : Z) (k : nat) :
  1 <= N -> 0 <= height -> Z.of_nat k <= N - 1 ->
  (wss ← forM (workerWrites N) (seqZ 0 (Z.of_nat k)); mret (concat wss)) =
    regionWrites M fuel state 0 (Z.of_nat k * (height ÷ N)) width height.
Proof.
  intros HN Hh. induction k as [|k IH]; intros Hk.
  - cbn [Z.of_nat Z.mul]. now rewrite regionWrites_empty.
  - destruct (lines_bounds N height HN Hh) as (L0 & _ & _).
    rewrite (regionWrites_split 0 (Z.of_nat k * (height ÷ N))
               (Z.of_nat (S k) * (height ÷ N))) by nia.
    rewrite <- IH by lia. clear IH. rewrite seqZ_S, forM_app.
    destruct (forM _ (seqZ 0 (Z.of_nat k))) as [v1| |]; cbn [mbind outcome_bind mret outcome_ret];
      try reflexivity.
    cbn [forM]. rewrite band_inner by lia. cbn [fst snd].
    replace (0 + Z.of_nat k + 1) with (Z.of_nat (S k)) by lia.
    rewrite Z.add_0_l.
    destruct (regionWrites _ _ _ _ _ _ _) as [w2| |]; cbn [mbind outcome_bind mret outcome_ret];
      try reflexivity.
    rewrite concat_app. cbn [concat].
    now rewrite app_nil_r.
Qed.

Lemma workerWrites_whole (N : Z) :
  1 <= N -> 0 <= height ->
  (wss ← forM (workerWrites N) (seqZ 0 N); mret (concat wss)) =
    regionWrites M fuel state 0 height width height.
Proof.
  intros HN Hh.
  destruct (lines_bounds N height HN Hh) as (L0 & _ & L2).
  rewrite (regionWrites_split 0 ((N - 1) * (height ÷ N)) height) by nia.
  replace ((N - 1) * (height ÷ N)) with (Z.of_nat (Z.to_nat (N - 1)) * (height ÷ N))
    at 1 by (rewrite Z2Nat.id; lia).
  rewrite <- workerWrites_prefix by lia.
  replace N with (Z.of_nat (S (Z.to_nat (N - 1)))) at 1 by lia.
  rewrite seqZ_S, forM_app.
  destruct (forM _ (seqZ 0 (Z.of_nat (Z.to_nat (N - 1))))) as [v1| |];
    cbn [mbind outcome_bind mret outcome_ret]; try reflexivity.
  cbn [forM]. rewrite Z.add_0_l, Z2Nat.id, band_last by lia. cbn [fst snd].
  destruct (regionWrites _ _ _ _ _ _ _) as [w2| |]; cbn [mbind outcome_bind mret outcome_ret];
    try reflexivity.
  rewrite concat_app. cbn [concat].
  now rewrite app_nil_r.
Qed.

End AllWorkers.

(** X5. The order in which the workers run, and the order in which their
    writes reach the buffer, do not matter.  When every colour of the image
    is defined and the cell indices fit an [int], [renderFractal] performs
    the writes [ws] of a pass over the whole image; these go to the cells
    [0 .. 4 width height - 1], each written once, so performing them in any
    other order gives the same buffer; and [ws] is the concatenation of the
    write lists of the [N] workers, so every interleaving of the workers is
    such an order. *)
Theorem renderFractal_schedule_independent (M : Libm) (fuel : nat) (N : Z)
    (pixels : list Z) (state : RenderState) (width height : Z) (ws : list (Z * Z)) :
  1 <= N -> 0 <= width -> 0 <= height -> 4 * (width * height) <= INT_MAX ->
  regionWrites M fuel state 0 height width height = Ok ws ->
  renderFractal M fuel N pixels state width height = applyWrites ws pixels
  /\ ws.*1 = seqZ 0 (4 * (height * width))
  /\ (forall ws' : list (Z * Z),
        ws ≡ₚ ws' -> applyWrites ws' pixels = applyWrites ws pixels)
  /\ (exists wss : list (list (Z * Z)),
        forM (fun i => regionWrites M fuel state (band N height i).1
                         (band N height i).2 width height) (seqZ 0 N) = Ok wss
        /\ concat wss = ws).
Proof.
  intros HN Hw Hh Hsize Hws.
  assert (I : ws.*1 = seqZ 0 (4 * (height * width))).
  { rewrite (regionWrites_indices M fuel state width height Hw Hsize 0 height ws)
      by (lia || exact Hws).
    f_equal; lia. }
  split; [|split; [exact I|split]].
  - rewrite renderFractal_whole by lia.
    now apply renderFractalRegion_as_writes.
  - intros ws' Hp. symmetry. apply applyWrites_perm; [|exact Hp].
    rewrite I. apply NoDup_seqZ.
  - assert (W := workerWrites_whole M fuel state width height N HN Hh).
    rewrite Hws in W.
    destruct (forM _ (seqZ 0 N)) as [wss| |]; cbn [mbind outcome_bind mret outcome_ret] in W;
      try discriminate.
    exists wss. split; [reflexivity|]. now injection W.
Qed.

(** An instance: a 2 x 2 image of the default view, its writes performed in
    reverse order. *)
Lemma renderFractal_schedule_independent_witness :
  (1 <= 2 /\ 0 <= 2 /\ 0 <= 2 /\ 4 * (2 * 2) <= INT_MAX)
  /\ exists ws : list (Z * Z),
       regionWrites sampleLibm 128 defaultState 0 2 2 2 = Ok ws
       /\ renderFractal sampleLibm 128 2 (repeat 0 16) defaultState 2 2
          = applyWrites ws (repeat 0 16)
       /\ applyWrites (reverse ws) (repeat 0 16) = applyWrites ws (repeat 0 16).
Proof.
  assert (H1 : 1 <= 2) by lia.
  assert (H2 : 0 <= 2) by lia.
  assert (H3 : 4 * (2 * 2) <= INT_MAX) by (unfold INT_MAX; lia).
  split; [exact (conj H1 (conj H2 (conj H2 H3)))|].
  destruct (regionWrites sampleLibm 128 defaultState 0 2 2 2) as [ws| |] eqn:E;
    [|vm_compute in E; discriminate|vm_compute in E; discriminate].
  exists ws. split; [reflexivity|].
  destruct (renderFractal_schedule_independent sampleLibm 128 2 (repeat 0 16)
              defaultState 2 2 ws H1 H2 H2 H3 E) as (R & _ & P & _).
  split; [exact R|]. apply P. symmetry. apply reverse_Permutation.
Defined.

(** * Further properties of the engine *)

(** ** What a list of writes leaves in the buffer *)

Lemma store_lookup (pixels pixels' : list Z) (i v : Z) :
  store pixels i v = Ok pixels' ->
  0 <= i < Z.of_nat (length pixels)
  /\ pixels' !! Z.to_nat i = Some v
  /\ forall j : nat, j <> Z.to_nat i -> pixels' !! j = pixels !! j.
Proof.
  unfold store. destruct ((0 <=? i) && (i <? Z.of_nat (length pixels))) eqn:E; [|discriminate].
  apply andb_true_iff in E as [A B]. apply Z.leb_le in A. apply Z.ltb_lt in B.
  intros [= <-]. split; [lia|]. split.
  - apply list_lookup_insert_eq. lia.
  - intros j Hj. now apply list_lookup_insert_ne.
Qed.

Lemma applyWrites_lookup (ws : list (Z * Z)) (pixels pixels' : list Z) :
  NoDup ws.*1 -> applyWrites ws pixels = Ok pixels' ->
  length pixels' = length pixels
  /\ (forall i v, (i, v) ∈ ws ->
        0 <= i < Z.of_nat (length pixels) /\ pixels' !! Z.to_nat i = Some v)
  /\ (forall j : nat, (forall i, i ∈ ws.*1 -> 0 <= i -> j <> Z.to_nat i) ->
        pixels' !! j = pixels !! j).
Proof.
  revert pixels. induction ws as [|[i v] ws IH]; intros pixels Hnd; unfold applyWrites;
    cbn [foldM fst snd].
  - intros [= <-]. split; [reflexivity|]. split; [|reflexivity].
    intros i v H. now apply elem_of_nil in H.
  - destruct (store pixels i v) as [p1| |] eqn:S; cbn [mbind outcome_bind]; try discriminate.
    intros H. cbn [fmap list_fmap fst] in Hnd. apply NoDup_cons in Hnd as [Hin Hnd].
    destruct (IH p1 Hnd H) as (L & In & Out).
    destruct (store_lookup _ _ _ _ S) as (Bi & Vi & Oi).
    assert (Lp : length p1 = length pixels) by (eapply store_length; exact S).
    split; [congruence|]. split.
    + intros i' v' Hel. apply elem_of_cons in Hel as [[= -> ->]|Hel].
      * split; [exact Bi|]. rewrite Out; [exact Vi|].
        intros i' Hi' Hpos E. apply Hin. apply Z2Nat.inj in E; [|lia|lia]. now subst.
      * destruct (In i' v' Hel) as (B' & V'). split; [lia|exact V'].
    + intros j Hj. rewrite Out.
      * apply Oi. apply Hj; [left|lia].
      * intros i' Hi'. apply Hj. now right.
Qed.

(** ** The elements of a successful [forM] *)

Lemma elem_of_concat {A : Type} (x : A) (l : list A) (ls : list (list A)) :
  x ∈ l -> l ∈ ls -> x ∈ concat ls.
Proof.
  intros Hx Hl. induction Hl as [l ls|l l' ls Hl IH]; cbn [concat];
    apply elem_of_app; auto.
Qed.

Lemma forM_Ok_elem {A B : Type} (f : A -> outcome B) (l : list A) (vs : list B) :
  forM f l = Ok vs -> forall a, a ∈ l -> exists v, f a = Ok v /\ v ∈ vs.
Proof.
  revert vs. induction l as [|a0 l IH]; intros vs; cbn [forM].
  - intros _ a H. now apply elem_of_nil in H.
  - destruct (f a0) as [v0| |] eqn:F; cbn [mbind outcome_bind]; try discriminate.
    destruct (forM f l) as [vs0| |]; cbn [mbind outcome_bind mret outcome_ret]; try discriminate.
    intros [= <-] a Ha. apply elem_of_cons in Ha as [->|Ha].
    + exists v0. split; [exact F|left].
    + destruct (IH vs0 eq_refl a Ha) as (v & Fv & Hv). exists v. split; [exact Fv|now right].
Qed.

(** ** A worker that finishes has performed its writes *)

Section FinishedWorker.
Variable M : Libm.
Variable fuel : nat.
Variables (state : RenderState) (width height : Z).

Lemma renderPixels_Ok (palette : list Color) (y : Z) (xs : list Z)
    (pixels pixels' : list Z) :
  foldM (fun px x =>
           color ← pixelColor M fuel state palette x y width height;
           writePixel px x y width color) xs pixels = Ok pixels' ->
  exists wss,
    forM (fun x =>
            color ← pixelColor M fuel state palette x y width height;
            mret (pixelWrites x y width color)) xs = Ok wss.
Proof.
  revert pixels. induction xs as [|x xs IH]; intros pixels; cbn [foldM forM].
  - intros _. now exists [].
  - destruct (pixelColor M fuel state palette x y width height) as [color| |];
      cbn [mbind outcome_bind mret outcome_ret]; try discriminate.
    destruct (writePixel pixels x y width color) as [p1| |]; cbn [mbind outcome_bind];
      try discriminate.
    intros H. destruct (IH p1 H) as (wss & ->). cbn [mbind outcome_bind]. eauto.
Qed.

Lemma renderRows_Ok (palette : list Color) (ys : list Z) (pixels pixels' : list Z) :
  foldM (renderRow M fuel state palette width height) ys pixels = Ok pixels' ->
  exists wss, forM (rowWrites M fuel state palette width height) ys = Ok wss.
Proof.
  revert pixels. induction ys as [|y ys IH]; intros pixels; cbn [foldM forM].
  - intros _. now exists [].
  - destruct (renderRow M fuel state palette width height pixels y) as [p1| |] eqn:R;
      cbn [mbind outcome_bind]; try discriminate.
    intros H. destruct (IH p1 H) as (wss & ->).
    unfold renderRow in R. destruct (renderPixels_Ok _ _ _ _ _ R) as (ws & E).
    unfold rowWrites. rewrite E. cbn [mbind outcome_bind mret outcome_ret]. eauto.
Qed.

Lemma renderFractalRegion_Ok (pixels pixels' : list Z) (startY endY : Z) :
  renderFractalRegion M fuel pixels state startY endY width height = Ok pixels' ->
  exists ws, regionWrites M fuel state startY endY width height = Ok ws
             /\ applyWrites ws pixels = Ok pixels'.
Proof.
  intros H.
  assert (exists ws, regionWrites M fuel state startY endY width height = Ok ws)
    as (ws & E).
  { revert H. unfold renderFractalRegion, regionWrites.
    destruct (read _) as [palette| |]; cbn [mbind outcome_bind]; try discriminate.
    intros H. destruct (renderRows_Ok _ _ _ _ H) as (wss & ->).
    cbn [mbind outcome_bind mret outcome_ret]. eauto. }
  exists ws. split; [exact E|].
  now rewrite <- (renderFractalRegion_as_writes M fuel state width height pixels
                    startY endY ws E).
Qed.

(** The writes of pixel [(x, y)] are among the writes of a region that
    holds row [y]. *)
Lemma regionWrites_pixel (a b : Z) (ws : list (Z * Z)) (x y : Z) :
  regionWrites M fuel state a b width height = Ok ws ->
  a <= y < b -> 0 <= x < width ->
  exists palette color,
    PALETTES !! Z.to_nat (to_size_t (colorScheme state) mod Z.of_nat (length PALETTES))
      = Some palette
    /\ pixelColor M fuel state palette x y width height = Ok color
    /\ forall w, w ∈ pixelWrites x y width color -> w ∈ ws.
Proof.
  unfold regionWrites. intros H Hy Hx.
  destruct (PALETTES !! _) as [palette|] eqn:P; cbn [read mbind outcome_bind] in H;
    [|discriminate].
  destruct (forM _ (seqZ a (b - a))) as [wss| |] eqn:E; cbn [mbind outcome_bind] in H;
    try discriminate.
  injection H as <-.
  destruct (forM_Ok_elem _ _ _ E y) as (rw & R & Hrw).
  { apply elem_of_seqZ. lia. }
  unfold rowWrites in R.
  destruct (forM _ (seqZ 0 width)) as [pws| |] eqn:E2; cbn [mbind outcome_bind] in R;
    try discriminate.
  injection R as <-.
  destruct (forM_Ok_elem _ _ _ E2 x) as (pw & Px & Hpw).
  { apply elem_of_seqZ. lia. }
  destruct (pixelColor M fuel state palette x y width height) as [color| |] eqn:C;
    cbn [mbind outcome_bind mret outcome_ret] in Px; try discriminate.
  injection Px as <-.
  exists palette, color. split; [reflexivity|]. split; [exact C|].
  intros w Hw. apply (elem_of_concat w (concat pws)); [|exact Hrw].
  now apply (elem_of_concat w (pixelWrites x y width color)).
Qed.

End FinishedWorker.

(** X6. A render that succeeds has filled the image.  For an image of
    [width x height] pixels whose cell indices fit an [int], the buffer
    keeps its length, which is at least [4 width height]; the four cells of
    every pixel [(x, y)], at [4 (y width + x)], hold the red, green and blue
    channel of the colour of that pixel and the value 255; the cells from
    [4 width height] on are as they were. *)
Theorem renderFractal_fills_buffer (M : Libm) (fuel : nat) (N : Z)
    (pixels pixels' : list Z) (state : RenderState) (width height : Z) :
  1 <= N -> 0 <= width -> 0 <= height -> 4 * (width * height) <= INT_MAX ->
  renderFractal M fuel N pixels state width height = Ok pixels' ->
  length pixels' = length pixels
  /\ 4 * (width * height) <= Z.of_nat (length pixels)
  /\ (forall x y, 0 <= x < width -> 0 <= y < height ->
        exists palette color,
          PALETTES !! Z.to_nat (to_size_t (colorScheme state)
                                mod Z.of_nat (length PALETTES)) = Some palette
          /\ pixelColor M fuel state palette x y width height = Ok color
          /\ pixels' !! Z.to_nat (4 * (y * width + x)) = Some (r color)
          /\ pixels' !! Z.to_nat (4 * (y * width + x) + 1) = Some (g color)
          /\ pixels' !! Z.to_nat (4 * (y * width + x) + 2) = Some (b color)
          /\ pixels' !! Z.to_nat (4 * (y * width + x) + 3) = Some 255)
  /\ (forall j : nat, 4 * (width * height) <= Z.of_nat j -> pixels' !! j = pixels !! j).
Proof.
  intros HN Hw Hh Hsize H.
  rewrite renderFractal_whole in H by lia.
  apply renderFractalRegion_Ok in H as (ws & E & A).
  assert (I : ws.*1 = seqZ 0 (4 * (height * width))).
  { rewrite (regionWrites_indices M fuel state width height Hw Hsize 0 height ws)
      by (lia || exact E).
    f_equal; lia. }
  assert (Hnd : NoDup ws.*1) by (rewrite I; apply NoDup_seqZ).
  destruct (applyWrites_lookup ws pixels pixels' Hnd A) as (L & In & Out).
  assert (Pix : forall x y, 0 <= x < width -> 0 <= y < height ->
            exists palette color,
              PALETTES !! Z.to_nat (to_size_t (colorScheme state)
                                    mod Z.of_nat (length PALETTES)) = Some palette
              /\ pixelColor M fuel state palette x y width height = Ok color
              /\ (forall i v, (i, v) ∈ pixelWrites x y width color ->
                    0 <= i < Z.of_nat (length pixels)
                    /\ pixels' !! Z.to_nat i = Some v)).
  { intros x y Hx Hy.
    destruct (regionWrites_pixel M fuel state width height 0 height ws x y E)
      as (palette & color & P & C & Sub); [lia|lia|].
    exists palette, color. split; [exact P|]. split; [exact C|].
    intros i v Hiv. apply In, Sub, Hiv. }
  split; [exact L|]. split; [|split].
  - destruct (Z.eq_dec (width * height) 0) as [->|Hne]; [lia|].
    assert (0 < width /\ 0 < height) as [Hw' Hh'] by nia.
    destruct (Pix (width - 1) (height - 1)) as (palette & color & _ & _ & W); [lia|lia|].
    destruct (W (int_wrap (((height - 1) * width + (width - 1)) * 4) + 3) 255) as [B _].
    { unfold pixelWrites. rewrite !elem_of_cons. auto. }
    rewrite int_wrap_id in B by (unfold INT_MIN; nia). nia.
  - intros x y Hx Hy.
    destruct (Pix x y Hx Hy) as (palette & color & P & C & W).
    exists palette, color. split; [exact P|]. split; [exact C|].
    assert (Wi : int_wrap ((y * width + x) * 4) = 4 * (y * width + x)).
    { rewrite int_wrap_id by (unfold INT_MIN; nia). lia. }
    unfold pixelWrites in W. rewrite Wi in W.
    repeat split; apply W; rewrite !elem_of_cons; auto 6.
  - intros j Hj. apply Out. intros i Hi Hpos ->. rewrite I in Hi.
    apply elem_of_seqZ in Hi. lia.
Qed.

(** An instance: a 2 x 2 image of the default view in a buffer of 18 cells. *)
Lemma renderFractal_fills_buffer_witness :
  (1 <= 2 /\ 0 <= 2 /\ 0 <= 2 /\ 4 * (2 * 2) <= INT_MAX
   /\ renderFractal sampleLibm 128 2 (repeat 7 18) defaultState 2 2
      = Ok [50; 21; 19; 255; 40; 15; 21; 255; 48; 20; 19; 255; 0; 0; 0; 255; 7; 7])
  /\ 4 * (2 * 2) <= Z.of_nat (length (repeat 7 18))
  /\ pixelColor sampleLibm 128 defaultState palette0 1 0 2 2 = Ok (Build_Color 40 15 21)
  /\ [50; 21; 19; 255; 40; 15; 21; 255; 48; 20; 19; 255; 0; 0; 0; 255; 7; 7] !! 16%nat
     = repeat 7 18 !! 16%nat.
Proof.
  assert (H1 : 1 <= 2) by lia.
  assert (H2 : 0 <= 2) by lia.
  assert (H3 : 4 * (2 * 2) <= INT_MAX) by (unfold INT_MAX; lia).
  assert (H4 : renderFractal sampleLibm 128 2 (repeat 7 18) defaultState 2 2
               = Ok [50; 21; 19; 255; 40; 15; 21; 255; 48; 20; 19; 255; 0; 0; 0; 255; 7; 7])
    by (vm_compute; reflexivity).
  split; [exact (conj H1 (conj H2 (conj H2 (conj H3 H4))))|].
  destruct (renderFractal_fills_buffer sampleLibm 128 2 (repeat 7 18) _ defaultState 2 2
              H1 H2 H2 H3 H4) as (_ & L & P & F).
  split; [exact L|]. split; [|apply F; lia].
  destruct (P 1 0) as (palette & color & Hp & Hc & Hr & Hg & Hb & _); [lia|lia|].
  injection Hp as <-. refine (eq_trans Hc _). f_equal.
  destruct color as [cr cg cb]. cbn [r g b] in Hr, Hg, Hb.
  vm_compute in Hr, Hg, Hb.
  injection Hr as <-. injection Hg as <-. injection Hb as <-. reflexivity.
Defined.

(** ** Loops whose steps do nothing *)

Lemma foldM_skip {A S : Type} (f : S -> A -> outcome S) (l : list A) (s : S) :
  (forall a, a ∈ l -> f s a = Ok s) -> foldM f l s = Ok s.
Proof.
  induction l as [|a l IH]; intros H; cbn [foldM]; [reflexivity|].
  rewrite H by left. cbn [mbind outcome_bind]. apply IH.
  intros a' Ha'. apply H. now right.
Qed.

Lemma seqZ_nonpos (m n : Z) : n <= 0 -> seqZ m n = [].
Proof. intros H. unfold seqZ. now replace (Z.to_nat n) with 0%nat by lia. Qed.

Lemma renderFractalRegion_no_rows (M : Libm) (fuel : nat) (pixels : list Z)
    (state : RenderState) (a b width height : Z) :
  b <= a -> renderFractalRegion M fuel pixels state a b width height = Ok pixels.
Proof.
  intros H. unfold renderFractalRegion.
  destruct (palette_selection (colorScheme state)) as (palette & -> & _).
  cbn [read mbind outcome_bind]. now rewrite seqZ_nonpos by lia.
Qed.

Lemma renderFractalRegion_no_columns (M : Libm) (fuel : nat) (pixels : list Z)
    (state : RenderState) (a b width height : Z) :
  width <= 0 -> renderFractalRegion M fuel pixels state a b width height = Ok pixels.
Proof.
  intros H. unfold renderFractalRegion.
  destruct (palette_selection (colorScheme state)) as (palette & -> & _).
  cbn [read mbind outcome_bind]. apply foldM_skip. intros y _.
  unfold renderRow. now rewrite seqZ_nonpos by lia.
Qed.

Lemma band_nonpos (N height i : Z) :
  1 <= N -> height <= 0 -> 0 <= i < N -> (band N height i).2 <= (band N height i).1.
Proof.
  intros HN Hh Hi. unfold band. cbn [fst snd].
  assert (Q : height = N * (height ÷ N) + Z.rem height N) by (apply Z.quot_rem'; lia).
  assert (R : Z.rem height N <= 0) by (apply Z.rem_nonpos; lia).
  assert (L : height ÷ N <= 0).
  { rewrite <- (Z.opp_involutive height), Z.quot_opp_l by lia.
    assert (0 <= - height ÷ N) by (apply Z.quot_pos; lia). lia. }
  destruct (Z.eqb_spec i (N - 1)) as [->|_]; nia.
Qed.

(** X7. An image without pixels: when the width or the height is zero or
    negative no worker enters its loops, and [renderFractal] returns the
    buffer as it was (the pixel sizes, quotients by the zero or negative
    dimension, are computed but not used). *)
Theorem renderFractal_empty_image (M : Libm) (fuel : nat) (N : Z)
    (pixels : list Z) (state : RenderState) (width height : Z) :
  1 <= N -> width <= 0 \/ height <= 0 ->
  renderFractal M fuel N pixels state width height = Ok pixels.
Proof.
  intros HN H. unfold renderFractal, runWorkers. apply foldM_skip.
  intros i Hi. apply elem_of_seqZ in Hi. destruct H as [Hw|Hh].
  - now apply renderFractalRegion_no_columns.
  - apply renderFractalRegion_no_rows. apply band_nonpos; lia.
Qed.

(** An instance: width 0 and height -3 with eight workers. *)
Lemma renderFractal_empty_image_witness :
  (1 <= 8 /\ (0 <= 0 \/ -3 <= 0))
  /\ renderFractal sampleLibm 0 8 [1; 2; 3] defaultState 0 (-3) = Ok [1; 2; 3].
Proof.
  assert (H1 : 1 <= 8) by lia.
  assert (H2 : 0 <= 0 \/ -3 <= 0) by (left; lia).
  split; [exact (conj H1 H2)|].
  exact (renderFractal_empty_image sampleLibm 0 8 [1; 2; 3] defaultState 0 (-3) H1 H2).
Defined.

(** ** The results of a successful [forM] *)

Lemma forM_Ok_Forall2 {A B : Type} (f : A -> outcome B) (l : list A) (vs : list B) :
  forM f l = Ok vs <-> Forall2 (fun a v => f a = Ok v) l vs.
Proof.
  revert vs. induction l as [|a l IH]; intros vs; cbn [forM].
  - split.
    + intros [= <-]. constructor.
    + intros H. now inversion H.
  - split.
    + destruct (f a) as [v| |] eqn:F; cbn [mbind outcome_bind]; try discriminate.
      destruct (forM f l) as [vs0| |]; cbn [mbind outcome_bind mret outcome_ret];
        try discriminate.
      intros [= <-]. constructor; [exact F|]. now apply IH.
    + intros H. inversion H as [|? v ? vs0 F T]; subst.
      rewrite F. cbn [mbind outcome_bind]. apply IH in T. rewrite T. reflexivity.
Qed.

(** ** The truncated mean *)

Lemma foldl_sum_bounds (ch : Color -> Z) (lo hi : Z) (cs : list Color) (t : Z) :
  Forall (fun c => lo <= ch c <= hi) cs ->
  t + Z.of_nat (length cs) * lo <= foldl (fun t c => t + ch c) t cs
  <= t + Z.of_nat (length cs) * hi.
Proof.
  intros H. revert t. induction H as [|c cs Hc _ IH]; intros t; cbn [foldl length].
  - lia.
  - specialize (IH (t + ch c)). lia.
Qed.

Lemma truncated_mean_bounds (total n lo hi : Z) :
  0 < n -> 0 <= lo -> n * lo <= total <= n * hi -> lo <= total ÷ n <= hi.
Proof.
  intros Hn Hlo H. rewrite Z.quot_div_nonneg by nia. split.
  - apply Z.div_le_lower_bound; lia.
  - apply Z.div_le_upper_bound; lia.
Qed.

Lemma averageColors_between (lo hi : Color) (cs : list Color) :
  cs <> [] -> Forall byte_color cs -> Forall (color_between lo hi) cs ->
  exists c, averageColors cs = Ok c /\ byte_color c /\ color_between lo hi c.
Proof.
  intros Hne Hb Hc.
  assert (Hn : 0 < Z.of_nat (length cs)) by (destruct cs; [contradiction|cbn; lia]).
  unfold averageColors. destruct (Z.eqb_spec (Z.of_nat (length cs)) 0) as [E|_]; [lia|].
  eexists. split; [reflexivity|].
  assert (Ch : forall ch : Color -> Z,
            Forall (fun c => 0 <= ch c <= 255) cs ->
            Forall (fun c => ch lo <= ch c <= ch hi) cs ->
            0 <= to_uint8 (foldl (fun t c => t + ch c) 0 cs ÷ Z.of_nat (length cs)) <= 255
            /\ ch lo <= to_uint8 (foldl (fun t c => t + ch c) 0 cs ÷ Z.of_nat (length cs))
               <= ch hi).
  { intros ch B1 B2.
    assert (S1 := foldl_sum_bounds ch 0 255 cs 0 B1).
    assert (Q1 : 0 <= foldl (fun t c => t + ch c) 0 cs ÷ Z.of_nat (length cs) <= 255)
      by (apply truncated_mean_bounds; lia).
    unfold to_uint8. rewrite Z.mod_small by lia. split; [exact Q1|].
    assert (S2 := foldl_sum_bounds ch (ch lo) (ch hi) cs 0 B2).
    rewrite Z.quot_div_nonneg by lia. split.
    - apply Z.div_le_lower_bound; lia.
    - apply Z.div_le_upper_bound; lia. }
  destruct (Ch r) as (R1 & R2);
    [eapply Forall_impl; [exact Hb|]; intros c H; apply H
    |eapply Forall_impl; [exact Hc|]; intros c H; apply H|].
  destruct (Ch g) as (G1 & G2);
    [eapply Forall_impl; [exact Hb|]; intros c H; apply H
    |eapply Forall_impl; [exact Hc|]; intros c H; apply H|].
  destruct (Ch b) as (B1 & B2);
    [eapply Forall_impl; [exact Hb|]; intros c H; apply H
    |eapply Forall_impl; [exact Hc|]; intros c H; apply H|].
  unfold byte_color, color_between. cbn [r g b]. auto.
Qed.

(** ** The grid of sub-samples *)

Section Supersampler.
Variable M : Libm.
Variable fuel : nat.
Variables (samples x y : Z) (state : RenderState) (width height : Z).
Variable palette : list Color.

Local Abbreviation sub := (subSampleColor M fuel samples x y state width height palette).

(** The colours of a grid whose samples are all defined: one for every
    sub-sample, each of them the colour of a sub-sample. *)
Lemma grid_colors (rows : list (list Color)) :
  forM (fun sy => forM (sub sy) (seqZ 0 samples)) (seqZ 0 samples) = Ok rows ->
  Z.of_nat (length (concat rows)) = Z.max 0 samples * Z.max 0 samples
  /\ (forall c, c ∈ concat rows ->
        exists sy sx, 0 <= sy < samples /\ 0 <= sx < samples /\ sub sy sx = Ok c)
  /\ (forall sy sx, 0 <= sy < samples -> 0 <= sx < samples ->
        exists c, sub sy sx = Ok c /\ c ∈ concat rows).
Proof.
  intros H. apply forM_Ok_Forall2 in H.
  assert (G : forall (ys : list Z) (rs : list (list Color)),
            Forall2 (fun sy row => forM (sub sy) (seqZ 0 samples) = Ok row) ys rs ->
            Z.of_nat (length (concat rs)) = Z.of_nat (length ys) * Z.max 0 samples
            /\ (forall c, c ∈ concat rs ->
                  exists sy sx, sy ∈ ys /\ 0 <= sx < samples /\ sub sy sx = Ok c)
            /\ (forall sy sx, sy ∈ ys -> 0 <= sx < samples ->
                  exists c, sub sy sx = Ok c /\ c ∈ concat rs)).
  { clear H rows. intros ys rs F.
    induction F as [|sy row ys rs Hrow _ (IL & IA & IB)]; cbn [concat length].
    - split; [reflexivity|]. split.
      + intros c Hc. now apply elem_of_nil in Hc.
      + intros sy sx Hsy. now apply elem_of_nil in Hsy.
    - apply forM_Ok_Forall2 in Hrow.
      assert (Lr : length row = Z.to_nat samples).
      { rewrite <- (Forall2_length _ _ _ Hrow). unfold seqZ.
        now rewrite length_fmap, length_seq. }
      split; [rewrite length_app; lia|]. split.
      + intros c Hc. apply elem_of_app in Hc as [Hc|Hc].
        * apply list_elem_of_lookup in Hc as (i & Hi).
          destruct (Forall2_lookup_r _ _ _ _ _ Hrow Hi) as (sx & Hsx & E).
          exists sy, sx. split; [left|]. split; [|exact E].
          apply list_elem_of_lookup_2 in Hsx. apply elem_of_seqZ in Hsx. lia.
        * destruct (IA c Hc) as (sy' & sx & ? & ? & ?). exists sy', sx.
          split; [now right|]. auto.
      + intros sy' sx Hsy Hsx. apply elem_of_cons in Hsy as [->|Hsy].
        * assert (Hin : sx ∈ seqZ 0 samples) by (apply elem_of_seqZ; lia).
          apply list_elem_of_lookup in Hin as (i & Hi).
          destruct (Forall2_lookup_l _ _ _ _ _ Hrow Hi) as (c & Hc & E).
          exists c. split; [exact E|]. apply elem_of_app. left.
          now apply list_elem_of_lookup_2 in Hc.
        * destruct (IB sy' sx Hsy Hsx) as (c & E & Hc). exists c.
          split; [exact E|]. apply elem_of_app. now right. }
  destruct (G _ _ H) as (L & A & B).
  split; [|split].
  - rewrite L. unfold seqZ. rewrite length_fmap, length_seq. lia.
  - intros c Hc. destruct (A c Hc) as (sy & sx & Hsy & Hsx & E).
    exists sy, sx. apply elem_of_seqZ in Hsy. split; [lia|]. auto.
  - intros sy sx Hsy Hsx. apply B; [apply elem_of_seqZ; lia|exact Hsx].
Qed.

End Supersampler.

Lemma subSampleColor_range (M : Libm) (fuel : nat) (samples x y : Z)
    (state : RenderState) (width height : Z) (palette : list Color) (sy sx : Z)
    (c : Color) :
  subSampleColor M fuel samples x y state width height palette sy sx = Ok c ->
  byte_color c.
Proof. unfold subSampleColor. apply colorAt_range. Qed.

(** The supersampler returns a colour only if all its sub-samples have
    one, and that colour lies within their range. *)
Lemma antiAliased_samples (M : Libm) (fuel : nat) (x y : Z)
    (state : RenderState) (width height : Z) (palette : list Color) (c : Color) :
  calculateAntiAliasedColor M fuel x y state width height palette = Ok c ->
  byte_color c
  /\ (forall sy sx, 0 <= sy < 7 -> 0 <= sx < 7 ->
        exists c', subSampleColor M fuel 7 x y state width height palette sy sx = Ok c')
  /\ (forall lo hi : Color,
        (forall sy sx c', 0 <= sy < 7 -> 0 <= sx < 7 ->
           subSampleColor M fuel 7 x y state width height palette sy sx = Ok c' ->
           color_between lo hi c') ->
        color_between lo hi c).
Proof.
  unfold calculateAntiAliasedColor, antiAliasedColorWith.
  change (AA_MAX_SAMPLES + 1) with 7.
  destruct (forM _ (seqZ 0 7)) as [rows| |] eqn:E; cbn [mbind outcome_bind];
    try discriminate.
  destruct (grid_colors M fuel 7 x y state width height palette rows E) as (L & A & B).
  intros Hc.
  assert (Hne : concat rows <> []).
  { intros E0. rewrite E0 in L. cbn in L. lia. }
  assert (Hb : Forall byte_color (concat rows)).
  { apply Forall_forall. intros c' Hc'. destruct (A c' Hc') as (sy & sx & _ & _ & S).
    eapply subSampleColor_range. exact S. }
  split; [|split].
  - destruct (averageColors_between (Build_Color 0 0 0) (Build_Color 255 255 255)
                (concat rows) Hne Hb) as (c0 & E0 & B0 & _).
    { apply Forall_forall. intros c' Hc'.
      exact (proj1 (Forall_forall byte_color (concat rows)) Hb c' Hc'). }
    congruence.
  - intros sy sx Hsy Hsx. destruct (B sy sx Hsy Hsx) as (c' & S & _). eauto.
  - intros lo hi H.
    destruct (averageColors_between lo hi (concat rows) Hne Hb) as (c0 & E0 & _ & B0).
    { apply Forall_forall. intros c' Hc'.
      destruct (A c' Hc') as (sy & sx & Hsy & Hsx & S).
      exact (H sy sx c' Hsy Hsx S). }
    congruence.
Qed.

Lemma forM_fmap {A B : Type} (f : A -> outcome B) (h : A -> B) (l : list A) :
  (forall a, a ∈ l -> f a = Ok (h a)) -> forM f l = Ok (h <$> l).
Proof.
  induction l as [|a l IH]; intros H; cbn [forM fmap list_fmap]; [reflexivity|].
  rewrite H by left. cbn [mbind outcome_bind].
  rewrite IH by (intros a' Ha'; apply H; now right). reflexivity.
Qed.

Lemma foldl_sumZ (ch : Color -> Z) (cs : list Color) (t : Z) :
  foldl (fun t c => t + ch c) t cs = t + sumZ (ch <$> cs).
Proof.
  revert t. induction cs as [|c cs IH]; intros t; cbn [foldl fmap list_fmap sumZ foldr].
  - lia.
  - rewrite IH. unfold sumZ. cbn [foldr]. lia.
Qed.

Lemma sumZ_app (l1 l2 : list Z) : sumZ (l1 ++ l2) = sumZ l1 + sumZ l2.
Proof.
  unfold sumZ. induction l1 as [|a l1 IH]; cbn [app foldr]; lia.
Qed.

Lemma sumZ_grid (ch : Color -> Z) (col : Z -> Z -> Color) (xs ys : list Z) :
  sumZ (ch <$> concat ((fun sy => col sy <$> xs) <$> ys))
  = sumZ ((fun sy => sumZ ((fun sx => ch (col sy sx)) <$> xs)) <$> ys).
Proof.
  induction ys as [|sy ys IH]; cbn [fmap list_fmap concat]; [reflexivity|].
  rewrite fmap_app, sumZ_app, IH. cbn [sumZ foldr]. f_equal.
  now rewrite <- list_fmap_compose.
Qed.

Lemma sumZ_bounds (l : list Z) (lo hi : Z) :
  Forall (fun v => lo <= v <= hi) l ->
  Z.of_nat (length l) * lo <= sumZ l <= Z.of_nat (length l) * hi.
Proof.
  unfold sumZ. induction 1 as [|v l Hv _ IH]; cbn [foldr length]; lia.
Qed.

(** X8. [calculateAntiAliasedColor] evaluates the 7 x 7 sub-samples of the
    pixel: sub-sample [(sy, sx)] is the colour of the point at the offsets
    [(sx + 0.5)/7] and [(sy + 0.5)/7] into the pixel.  It returns a colour
    only if every sub-sample has one; when they all have, each channel of
    the result is
    the sum of that channel over the 49 sub-samples divided by 49 and
    rounded down, a byte, and between the least and the greatest value of
    the channel among the sub-samples. *)
Theorem calculateAntiAliasedColor_mean (M : Libm) (fuel : nat) (x y : Z)
    (state : RenderState) (width height : Z) (palette : list Color) :
  (forall c : Color,
     calculateAntiAliasedColor M fuel x y state width height palette = Ok c ->
     forall sy sx, 0 <= sy < 7 -> 0 <= sx < 7 ->
       exists c', subSampleColor M fuel 7 x y state width height palette sy sx = Ok c')
  /\ (forall col : Z -> Z -> Color,
        (forall sy sx, 0 <= sy < 7 -> 0 <= sx < 7 ->
           subSampleColor M fuel 7 x y state width height palette sy sx
           = Ok (col sy sx)) ->
        exists c : Color,
          calculateAntiAliasedColor M fuel x y state width height palette = Ok c
          /\ r c = grid_sum 7 (fun sy sx => r (col sy sx)) / 49
          /\ g c = grid_sum 7 (fun sy sx => g (col sy sx)) / 49
          /\ b c = grid_sum 7 (fun sy sx => b (col sy sx)) / 49
          /\ byte_color c
          /\ forall lo hi : Color,
               (forall sy sx, 0 <= sy < 7 -> 0 <= sx < 7 ->
                  color_between lo hi (col sy sx)) ->
               color_between lo hi c)
  /\ (forall sy sx : Z,
        subSampleColor M fuel 7 x y state width height palette sy sx
        = colorAt M fuel state palette
            (spec_pixelToWorld (viewportX state) (getViewportWidth state) x
               ((of_int sx + 0.5) / 7) width)
            (spec_pixelToWorld (viewportY state) (viewportHeight state) y
               ((of_int sy + 0.5) / 7) height)).
Proof.
  split; [|split]; [| |reflexivity].
  - intros c Hc. now apply (antiAliased_samples _ _ _ _ _ _ _ _ _ Hc).
  - intros col H.
    assert (Rows : forM (fun sy =>
                forM (subSampleColor M fuel 7 x y state width height palette sy)
                  (seqZ 0 7)) (seqZ 0 7)
              = Ok ((fun sy => col sy <$> seqZ 0 7) <$> seqZ 0 7)).
    { apply forM_fmap. intros sy Hsy. apply elem_of_seqZ in Hsy.
      apply forM_fmap. intros sx Hsx. apply elem_of_seqZ in Hsx. apply H; lia. }
    set (cs := concat ((fun sy => col sy <$> seqZ 0 7) <$> seqZ 0 7)) in *.
    assert (Lcs : Z.of_nat (length cs) = 49) by reflexivity.
    assert (Hin : forall c, c ∈ cs ->
              exists sy sx, 0 <= sy < 7 /\ 0 <= sx < 7 /\ c = col sy sx).
    { intros c Hc. unfold cs in Hc. apply list_elem_of_In, in_concat in Hc
        as (row & Hrow & Hc).
      rewrite <- list_elem_of_In in Hrow. rewrite <- list_elem_of_In in Hc.
      apply list_elem_of_fmap in Hrow as (sy & -> & Hsy).
      apply list_elem_of_fmap in Hc as (sx & -> & Hsx).
      apply elem_of_seqZ in Hsy, Hsx. exists sy, sx. split; [lia|]. split; [lia|reflexivity]. }
    assert (Hb : Forall byte_color cs).
    { apply Forall_forall. intros c Hc. destruct (Hin c Hc) as (sy & sx & Hsy & Hsx & ->).
      eapply subSampleColor_range. apply H; assumption. }
    assert (Ch : forall ch : Color -> Z,
              Forall (fun c => 0 <= ch c <= 255) cs ->
              to_uint8 (foldl (fun t c => t + ch c) 0 cs ÷ Z.of_nat (length cs))
              = grid_sum 7 (fun sy sx => ch (col sy sx)) / 49
              /\ 0 <= grid_sum 7 (fun sy sx => ch (col sy sx)) / 49 <= 255
              /\ forall lo hi, Forall (fun c => lo <= ch c <= hi) cs ->
                   lo <= grid_sum 7 (fun sy sx => ch (col sy sx)) / 49 <= hi).
    { intros ch B.
      assert (E : foldl (fun t c => t + ch c) 0 cs
                  = grid_sum 7 (fun sy sx => ch (col sy sx))).
      { rewrite foldl_sumZ. unfold cs. rewrite sumZ_grid. reflexivity. }
      rewrite E, Lcs.
      assert (S : forall lo hi, Forall (fun c => lo <= ch c <= hi) cs ->
                49 * lo <= grid_sum 7 (fun sy sx => ch (col sy sx)) <= 49 * hi).
      { intros lo hi F. rewrite <- E, foldl_sumZ, <- Lcs.
        rewrite <- (length_fmap ch cs). rewrite Z.add_0_l.
        apply sumZ_bounds. apply Forall_fmap. exact F. }
      assert (Q : forall lo hi, Forall (fun c => lo <= ch c <= hi) cs ->
                lo <= grid_sum 7 (fun sy sx => ch (col sy sx)) / 49 <= hi).
      { intros lo hi F. specialize (S lo hi F). split.
        - apply Z.div_le_lower_bound; lia.
        - apply Z.div_le_upper_bound; lia. }
      assert (Q0 := Q 0 255 B). assert (S0 := S 0 255 B).
      rewrite Z.quot_div_nonneg by lia. unfold to_uint8.
      rewrite Z.mod_small by lia. auto. }
    destruct (Ch r) as (Er & Br & Qr);
      [eapply Forall_impl; [exact Hb|]; intros c Hc; apply Hc|].
    destruct (Ch g) as (Eg & Bg & Qg);
      [eapply Forall_impl; [exact Hb|]; intros c Hc; apply Hc|].
    destruct (Ch b) as (Eb & Bb & Qb);
      [eapply Forall_impl; [exact Hb|]; intros c Hc; apply Hc|].
    eexists. split.
    { unfold calculateAntiAliasedColor, antiAliasedColorWith.
      change (AA_MAX_SAMPLES + 1) with 7. rewrite Rows. cbn [mbind outcome_bind].
      fold cs. unfold averageColors. rewrite Lcs. cbn [Z.eqb]. reflexivity. }
    cbn [r g b]. rewrite Lcs in Er, Eg, Eb.
    split; [exact Er|]. split; [exact Eg|]. split; [exact Eb|].
    rewrite Er, Eg, Eb. split; [exact (conj Br (conj Bg Bb))|].
    intros lo hi Hc.
    assert (F : Forall (color_between lo hi) cs).
    { apply Forall_forall. intros c Hcin.
      destruct (Hin c Hcin) as (sy & sx & Hsy & Hsx & ->). now apply Hc. }
    unfold color_between. cbn [r g b].
    split; [apply Qr|split; [apply Qg|apply Qb]];
      (eapply Forall_impl; [exact F|]); intros c Hcb; apply Hcb.
Qed.

Lemma corner_samples_defined (sy sx : Z) :
  0 <= sy < 7 -> 0 <= sx < 7 ->
  subSampleColor sampleLibm 128 7 0 0 defaultState 2 2 palette0 sy sx
  = Ok (corner_sample sy sx).
Proof.
  intros Hy Hx.
  assert (T : forallb (fun sy => forallb (fun sx =>
                match subSampleColor sampleLibm 128 7 0 0 defaultState 2 2 palette0 sy sx
                with Ok _ => true | _ => false end) (seqZ 0 7)) (seqZ 0 7) = true)
    by (vm_compute; reflexivity).
  assert (Iy : In sy (seqZ 0 7)) by (apply list_elem_of_In, elem_of_seqZ; lia).
  assert (Ix : In sx (seqZ 0 7)) by (apply list_elem_of_In, elem_of_seqZ; lia).
  assert (T1 := proj1 (forallb_forall _ _) T sy Iy).
  assert (T2 := proj1 (forallb_forall _ _) T1 sx Ix). cbv beta in T2.
  unfold corner_sample.
  destruct (subSampleColor sampleLibm 128 7 0 0 defaultState 2 2 palette0 sy sx);
    [reflexivity|discriminate|discriminate].
Qed.

(** An instance: pixel (0, 0) of a 2 x 2 image of the default view. *)
Lemma calculateAntiAliasedColor_mean_witness :
  (forall sy sx, 0 <= sy < 7 -> 0 <= sx < 7 ->
     subSampleColor sampleLibm 128 7 0 0 defaultState 2 2 palette0 sy sx
     = Ok (corner_sample sy sx))
  /\ exists c : Color,
       calculateAntiAliasedColor sampleLibm 128 0 0 defaultState 2 2 palette0 = Ok c
       /\ r c = grid_sum 7 (fun sy sx => r (corner_sample sy sx)) / 49.
Proof.
  split; [exact corner_samples_defined|].
  destruct (calculateAntiAliasedColor_mean sampleLibm 128 0 0 defaultState 2 2 palette0)
    as (_ & H & _).
  destruct (H corner_sample corner_samples_defined) as (c & E & R & _).
  exists c. exact (conj E R).
Defined.

(** ** The fields of a result *)

Lemma iterate_fields (M : Libm) (cr_actual ci_actual : float) (maxIter fractalType : Z)
    (stripes : bool) (stripeFrequency : float) (innerCalculation : bool)
    (fuel : nat) (s : LoopState) (res : ReturnInfo) :
  iterate M cr_actual ci_actual maxIter fractalType stripes stripeFrequency
    innerCalculation fuel s = Ok res ->
  res = interior_result \/ (exists a b, smoothIteration res = Some a /\ stripeSum res = Some b).
Proof.
  revert s. induction fuel as [|fuel IH]; intros s; cbn [iterate];
    destruct (ls_zr2 s + ls_zi2 s <? ESCAPE_RADIUS_SQUARED)%float.
  - discriminate.
  - intros [= <-]. right. cbn. eauto.
  - destruct (_ =? maxIter).
    + destruct innerCalculation; intros [= <-]; [right; cbn; eauto|left; reflexivity].
    + apply IH.
  - intros [= <-]. right. cbn. eauto.
Qed.

(** X9. The colouring never reads a field the evaluator has not written.
    A result of [calculateFractal] is the report "interior" (iteration
    [-1], no other field written) or has [smoothIteration] and [stripeSum]
    written; so the colour of a sample is black, or the colour map applied
    to a metric that was computed from written fields. *)
Theorem calculateFractal_fields_written (M : Libm) (fuel : nat) (cr ci jr ji : float)
    (maxIter : Z) (isJulia : bool) (fractalType : Z) (stripes : bool)
    (stripeFrequency : float) (innerCalculation : bool) (res : ReturnInfo)
    (state : RenderState) (palette : list Color) :
  calculateFractal M fuel cr ci jr ji maxIter isJulia fractalType stripes
    stripeFrequency innerCalculation = Ok res ->
  (res = interior_result
   \/ exists a b, smoothIteration res = Some a /\ stripeSum res = Some b)
  /\ (sampleColor state palette res = Ok (Build_Color 0 0 0)
      \/ exists metric, sampleMetric state res = Ok metric
                        /\ sampleColor state palette res = colorFor palette metric).
Proof.
  intros H.
  assert (F : res = interior_result
              \/ exists a b, smoothIteration res = Some a /\ stripeSum res = Some b).
  { revert H. unfold calculateFractal.
    destruct (negb innerCalculation && negb isJulia && (fractalType =? 0)).
    - destruct (_ <? _)%float; [intros [= <-]; left; reflexivity|].
      destruct (_ <? _)%float; [intros [= <-]; left; reflexivity|].
      apply iterate_fields.
    - apply iterate_fields. }
  split; [exact F|].
  destruct F as [->|(a & b & Ha & Hb)]; [left; reflexivity|].
  unfold sampleColor. destruct (iteration res =? -1); [left; reflexivity|].
  right. unfold sampleMetric. rewrite Ha, Hb.
  match goal with
  | |- context [if ?c then _ else _] => destruct c
  end; cbn [read mbind outcome_bind mret outcome_ret];
    eexists; (split; [reflexivity|reflexivity]).
Qed.

(** An instance: the point [200 + 0i], which escapes at the first iteration. *)
Lemma calculateFractal_fields_written_witness :
  calculateFractal sampleLibm 128 200 0 (-0.8) 0.156 128 false 0 false 5 false
  = Ok {| iteration := 1;
          smoothIteration := Some (-0.4055342630038421)%float;
          stripeSum := Some 0%float |}
  /\ exists metric : float,
       sampleMetric defaultState
         {| iteration := 1;
            smoothIteration := Some (-0.4055342630038421)%float;
            stripeSum := Some 0%float |} = Ok metric.
Proof.
  assert (Hr : calculateFractal sampleLibm 128 200 0 (-0.8) 0.156 128 false 0 false 5
                 false
               = Ok {| iteration := 1;
                       smoothIteration := Some (-0.4055342630038421)%float;
                       stripeSum := Some 0%float |})
    by (vm_compute; reflexivity).
  split; [exact Hr|].
  destruct (calculateFractal_fields_written sampleLibm 128 200 0 (-0.8) 0.156 128 false
              0 false 5 false _ defaultState palette0 Hr) as (_ & [B|(metric & E & _)]).
  - vm_compute in B. discriminate.
  - exists metric. exact E.
Defined.

(** ** A cap that is not positive *)

Section Uncapped.
Variable M : Libm.
Variables (cr_actual ci_actual : float) (maxIter : Z) (fractalType : Z).
Variables (stripes : bool) (stripeFrequency : float) (innerCalculation : bool).
Variables (zr0 zi0 : float).
Hypothesis Hcap : maxIter <= 0.

Local Abbreviation run := (iterate M cr_actual ci_actual maxIter fractalType stripes
               stripeFrequency innerCalculation).
Local Abbreviation z := (spec_orbit fractalType (cr_actual, ci_actual) (zr0, zi0)).
Local Abbreviation st := (state_at M cr_actual ci_actual fractalType stripes stripeFrequency zr0 zi0).

(** The counter is at least 1 after its first increment, so it never
    equals a cap that is not positive. *)
Lemma iterate_advance_uncapped (k n fuel : nat) :
  Z.of_nat (k + n) <= INT_MAX ->
  (forall j, (k <= j < k + n)%nat -> escaped (z j) = false) ->
  run (n + fuel) (st k) = run fuel (st (k + n)).
Proof.
  revert k. induction n as [|n IH]; intros k Hn Hesc.
  - now rewrite Nat.add_0_r.
  - cbn [Nat.add iterate].
    rewrite state_at_test, Hesc by lia. cbn [negb].
    rewrite <- state_at_succ.
    rewrite (state_at_orbit _ _ _ _ _ _ _ _ (S k)) at 1 by lia. cbn [ls_i].
    destruct (Z.eqb_spec (Z.of_nat (S k)) maxIter) as [E|_]; [lia|].
    rewrite IH by (lia || (intros; apply Hesc; lia)).
    f_equal. f_equal. lia.
Qed.

Lemma iterate_uncapped (n fuel : nat) :
  Z.of_nat n < INT_MAX -> (n <= fuel)%nat ->
  escaped (z n) = true -> (forall j, (j < n)%nat -> escaped (z j) = false) ->
  run fuel (st 0) = Ok (escape_result M stripes stripeFrequency z n).
Proof.
  intros Hn Hf He Hb.
  replace fuel with (n + (fuel - n))%nat by lia.
  rewrite (iterate_advance_uncapped 0 n) by (lia || (intros; apply Hb; lia)).
  apply iterate_escape; [lia|exact He].
Qed.

End Uncapped.

(** X10. The cap is honoured only when it is positive.  The counter is
    compared with [maxIter] after its increment, so with [maxIter <= 0] the
    comparison never holds: a sample point whose orbit first fails the loop
    test at [z_n] reports the escape at [n], whatever [maxIter] is. *)
Theorem calculateFractal_cap_not_positive (M : Libm) (fuel : nat) (cr ci jr ji : float)
    (maxIter : Z) (isJulia : bool) (fractalType : Z) (stripes : bool)
    (stripeFrequency : float) (innerCalculation : bool) (n : nat) :
  let z := spec_orbit fractalType (constant_point isJulia cr ci jr ji)
             (start_point isJulia cr ci) in
  maxIter <= 0 ->
  pruned innerCalculation isJulia fractalType cr ci = false ->
  Z.of_nat n < INT_MAX -> (n <= fuel)%nat ->
  escaped (z n) = true -> (forall j, (j < n)%nat -> escaped (z j) = false) ->
  calculateFractal M fuel cr ci jr ji maxIter isJulia fractalType stripes
    stripeFrequency innerCalculation
  = Ok (escape_result M stripes stripeFrequency z n).
Proof.
  intros z Hcap P Hn Hf He Hb. rewrite calculateFractal_unfold, P.
  subst z. revert He Hb.
  destruct (constant_point isJulia cr ci jr ji) as [c1 c2],
           (start_point isJulia cr ci) as [z1 z2].
  cbn [fst snd]. intros He Hb. now apply iterate_uncapped.
Qed.

(** An instance: the point [2 + 0i] with the cap 0 reports iteration 4. *)
Lemma calculateFractal_cap_not_positive_witness :
  (0 <= 0
   /\ pruned false false 0 2 0 = false
   /\ Z.of_nat 4 < INT_MAX /\ (4 <= 10)%nat
   /\ escaped (spec_orbit 0 (2, 0)%float (0, 0)%float 4) = true
   /\ forall j, (j < 4)%nat -> escaped (spec_orbit 0 (2, 0)%float (0, 0)%float j) = false)
  /\ exists res : ReturnInfo,
       calculateFractal sampleLibm 10 2 0 (-0.8) 0.156 0 false 0 false 5 false = Ok res
       /\ iteration res = 4.
Proof.
  assert (H0 : 0 <= 0) by lia.
  assert (Hp : pruned false false 0 2 0 = false) by reflexivity.
  assert (Hn : Z.of_nat 4 < INT_MAX) by (unfold INT_MAX; lia).
  assert (Hf : (4 <= 10)%nat) by lia.
  assert (He : escaped (spec_orbit 0 (2, 0)%float (0, 0)%float 4) = true) by reflexivity.
  assert (Hb : forall j, (j < 4)%nat ->
                 escaped (spec_orbit 0 (2, 0)%float (0, 0)%float j) = false).
  { intros j Hj. do 4 (destruct j as [|j]; [reflexivity|]). lia. }
  split; [exact (conj H0 (conj Hp (conj Hn (conj Hf (conj He Hb)))))|].
  eexists. split.
  - exact (calculateFractal_cap_not_positive sampleLibm 10 2 0 (-0.8) 0.156 0 false 0
             false 5 false 4 H0 Hp Hn Hf He Hb).
  - reflexivity.
Defined.

(** ** The ends of the interpolation *)

Lemma channel_table :
  forallb (fun a => forallb (channel_ends_ok a) (seqZ 0 256)) (seqZ 0 256) = true.
Proof. vm_compute. reflexivity. Qed.

Lemma channel_ends (r1 r2 : Z) :
  0 <= r1 <= 255 -> 0 <= r2 <= 255 ->
  double_to_uint8 (of_int r1 + 0 * of_int (r2 - r1))%float = Ok r1
  /\ double_to_uint8 (of_int r1 + 1 * of_int (r2 - r1))%float = Ok r2.
Proof.
  intros H1 H2.
  assert (I1 : In r1 (seqZ 0 256)) by (apply list_elem_of_In, elem_of_seqZ; lia).
  assert (I2 : In r2 (seqZ 0 256)) by (apply list_elem_of_In, elem_of_seqZ; lia).
  assert (T := proj1 (forallb_forall _ _) channel_table r1 I1).
  assert (T' := proj1 (forallb_forall _ _) T r2 I2). clear T.
  unfold channel_ends_ok in T'.
  destruct (double_to_uint8 (of_int r1 + 0 * of_int (r2 - r1))%float) as [v0| |];
    try discriminate.
  destruct (double_to_uint8 (of_int r1 + 1 * of_int (r2 - r1))%float) as [v1| |];
    try discriminate.
  apply andb_true_iff in T' as [A B]. apply Z.eqb_eq in A, B. now subst.
Qed.

(** A sum with a term that is NaN or infinite has no integer part. *)
Lemma truncZ_not_finite (x f d : float) :
  is_nan f = true \/ is_infinity f = true -> truncZ (x + f * d)%float = None.
Proof.
  intros H.
  assert (F : Prim2SF f = S754_nan \/ exists s, Prim2SF f = S754_infinity s).
  { destruct H as [H|H]; [left; now apply is_nan_spec|right].
    unfold is_infinity in H. rewrite FloatAxioms.eqb_spec, FloatAxioms.abs_spec in H.
    destruct (Prim2SF f) as [s|s| |s m e]; try discriminate; eauto. }
  unfold truncZ. rewrite FloatAxioms.add_spec, FloatAxioms.mul_spec.
  destruct F as [->|[s ->]]; destruct (Prim2SF x) as [sx|sx| |sx mx ex],
    (Prim2SF d) as [sd|sd| |sd md ed]; try reflexivity;
    cbn; try (destruct sx, s, sd; reflexivity).
Qed.

(** X11. [interpolateColors] at its ends.  Between two colours whose
    channels are bytes the factor 0 gives the first colour and the factor 1
    the second, exactly.  A factor that is NaN or infinite gives no colour:
    the conversion of the channel to a byte is undefined. *)
Theorem interpolateColors_ends (c1 c2 : Color) (factor : float) :
  (byte_color c1 -> byte_color c2 ->
   interpolateColors c1 c2 0 = Ok c1 /\ interpolateColors c1 c2 1 = Ok c2)
  /\ (is_nan factor = true \/ is_infinity factor = true ->
      interpolateColors c1 c2 factor = Undefined).
Proof.
  split.
  - intros (R1 & G1 & B1) (R2 & G2 & B2). unfold interpolateColors.
    destruct (channel_ends (r c1) (r c2) R1 R2) as [-> ->].
    destruct (channel_ends (g c1) (g c2) G1 G2) as [-> ->].
    destruct (channel_ends (b c1) (b c2) B1 B2) as [-> ->].
    destruct c1, c2. split; reflexivity.
  - intros H. unfold interpolateColors, double_to_uint8.
    rewrite !(truncZ_not_finite _ _ _ H). reflexivity.
Qed.

(** An instance: the first two entries of the first palette. *)
Lemma interpolateColors_ends_witness :
  (byte_color (Build_Color 66 30 15) /\ byte_color (Build_Color 25 7 26)
   /\ (is_nan nan = true \/ is_infinity nan = true))
  /\ interpolateColors (Build_Color 66 30 15) (Build_Color 25 7 26) 0
     = Ok (Build_Color 66 30 15)
  /\ interpolateColors (Build_Color 66 30 15) (Build_Color 25 7 26) 1
     = Ok (Build_Color 25 7 26)
  /\ interpolateColors (Build_Color 66 30 15) (Build_Color 25 7 26) nan = Undefined.
Proof.
  assert (B1 : byte_color (Build_Color 66 30 15)) by (unfold byte_color; cbn; lia).
  assert (B2 : byte_color (Build_Color 25 7 26)) by (unfold byte_color; cbn; lia).
  assert (Hn : is_nan nan = true \/ is_infinity nan = true) by (left; reflexivity).
  split; [exact (conj B1 (conj B2 Hn))|].
  destruct (interpolateColors_ends (Build_Color 66 30 15) (Build_Color 25 7 26) nan)
    as (E & U).
  destruct (E B1 B2) as (E0 & E1).
  exact (conj E0 (conj E1 (U Hn))).
Defined.

(** ** Whole metrics *)

Lemma subf_diag (x : float) (n : Z) : truncZ x = Some n -> subf x x = 0%float.
Proof.
  unfold truncZ, subf. destruct (Prim2SF x) as [s|s| |s m e]; try discriminate; intros _.
  - destruct s; reflexivity.
  - unfold SFsub. set (v := cond_Zopp s _).
    replace (binary_normalize 24 128 _ _ false)
      with (binary_normalize 24 128 0 (Z.min e e) false); [reflexivity|].
    f_equal. symmetry. apply Z.sub_diag.
Qed.

(** X12. The palette entries themselves are the colours of the whole
    metrics: on a palette of byte colours, a metric that is not negative,
    fits an [int] and has no fractional part gets the palette entry at
    [metric mod size], without interpolation error. *)
Theorem colorFor_whole_metric (palette : list Color) (metric : float) (n : Z) :
  Forall byte_color palette -> palette <> [] ->
  double_to_int metric = Ok n -> 0 <= n -> floor metric = metric ->
  exists c, palette !! Z.to_nat (n mod Z.of_nat (length palette)) = Some c
            /\ colorFor palette metric = Ok c.
Proof.
  intros Hb Hne Hn Hpos Hfl.
  assert (Hs : 0 < Z.of_nat (length palette)) by (destruct palette; [contradiction|cbn; lia]).
  unfold colorFor. rewrite Hn, Hfl. cbn [mbind outcome_bind].
  apply double_to_int_Ok in Hn as [Ht Hr].
  rewrite (subf_diag metric n Ht).
  destruct (Z.eqb_spec (Z.of_nat (length palette)) 0) as [|_]; [lia|].
  destruct (palette_index_nonneg n (Z.of_nat (length palette))) as [-> ->]; [lia|lia|].
  assert (I1 : 0 <= n mod Z.of_nat (length palette) < Z.of_nat (length palette))
    by (apply Z.mod_pos_bound; lia).
  assert (I2 : 0 <= (n mod Z.of_nat (length palette) + 1) mod Z.of_nat (length palette)
               < Z.of_nat (length palette)) by (apply Z.mod_pos_bound; lia).
  destruct (lookup_lt_is_Some_2 palette (Z.to_nat (n mod Z.of_nat (length palette))))
    as [c1 E1]; [lia|].
  destruct (lookup_lt_is_Some_2 palette
              (Z.to_nat ((n mod Z.of_nat (length palette) + 1) mod Z.of_nat (length palette))))
    as [c2 E2]; [lia|].
  exists c1. split; [exact E1|]. rewrite E1, E2. cbn [read mbind outcome_bind].
  assert (B1 : byte_color c1)
    by (eapply (proj1 (Forall_forall _ _) Hb), list_elem_of_lookup_2; eassumption).
  assert (B2 : byte_color c2)
    by (eapply (proj1 (Forall_forall _ _) Hb), list_elem_of_lookup_2; eassumption).
  destruct B1 as (R1 & G1 & B1), B2 as (R2 & G2 & B2). unfold interpolateColors.
  destruct (channel_ends (r c1) (r c2) R1 R2) as [-> _].
  destruct (channel_ends (g c1) (g c2) G1 G2) as [-> _].
  destruct (channel_ends (b c1) (b c2) B1 B2) as [-> _].
  now destruct c1.
Qed.

Lemma palette0_bytes : Forall byte_color palette0.
Proof. repeat constructor; cbn; lia. Qed.

(** An instance: the metric 17 on the first palette gives its entry 2. *)
Lemma colorFor_whole_metric_witness :
  (Forall byte_color palette0 /\ palette0 <> [] /\ double_to_int 17 = Ok 17 /\ 0 <= 17
   /\ floor 17 = 17%float)
  /\ colorFor palette0 17 = Ok (Build_Color 9 1 47).
Proof.
  assert (H1 : palette0 <> []) by discriminate.
  assert (H2 : double_to_int 17 = Ok 17) by reflexivity.
  assert (H3 : 0 <= 17) by lia.
  assert (H4 : floor 17 = 17%float) by reflexivity.
  split; [exact (conj palette0_bytes (conj H1 (conj H2 (conj H3 H4))))|].
  destruct (colorFor_whole_metric palette0 17 17 palette0_bytes H1 H2 H3 H4)
    as (c & E & ->).
  vm_compute in E. now injection E as <-.
Defined.


(** ** Fuel *)

Lemma calculateFractal_enough (M : Libm) (cr ci jr ji : float) (maxIter : Z)
    (isJulia : bool) (fractalType : Z) (stripes : bool) (stripeFrequency : float)
    (innerCalculation : bool) :
  1 <= maxIter <= INT_MAX ->
  exists res : ReturnInfo,
    forall fuel : nat, (Z.to_nat maxIter <= fuel)%nat ->
      calculateFractal M fuel cr ci jr ji maxIter isJulia fractalType stripes
        stripeFrequency innerCalculation = Ok res.
Proof.
  intros Hm.
  destruct (pruned innerCalculation isJulia fractalType cr ci) eqn:P.
  - exists interior_result. intros fuel _. now rewrite calculateFractal_unfold, P.
  - set (c := constant_point isJulia cr ci jr ji).
    set (z0 := start_point isJulia cr ci).
    destruct (iterate_enough M c.1 c.2 maxIter fractalType stripes stripeFrequency
                innerCalculation (Z.to_nat maxIter)
                (state_at M c.1 c.2 fractalType stripes stripeFrequency z0.1 z0.2 0))
      as (res & Hres & _).
    { unfold state_at; simpl; lia. }
    { lia. }
    { unfold state_at; simpl; lia. }
    exists res. intros fuel Hf. rewrite calculateFractal_unfold, P.
    eapply iterate_fuel_mono; [exact Hf|exact Hres].
Qed.

Lemma foldM_ext {A S : Type} (f f' : S -> A -> outcome S) (l : list A) (s : S) :
  (forall s a, f s a = f' s a) -> foldM f l s = foldM f' l s.
Proof.
  intros H. revert s. induction l as [|a l IH]; intros s; cbn [foldM]; [reflexivity|].
  rewrite H. destruct (f' s a); cbn [mbind outcome_bind]; auto.
Qed.

Lemma forM_ext {A B : Type} (f f' : A -> outcome B) (l : list A) :
  (forall a, f a = f' a) -> forM f l = forM f' l.
Proof.
  intros H. induction l as [|a l IH]; cbn [forM]; [reflexivity|].
  now rewrite H, IH.
Qed.

Lemma foldM_fuel {A S : Type} (f : S -> A -> outcome S) (l : list A) (s : S) :
  (forall s a, f s a <> OutOfFuel) -> foldM f l s <> OutOfFuel.
Proof.
  intros H. revert s. induction l as [|a l IH]; intros s; cbn [foldM]; [discriminate|].
  specialize (H s a). destruct (f s a); cbn [mbind outcome_bind];
    [apply IH|discriminate|contradiction].
Qed.

Lemma forM_fuel {A B : Type} (f : A -> outcome B) (l : list A) :
  (forall a, f a <> OutOfFuel) -> forM f l <> OutOfFuel.
Proof.
  intros H. induction l as [|a l IH]; cbn [forM]; [discriminate|].
  specialize (H a). destruct (f a); cbn [mbind outcome_bind]; [|discriminate|contradiction].
  destruct (forM f l); cbn [mbind outcome_bind mret outcome_ret];
    [discriminate|discriminate|contradiction].
Qed.

Lemma colorFor_fuel (palette : list Color) (iterations : float) :
  colorFor palette iterations <> OutOfFuel.
Proof.
  unfold colorFor, double_to_int, interpolateColors, double_to_uint8.
  destruct (truncZ iterations) as [z|]; [|discriminate].
  destruct (_ && _); [|discriminate]. cbn [mbind outcome_bind].
  destruct (_ =? 0); [discriminate|].
  repeat match goal with
         | |- context [read ?o] =>
             destruct o as [?|]; cbn [read mbind outcome_bind]; try discriminate
         end.
  repeat match goal with
         | |- context [truncZ ?v] =>
             destruct (truncZ v) as [?|]; cbn [mbind outcome_bind]; try discriminate;
             match goal with
             | |- context [if ?c then _ else _] =>
                 destruct c; cbn [mbind outcome_bind]; try discriminate
             end
         end.
Qed.

Lemma sampleColor_fuel (state : RenderState) (palette : list Color) (info : ReturnInfo) :
  sampleColor state palette info <> OutOfFuel.
Proof.
  unfold sampleColor, sampleMetric. destruct (_ =? -1); [discriminate|].
  destruct (stripes state).
  - destruct (stripeSum info); cbn [read mbind outcome_bind mret outcome_ret];
      [apply colorFor_fuel|discriminate].
  - destruct (smoothIteration info); cbn [read mbind outcome_bind mret outcome_ret];
      [apply colorFor_fuel|discriminate].
Qed.

Lemma store_fuel (pixels : list Z) (i v : Z) : store pixels i v <> OutOfFuel.
Proof. unfold store. destruct (_ && _); discriminate. Qed.

Lemma writePixel_fuel (pixels : list Z) (x y width : Z) (color : Color) :
  writePixel pixels x y width color <> OutOfFuel.
Proof.
  unfold writePixel.
  destruct (store pixels _ _) as [p1| |] eqn:E1; cbn [mbind outcome_bind];
    [|discriminate|now apply store_fuel in E1].
  destruct (store p1 _ _) as [p2| |] eqn:E2; cbn [mbind outcome_bind];
    [|discriminate|now apply store_fuel in E2].
  destruct (store p2 _ _) as [p3| |] eqn:E3; cbn [mbind outcome_bind];
    [|discriminate|now apply store_fuel in E3].
  apply store_fuel.
Qed.

Lemma averageColors_fuel (cs : list Color) : averageColors cs <> OutOfFuel.
Proof. unfold averageColors. destruct (_ =? 0); discriminate. Qed.

Section EnoughFuel.
Variable M : Libm.
Variables (fuel fuel' : nat) (state : RenderState).
Hypothesis Hcap : 1 <= maxIterations state <= INT_MAX.
Hypothesis Hfuel : (Z.to_nat (maxIterations state) <= fuel)%nat.
Hypothesis Hfuel' : (Z.to_nat (maxIterations state) <= fuel')%nat.

Lemma colorAt_enough (palette : list Color) (cr ci : float) :
  colorAt M fuel state palette cr ci = colorAt M fuel' state palette cr ci
  /\ colorAt M fuel state palette cr ci <> OutOfFuel.
Proof.
  unfold colorAt.
  destruct (calculateFractal_enough M cr ci (juliaX state) (juliaY state)
              (maxIterations state) (showJulia state) (fractalType state)
              (stripes state) (stripeFrequency state) (innerCalculation state) Hcap)
    as (res & H).
  rewrite (H fuel Hfuel), (H fuel' Hfuel'). cbn [mbind outcome_bind].
  split; [reflexivity|apply sampleColor_fuel].
Qed.

Lemma pixelColor_enough (palette : list Color) (x y width height : Z) :
  pixelColor M fuel state palette x y width height
  = pixelColor M fuel' state palette x y width height
  /\ pixelColor M fuel state palette x y width height <> OutOfFuel.
Proof.
  unfold pixelColor. destruct (antiAliasing state); [|apply colorAt_enough].
  unfold calculateAntiAliasedColor, antiAliasedColorWith. split.
  - f_equal. apply forM_ext. intros sy. apply forM_ext. intros sx.
    unfold subSampleColor. apply colorAt_enough.
  - destruct (forM _ (seqZ 0 (AA_MAX_SAMPLES + 1))) as [rows| |] eqn:E;
      cbn [mbind outcome_bind]; [apply averageColors_fuel|discriminate|].
    exfalso. revert E. apply forM_fuel. intros sy. apply forM_fuel. intros sx.
    unfold subSampleColor. apply colorAt_enough.
Qed.

Lemma renderFractalRegion_enough (pixels : list Z) (a b width height : Z) :
  renderFractalRegion M fuel pixels state a b width height
  = renderFractalRegion M fuel' pixels state a b width height
  /\ renderFractalRegion M fuel pixels state a b width height <> OutOfFuel.
Proof.
  unfold renderFractalRegion.
  destruct (PALETTES !! _) as [palette|]; cbn [read mbind outcome_bind];
    [|split; [reflexivity|discriminate]].
  split.
  - apply foldM_ext. intros px y. unfold renderRow. apply foldM_ext. intros px' x.
    now rewrite (proj1 (pixelColor_enough palette x y width height)).
  - apply foldM_fuel. intros px y. unfold renderRow. apply foldM_fuel. intros px' x.
    destruct (pixelColor M fuel state palette x y width height) as [c| |] eqn:E;
      cbn [mbind outcome_bind]; [apply writePixel_fuel|discriminate|].
    now apply (proj2 (pixelColor_enough palette x y width height)) in E.
Qed.

End EnoughFuel.

Lemma renderFractal_enough (M : Libm) (fuel fuel' : nat) (N : Z)
    (pixels : list Z) (state : RenderState) (width height : Z) :
  1 <= maxIterations state <= INT_MAX ->
  (Z.to_nat (maxIterations state) <= fuel)%nat ->
  (Z.to_nat (maxIterations state) <= fuel')%nat ->
  renderFractal M fuel N pixels state width height
  = renderFractal M fuel' N pixels state width height
  /\ renderFractal M fuel N pixels state width height <> OutOfFuel.
Proof.
  intros Hcap Hf Hf'. unfold renderFractal, runWorkers. split.
  - apply foldM_ext. intros px i.
    apply (renderFractalRegion_enough M fuel fuel' state Hcap Hf Hf').
  - apply foldM_fuel. intros px i.
    apply (renderFractalRegion_enough M fuel fuel' state Hcap Hf Hf').
Qed.


(** X13. A render needs no more fuel than the cap: when
    [1 <= maxIterations <= INT_MAX] and the fuel of every sample is at least
    [maxIterations], [renderFractal] does not run out of fuel, and its
    result (a buffer, or undefined) is the same for every such amount. *)
Theorem renderFractal_fuel_independent (M : Libm) (fuel fuel' : nat) (N : Z)
    (pixels : list Z) (state : RenderState) (width height : Z) :
  1 <= maxIterations state <= INT_MAX ->
  (Z.to_nat (maxIterations state) <= fuel)%nat ->
  (Z.to_nat (maxIterations state) <= fuel')%nat ->
  renderFractal M fuel N pixels state width height
  = renderFractal M fuel' N pixels state width height
  /\ renderFractal M fuel N pixels state width height <> OutOfFuel.
Proof. apply renderFractal_enough. Qed.

(** An instance: the default state with 128 and with 500 units of fuel. *)
Lemma renderFractal_fuel_independent_witness :
  (1 <= maxIterations defaultState <= INT_MAX
   /\ (Z.to_nat (maxIterations defaultState) <= 128)%nat
   /\ (Z.to_nat (maxIterations defaultState) <= 500)%nat)
  /\ renderFractal sampleLibm 128 2 (repeat 0 16) defaultState 2 2
     = renderFractal sampleLibm 500 2 (repeat 0 16) defaultState 2 2.
Proof.
  assert (H1 : 1 <= maxIterations defaultState <= INT_MAX) by (cbn; unfold INT_MAX; lia).
  assert (H2 : (Z.to_nat (maxIterations defaultState) <= 128)%nat) by (cbn; lia).
  assert (H3 : (Z.to_nat (maxIterations defaultState) <= 500)%nat) by (cbn; lia).
  split; [exact (conj H1 (conj H2 H3))|].
  exact (proj1 (renderFractal_fuel_independent sampleLibm 128 500 2 (repeat 0 16)
                  defaultState 2 2 H1 H2 H3)).
Defined.

(** X14. [adjustIterations] before a render, as [main] calls them.  With
    [autoIterations] on, the state [adjustIterations] returns is a fixed
    point of [adjustIterations], its cap lies in [100, 10000], and
    rendering it needs at most 10000 passes of the loop per sample: with
    that much fuel or more the render does not run out, and its result does
    not depend on the amount. *)
Theorem adjustIterations_then_render (M : Libm) (fuel : nat) (N : Z)
    (pixels : list Z) (state state' : RenderState) (width height : Z) :
  autoIterations state = true ->
  adjustIterations M state = Ok state' ->
  (Z.to_nat 10000 <= fuel)%nat ->
  adjustIterations M state' = Ok state'
  /\ 100 <= maxIterations state' <= 10000
  /\ renderFractal M fuel N pixels state' width height
     = renderFractal M (Z.to_nat 10000) N pixels state' width height
  /\ renderFractal M (Z.to_nat 10000) N pixels state' width height <> OutOfFuel.
Proof.
  intros Ha H Hf. unfold adjustIterations in H. rewrite Ha in H.
  destruct (double_to_int _) as [n| |] eqn:E; cbn [mbind outcome_bind] in H;
    try discriminate.
  injection H as <-. cbn [maxIterations set_maxIterations].
  set (k := Z.max 100 (Z.min 10000 n)).
  assert (Hk : 100 <= k <= 10000) by (unfold k; lia).
  split; [|split; [exact Hk|]].
  - unfold adjustIterations. cbn [autoIterations viewportHeight set_maxIterations].
    rewrite Ha, E. cbn [mbind outcome_bind maxIterations set_maxIterations].
    fold k. replace (Z.max 100 (Z.min 10000 n)) with k by reflexivity. reflexivity.
  - assert (C : 1 <= maxIterations
                  (set_maxIterations k (set_maxIterations (Z.min 10000 n) state))
                <= INT_MAX) by (cbn; unfold INT_MAX; lia).
    split.
    + apply renderFractal_enough; [exact C|cbn; lia|cbn; lia].
    + apply (renderFractal_enough M (Z.to_nat 10000) (Z.to_nat 10000)); [exact C|cbn; lia|cbn; lia].
Qed.

(** An instance: the default state, whose cap becomes 100. *)
Lemma adjustIterations_then_render_witness :
  (autoIterations defaultState = true
   /\ adjustIterations sampleLibm defaultState = Ok (set_maxIterations 100 defaultState)
   /\ (Z.to_nat 10000 <= Z.to_nat 20000)%nat)
  /\ adjustIterations sampleLibm (set_maxIterations 100 defaultState)
     = Ok (set_maxIterations 100 defaultState)
  /\ renderFractal sampleLibm (Z.to_nat 20000) 2 (repeat 0 16) (set_maxIterations 100 defaultState) 2 2
     = renderFractal sampleLibm (Z.to_nat 10000) 2 (repeat 0 16) (set_maxIterations 100 defaultState)
         2 2.
Proof.
  assert (Ha : autoIterations defaultState = true) by reflexivity.
  assert (He : adjustIterations sampleLibm defaultState
               = Ok (set_maxIterations 100 defaultState)) by (vm_compute; reflexivity).
  assert (Hf : (Z.to_nat 10000 <= Z.to_nat 20000)%nat) by lia.
  split; [exact (conj Ha (conj He Hf))|].
  destruct (adjustIterations_then_render sampleLibm (Z.to_nat 20000) 2 (repeat 0 16) defaultState
              _ 2 2 Ha He Hf) as (I & _ & R & _).
  exact (conj I R).
Defined.

(** * The controls and the main loop *)

(** ** The camera path *)

Lemma int_result_Ok (z : Z) : INT_MIN <= z <= INT_MAX -> int_result z = Ok z.
Proof.
  intros H. unfold int_result.
  destruct (Z.leb_spec INT_MIN z); [|lia]. destruct (Z.leb_spec z INT_MAX); [|lia].
  reflexivity.
Qed.

(** The truncated 25th of the distance to 1941. *)
Lemma quot_25 (d : Z) :
  exists q r, d ÷ 25 = q /\ d = 25 * q + r
              /\ (0 <= d -> 0 <= r < 25) /\ (d <= 0 -> -25 < r <= 0).
Proof.
  exists (d ÷ 25), (Z.rem d 25). split; [reflexivity|]. split.
  - apply Z.quot_rem'.
  - split; intros H.
    + apply Z.rem_bound_pos; lia.
    + assert (B := Z.rem_bound_abs d 25 ltac:(lia)).
      assert (B' := Z.rem_nonpos d 25 ltac:(lia) H). lia.
Qed.

(** One step changes the cap by the truncated 25th of its distance to 1941
    and leaves the fields that are not part of the camera path. *)
Lemma animationStep_maxIterations (state : RenderState) :
  1941 - INT_MAX <= maxIterations state <= INT_MAX ->
  exists state',
    animationStep state = Ok state'
    /\ maxIterations state'
       = maxIterations state + (1941 - maxIterations state) ÷ 25.
Proof.
  intros H. unfold animationStep.
  cbn [maxIterations set_colorDensity set_viewportHeight set_viewportY set_viewportX].
  destruct (quot_25 (1941 - maxIterations state)) as (q & r & Q & E & P & N).
  unfold INT_MAX in H.
  rewrite int_result_Ok by (unfold INT_MAX, INT_MIN; lia).
  cbn [mbind outcome_bind]. rewrite Q.
  rewrite int_result_Ok by (unfold INT_MAX, INT_MIN; lia).
  cbn [mbind outcome_bind]. eexists. split; reflexivity.
Qed.

Lemma animation_settles (n : nat) (state : RenderState) :
  1941 - INT_MAX <= maxIterations state <= 1917 ->
  (Z.to_nat (1917 - maxIterations state) <= n)%nat ->
  exists state', animation n state = Ok state' /\ maxIterations state' = 1917.
Proof.
  revert state. induction n as [|n IH]; intros state H Hn; cbn [animation].
  - exists state. split; [reflexivity|lia].
  - destruct (animationStep_maxIterations state) as (s1 & -> & E);
      [unfold INT_MAX in *; lia|].
    cbn [mbind outcome_bind].
    destruct (quot_25 (1941 - maxIterations state)) as (q & r & Q & D & P & _).
    rewrite Q in E. apply IH; unfold INT_MAX in *; lia.
Qed.

(** X15. The iteration cap along the camera path.  Each frame adds to the
    cap the 25th part, truncated toward zero, of its distance to 1941: the
    cap moves toward 1941 without passing it and stays where it is exactly
    when it lies in [1917, 1965].  So the cap of an animation that starts
    at or below 1917 reaches 1917 and stays there, and one that starts at
    or above 1965 reaches 1965 and stays there: the target 1941 is reached
    only from itself. *)
Theorem animation_iterations_settle (state : RenderState) :
  1941 - INT_MAX <= maxIterations state <= INT_MAX ->
  (exists state',
     animationStep state = Ok state'
     /\ maxIterations state' = maxIterations state + (1941 - maxIterations state) ÷ 25
     /\ (maxIterations state <= 1941 -> maxIterations state <= maxIterations state' <= 1941)
     /\ (1941 <= maxIterations state -> 1941 <= maxIterations state' <= maxIterations state)
     /\ (maxIterations state' = maxIterations state
         <-> 1917 <= maxIterations state <= 1965))
  /\ (maxIterations state <= 1917 ->
      forall n : nat, (Z.to_nat (1917 - maxIterations state) <= n)%nat ->
        exists state', animation n state = Ok state' /\ maxIterations state' = 1917)
  /\ (1965 <= maxIterations state ->
      forall n : nat, (Z.to_nat (maxIterations state - 1965) <= n)%nat ->
        exists state', animation n state = Ok state' /\ maxIterations state' = 1965).
Proof.
  intros H. split; [|split].
  - destruct (animationStep_maxIterations state H) as (s1 & E1 & E).
    exists s1. split; [exact E1|]. split; [exact E|].
    destruct (quot_25 (1941 - maxIterations state)) as (q & r & Q & D & P & N).
    rewrite Q in E. repeat split; lia.
  - intros Hm n Hn. apply animation_settles; lia.
  - intros Hm n. revert state H Hm.
    induction n as [|n IH]; intros state H Hm Hn; cbn [animation].
    + exists state. split; [reflexivity|lia].
    + destruct (animationStep_maxIterations state H) as (s1 & -> & E).
      cbn [mbind outcome_bind].
      destruct (quot_25 (1941 - maxIterations state)) as (q & r & Q & D & _ & N).
      rewrite Q in E. apply IH; unfold INT_MAX in *; lia.
Qed.

(** An instance: the default state, whose cap is 128. *)
Lemma animation_iterations_settle_witness :
  (1941 - INT_MAX <= maxIterations defaultState <= INT_MAX
   /\ maxIterations defaultState <= 1917
   /\ (Z.to_nat (1917 - maxIterations defaultState) <= Z.to_nat 2000)%nat)
  /\ exists state',
       animation (Z.to_nat 2000) defaultState = Ok state'
       /\ maxIterations state' = 1917.
Proof.
  assert (H1 : 1941 - INT_MAX <= maxIterations defaultState <= INT_MAX)
    by (cbn; unfold INT_MAX; lia).
  assert (H2 : maxIterations defaultState <= 1917) by (cbn; lia).
  assert (H3 : (Z.to_nat (1917 - maxIterations defaultState) <= Z.to_nat 2000)%nat)
    by (cbn; lia).
  split; [exact (conj H1 (conj H2 H3))|].
  destruct (animation_iterations_settle defaultState H1) as (_ & S & _).
  exact (S H2 (Z.to_nat 2000) H3).
Defined.

(** ** Frames of the animation *)

(** With [animating] set, the loop over the events ends after its first
    pass: one event leaves the queue, and only [Closed] has an effect. *)
Lemma pollEvents_animating (M : Libm) (events : list Main.Event) (m : Main.Vars) :
  Main.pollEvents M events m =
    Ok (match events with
        | Main.Closed :: _ => Main.set_windowOpen false m
        | _ => m
        end, tail events).
Proof. destruct events as [|[] rest]; reflexivity. Qed.

Ltac reduce_vars :=
  cbv [Main.set_frame Main.set_state Main.set_viewChanged Main.saveScreenshot
       Main.set_screenshots Main.set_usePreview Main.set_needsRedraw
       Main.set_pendingHighQualityRender Main.set_texture Main.set_pixels
       Main.set_windowOpen Main.screenshotName
       Main.state Main.pixels Main.texture Main.lastMousePos Main.isDragging
       Main.currentMousePos Main.mouseComplexX Main.mouseComplexY Main.viewChanged
       Main.pendingHighQualityRender Main.needsRedraw Main.usePreview Main.windowOpen
       Main.scrollTimerRestarts Main.frame Main.screenshots
       mbind outcome_bind fst snd tail andb orb animating].

Lemma mainLoopBody_animating (M : Libm) (fuel : nat) (NUM_THREADS : Z)
    (events : list Main.Event) (elapsed : float) (m : Main.Vars) :
  Main.mainLoopBody M fuel NUM_THREADS events elapsed m =
    (m' ← Main.animationFrame M fuel NUM_THREADS elapsed m;
     Ok (match events with
         | Main.Closed :: _ => Main.set_windowOpen false m'
         | _ => m'
         end, tail events)).
Proof.
  unfold Main.mainLoopBody, Main.animationFrame. rewrite pollEvents_animating.
  destruct m as [st px tx lp dr cp mx my vc pd nr up wo tr fr sc].
  destruct vc, (SCROLL_RENDER_DELAY <? elapsed)%float eqn:D, pd;
    destruct events as [|[] rest];
    reduce_vars; rewrite ?D; reduce_vars;
    try (destruct (renderFractal _ _ _ _ _ _ _) as [px'| |]; reduce_vars;
         [|reflexivity|reflexivity]);
    (destruct (animationStep _) as [s'| |]; reduce_vars;
     [|reflexivity|reflexivity]);
    (destruct (int_result _) as [f'| |]; reflexivity).
Qed.

(** X16. With [animating] set the controls are switched off.  The loop
    over the events takes one event from the queue and leaves it after the
    test of [animating]: only [Closed] has an effect, which is to close the
    window.  A pass of the main loop is a frame of the animation, whatever
    the events are: no key, button, wheel or mouse move changes the render
    state or asks for a redraw. *)
Theorem animating_ignores_events (M : Libm) (fuel : nat) (NUM_THREADS : Z)
    (events : list Main.Event) (elapsed : float) (m : Main.Vars) :
  Main.pollEvents M events m =
    Ok (match events with
        | Main.Closed :: _ => Main.set_windowOpen false m
        | _ => m
        end, tail events)
  /\ Main.mainLoopBody M fuel NUM_THREADS events elapsed m =
       (m' ← Main.animationFrame M fuel NUM_THREADS elapsed m;
        Ok (match events with
            | Main.Closed :: _ => Main.set_windowOpen false m'
            | _ => m'
            end, tail events)).
Proof. split; [apply pollEvents_animating|apply mainLoopBody_animating]. Qed.

(** ** The names of the screenshots *)

Lemma string_app_length (s t : string) :
  String.length (s +:+ t) = (String.length s + String.length t)%nat.
Proof. induction s as [|a s IH]; simpl; [reflexivity|f_equal; exact IH]. Qed.

Lemma string_app_inj_r (s1 s2 t : string) : s1 +:+ t = s2 +:+ t -> s1 = s2.
Proof.
  intros H.
  assert (L : String.length s1 = String.length s2).
  { apply (f_equal String.length) in H. rewrite !string_app_length in H. lia. }
  revert s2 H L. induction s1 as [|a s1 IH]; intros [|b s2] H L; try discriminate.
  - reflexivity.
  - simpl in H, L. injection H as -> H. f_equal. apply IH; [exact H|lia].
Qed.

Lemma screenshotName_inj (j k : Z) : Main.screenshotName j = Main.screenshotName k -> j = k.
Proof.
  unfold Main.screenshotName. intros H. apply string_app_inj_r in H.
  now apply (inj pretty) in H.
Qed.

(** ** A run of the main loop *)


Lemma animationFrame_facts (M : Libm) (fuel : nat) (NUM_THREADS : Z) (elapsed : float)
    (m m' : Main.Vars) :
  Main.animationFrame M fuel NUM_THREADS elapsed m = Ok m' ->
  animationStep (Main.state m) = Ok (Main.state m')
  /\ Main.frame m' = Main.frame m + 1
  /\ Main.frame m < INT_MAX
  /\ (Main.screenshots m').*1
     = (Main.screenshots m).*1 ++ [Main.screenshotName (Main.frame m)]
  /\ Main.windowOpen m' = Main.windowOpen m
  /\ Main.scrollTimerRestarts m' = Main.scrollTimerRestarts m.
Proof.
  unfold Main.animationFrame.
  destruct (_ || _);
    [destruct (renderFractal _ _ _ _ _ _ _) as [px| |]; cbn [mbind outcome_bind];
     try discriminate|cbn [mbind outcome_bind]];
    (destruct (animationStep _) as [s'| |]; cbn [mbind outcome_bind]; try discriminate).
  all: unfold int_result;
    destruct ((INT_MIN <=? Main.frame m + 1) && (Main.frame m + 1 <=? INT_MAX)) eqn:E;
    cbn [mbind outcome_bind]; try discriminate;
    apply andb_true_iff in E as [_ E]; apply Z.leb_le in E;
    intros [= <-]; cbn [Main.state Main.frame Main.screenshots Main.windowOpen
                        Main.scrollTimerRestarts];
    rewrite fmap_app; repeat split; unfold INT_MAX in *; lia.
Qed.

(** X17. A run of the main loop over [n] frames in which the window is not
    closed: the frame counter advances by [n]; the render state is the
    one the camera path reaches in [n] steps from the state at the start,
    whatever the events and the timer readings were; frame [k] wrote its
    screenshot to the file [k.png], so the [n] files have different names;
    the scroll timer was never restarted. *)
Theorem mainLoop_frames (M : Libm) (fuel : nat) (NUM_THREADS : Z)
    (inputs : list (list Main.Event * float)) (queue : list Main.Event)
    (m m' : Main.Vars) :
  Main.windowOpen m = true ->
  Forall notClosed queue ->
  Forall (fun input => Forall notClosed input.1) inputs ->
  Main.mainLoop M fuel NUM_THREADS inputs queue m = Ok m' ->
  Main.frame m' = Main.frame m + Z.of_nat (length inputs)
  /\ animation (length inputs) (Main.state m) = Ok (Main.state m')
  /\ (Main.screenshots m').*1
     = (Main.screenshots m).*1
       ++ (Main.screenshotName <$> seqZ (Main.frame m) (Z.of_nat (length inputs)))
  /\ NoDup (Main.screenshotName <$> seqZ (Main.frame m) (Z.of_nat (length inputs)))
  /\ Main.windowOpen m' = true
  /\ Main.scrollTimerRestarts m' = Main.scrollTimerRestarts m.
Proof.
  intros Ho Hq Hi H.
  assert (Nd : NoDup (Main.screenshotName <$> seqZ (Main.frame m)
                        (Z.of_nat (length inputs)))).
  { apply NoDup_fmap_2; [|apply NoDup_seqZ]. intros j k. apply screenshotName_inj. }
  revert queue m Ho Hq H Nd.
  induction Hi as [|[arrived elapsed] inputs Ha _ IH]; intros queue m Ho Hq H Nd.
  - cbn in H. injection H as <-. cbn [length Z.of_nat animation].
    rewrite app_nil_r, Z.add_0_r. auto 6.
  - cbn [Main.mainLoop] in H. rewrite Ho, mainLoopBody_animating in H.
    destruct (Main.animationFrame M fuel NUM_THREADS elapsed m) as [m1| |] eqn:F;
      cbn [mbind outcome_bind] in H; try discriminate.
    destruct (animationFrame_facts _ _ _ _ _ _ F) as (S1 & F1 & _ & N1 & O1 & R1).
    assert (Hqa : Forall notClosed (queue ++ arrived)) by (apply Forall_app; auto).
    assert (Hm : match queue ++ arrived with
                 | Main.Closed :: _ => Main.set_windowOpen false m1
                 | _ => m1
                 end = m1).
    { destruct (queue ++ arrived) as [|e rest]; [reflexivity|].
      apply Forall_cons in Hqa as [Hne _]. destruct e; try reflexivity. now elim Hne. }
    rewrite Hm in H.
    assert (Hrest : Forall notClosed (tail (queue ++ arrived))).
    { destruct (queue ++ arrived); [constructor|]. now apply Forall_cons in Hqa as [_ ?]. }
    destruct (IH _ m1 ltac:(congruence) Hrest H) as (I1 & I2 & I3 & _ & I5 & I6).
    { apply NoDup_fmap_2; [|apply NoDup_seqZ]. intros j k. apply screenshotName_inj. }
    cbn [length animation]. rewrite S1. cbn [mbind outcome_bind].
    split; [lia|]. split; [exact I2|]. split; [|split; [exact Nd|split; [exact I5|congruence]]].
    rewrite I3, N1, <- app_assoc. f_equal.
    replace (Z.of_nat (S (length inputs))) with (1 + Z.of_nat (length inputs)) by lia.
    rewrite seqZ_app by lia. rewrite fmap_app. f_equal. do 2 f_equal. lia.
Qed.

(** ** The keys *)

(** X18. The keys [C] and [T].  [C] sets the colour scheme to
    [size_t(colorScheme + 1) mod 2]: whatever the scheme was, the new one
    is 0 or 1, the index of a palette, and from 0 or 1 it is the other one;
    no other field changes.  At [colorScheme = INT_MAX] the increment is
    undefined.  [T] switches the fractal type between 0 and 1. *)
Theorem selector_keys (M : Libm) (m : Main.Vars) :
  (INT_MIN <= colorScheme (Main.state m) < INT_MAX ->
   exists m',
     Main.keyPressed M Main.C m = Ok m'
     /\ (colorScheme (Main.state m') = 0 \/ colorScheme (Main.state m') = 1)
     /\ is_Some (PALETTES !! Z.to_nat (colorScheme (Main.state m')))
     /\ (0 <= colorScheme (Main.state m) <= 1 ->
         colorScheme (Main.state m') = 1 - colorScheme (Main.state m))
     /\ set_colorScheme (colorScheme (Main.state m)) (Main.state m') = Main.state m)
  /\ (colorScheme (Main.state m) = INT_MAX -> Main.keyPressed M Main.C m = Undefined)
  /\ (0 <= fractalType (Main.state m) <= 1 ->
      exists m',
        Main.keyPressed M Main.T m = Ok m'
        /\ fractalType (Main.state m') = 1 - fractalType (Main.state m)).
Proof.
  split; [|split].
  - intros H. unfold Main.keyPressed. rewrite int_result_Ok by lia.
    cbn [mbind outcome_bind]. eexists. split; [reflexivity|].
    cbn [Main.state Main.set_state Main.set_needsRedraw colorScheme set_colorScheme].
    change (Z.of_nat (length PALETTES)) with 2. unfold to_size_t.
    assert (B : 0 <= ((colorScheme (Main.state m) + 1) mod 2 ^ 64) mod 2 < 2)
      by (apply Z.mod_pos_bound; lia).
    split; [lia|]. split.
    + apply lookup_lt_is_Some. change (length PALETTES) with 2%nat. lia.
    + split.
      * intros R. rewrite (Z.mod_small (colorScheme (Main.state m) + 1))
          by (change (2 ^ 64) with 18446744073709551616; lia).
        assert (colorScheme (Main.state m) = 0 \/ colorScheme (Main.state m) = 1)
          as [->| ->] by lia; reflexivity.
      * now destruct (Main.state m).
  - intros H. unfold Main.keyPressed, int_result. rewrite H. reflexivity.
  - intros H. unfold Main.keyPressed. unfold INT_MIN, INT_MAX in *.
    rewrite int_result_Ok by (unfold INT_MIN, INT_MAX; lia).
    cbn [mbind outcome_bind]. eexists. split; [reflexivity|].
    cbn [Main.state Main.set_state Main.set_needsRedraw fractalType set_fractalType].
    assert (fractalType (Main.state m) = 0 \/ fractalType (Main.state m) = 1)
      as [->| ->] by lia; reflexivity.
Qed.

Lemma ltb_leb (x y : float) : (x <? y)%float = true -> (x <=? y)%float = true.
Proof.
  rewrite FloatAxioms.ltb_spec, FloatAxioms.leb_spec. unfold SFltb, SFleb.
  destruct (SFcompare _ _) as [[]|]; congruence.
Qed.

(** X19. The keys [Left] and [Right] do nothing while stripe colouring is
    off.  While it is on, [Left] sets the stripe frequency to
    [max(1.0f, stripeFrequency - 1.0f)], which is at least 1 whatever the
    frequency was: a frequency that is NaN becomes 1. *)
Theorem stripe_frequency_keys (M : Libm) (m : Main.Vars) :
  (stripes (Main.state m) = false ->
   Main.keyPressed M Main.Left m = Ok m /\ Main.keyPressed M Main.Right m = Ok m)
  /\ (stripes (Main.state m) = true ->
      exists m',
        Main.keyPressed M Main.Left m = Ok m'
        /\ (1 <=? stripeFrequency (Main.state m'))%float = true
        /\ stripeFrequency (Main.state m')
           = (if (1 <? subf (stripeFrequency (Main.state m)) 1)%float
              then subf (stripeFrequency (Main.state m)) 1 else 1%float)).
Proof.
  split.
  - intros H. unfold Main.keyPressed. now rewrite H.
  - intros H. unfold Main.keyPressed. rewrite H. eexists. split; [reflexivity|].
    cbn [Main.state Main.set_state Main.set_needsRedraw stripeFrequency
         set_stripeFrequency].
    unfold maxf. split; [|reflexivity].
    destruct (1 <? subf (stripeFrequency (Main.state m)) 1)%float eqn:E.
    + now apply ltb_leb.
    + reflexivity.
Qed.

Lemma iteration_keys_table : forallb iteration_keys_ok (seqZ 0 10001) = true.
Proof. vm_compute. reflexivity. Qed.

(** X20. The keys [I] and [K].  Both switch [autoIterations] off, so that
    [adjustIterations] leaves the cap they set; [K] never sets a cap below
    50; for a cap [n] in [0, 10000], [I] sets [3 n / 2] and [K] sets
    [max(50, 2 n / 3)], the quotients rounded down. *)
Theorem iteration_keys (M : Libm) (m : Main.Vars) :
  (forall m', Main.keyPressed M Main.I m = Ok m' \/ Main.keyPressed M Main.K m = Ok m' ->
     autoIterations (Main.state m') = false
     /\ adjustIterations M (Main.state m') = Ok (Main.state m'))
  /\ (forall m', Main.keyPressed M Main.K m = Ok m' -> 50 <= maxIterations (Main.state m'))
  /\ (0 <= maxIterations (Main.state m) <= 10000 ->
      exists mi mk,
        Main.keyPressed M Main.I m = Ok mi
        /\ maxIterations (Main.state mi) = 3 * maxIterations (Main.state m) / 2
        /\ Main.keyPressed M Main.K m = Ok mk
        /\ maxIterations (Main.state mk)
           = Z.max 50 (2 * maxIterations (Main.state m) / 3)).
Proof.
  split; [|split].
  - intros m' [H|H]; unfold Main.keyPressed in H;
      destruct (double_to_int _) as [n| |]; cbn [mbind outcome_bind] in H;
      try discriminate; injection H as <-;
      cbn [Main.state Main.set_state Main.set_needsRedraw autoIterations
           set_autoIterations]; (split; [reflexivity|]);
      unfold adjustIterations; reflexivity.
  - intros m' H. unfold Main.keyPressed in H.
    destruct (double_to_int _) as [n| |]; cbn [mbind outcome_bind] in H;
      try discriminate. injection H as <-.
    cbn [Main.state Main.set_state Main.set_needsRedraw maxIterations
         set_autoIterations set_maxIterations]. lia.
  - intros H.
    assert (In_ : In (maxIterations (Main.state m)) (seqZ 0 10001))
      by (apply list_elem_of_In, elem_of_seqZ; lia).
    assert (T := proj1 (forallb_forall _ _) iteration_keys_table _ In_).
    unfold iteration_keys_ok in T. unfold Main.keyPressed.
    destruct (double_to_int (of_int (maxIterations (Main.state m)) * 1.5)%float)
      as [i| |]; try discriminate.
    destruct (double_to_int (of_int (maxIterations (Main.state m)) / 1.5)%float)
      as [k| |]; try discriminate.
    apply andb_true_iff in T as [Ti Tk]. apply Z.eqb_eq in Ti, Tk. subst i k.
    cbn [mbind outcome_bind]. do 2 eexists.
    split; [reflexivity|]. split; [reflexivity|]. split; reflexivity.
Qed.

Lemma selector_keys_witness :
  (INT_MIN <= colorScheme (Main.state Main.exampleVars) < INT_MAX
   /\ 0 <= fractalType (Main.state Main.exampleVars) <= 1)
  /\ (exists m', Main.keyPressed sampleLibm Main.C Main.exampleVars = Ok m'
                 /\ colorScheme (Main.state m') = 1)
  /\ (exists m', Main.keyPressed sampleLibm Main.T Main.exampleVars = Ok m'
                 /\ fractalType (Main.state m') = 1).
Proof.
  assert (H1 : INT_MIN <= colorScheme (Main.state Main.exampleVars) < INT_MAX)
    by (cbn; unfold INT_MIN, INT_MAX; lia).
  assert (H2 : 0 <= fractalType (Main.state Main.exampleVars) <= 1) by (cbn; lia).
  split; [exact (conj H1 H2)|].
  destruct (selector_keys sampleLibm Main.exampleVars) as (C & _ & T).
  destruct (C H1) as (mc & Ec & _ & _ & Vc & _).
  destruct (T H2) as (mt & Et & Vt).
  split; [exists mc|exists mt]; (split; [assumption|]).
  - apply Vc. cbn. lia.
  - exact Vt.
Defined.

Lemma stripe_frequency_keys_witness :
  stripes (Main.state (Main.set_state juliaStripesFar Main.exampleVars)) = true
  /\ exists m',
       Main.keyPressed sampleLibm Main.Left
         (Main.set_state juliaStripesFar Main.exampleVars) = Ok m'
       /\ (1 <=? stripeFrequency (Main.state m'))%float = true.
Proof.
  assert (H : stripes (Main.state (Main.set_state juliaStripesFar Main.exampleVars))
              = true) by reflexivity.
  split; [exact H|].
  destruct (stripe_frequency_keys sampleLibm
              (Main.set_state juliaStripesFar Main.exampleVars)) as (_ & L).
  destruct (L H) as (m' & E & B & _). exists m'. exact (conj E B).
Defined.

Lemma iteration_keys_witness :
  0 <= maxIterations (Main.state Main.exampleVars) <= 10000
  /\ exists mi mk,
       Main.keyPressed sampleLibm Main.I Main.exampleVars = Ok mi
       /\ maxIterations (Main.state mi) = 192
       /\ Main.keyPressed sampleLibm Main.K Main.exampleVars = Ok mk
       /\ maxIterations (Main.state mk) = 85.
Proof.
  assert (H : 0 <= maxIterations (Main.state Main.exampleVars) <= 10000) by (cbn; lia).
  split; [exact H|].
  destruct (iteration_keys sampleLibm Main.exampleVars) as (_ & _ & T).
  destruct (T H) as (mi & mk & Ei & Vi & Ek & Vk).
  exists mi, mk. repeat split; assumption.
Defined.

Lemma mainLoop_frames_witness :
  (Main.windowOpen Main.exampleVars = true
   /\ Forall notClosed []
   /\ Forall (fun input : list Main.Event * float => Forall notClosed input.1)
        [([Main.KeyPressed Main.C], 0%float); ([], 0%float)])
  /\ exists m',
       Main.mainLoop sampleLibm 0 8
         [([Main.KeyPressed Main.C], 0%float); ([], 0%float)] [] Main.exampleVars = Ok m'
       /\ Main.frame m' = 2
       /\ (Main.screenshots m').*1 = ["0.png"; "1.png"]%string
       /\ colorScheme (Main.state m') = 0.
Proof.
  assert (H1 : Main.windowOpen Main.exampleVars = true) by reflexivity.
  assert (H2 : Forall notClosed []) by constructor.
  assert (H3 : Forall (fun input : list Main.Event * float => Forall notClosed input.1)
                 [([Main.KeyPressed Main.C], 0%float); ([], 0%float)]).
  { repeat constructor. discriminate. }
  split; [exact (conj H1 (conj H2 H3))|].
  destruct (Main.mainLoop sampleLibm 0 8
              [([Main.KeyPressed Main.C], 0%float); ([], 0%float)] [] Main.exampleVars)
    as [m'| |] eqn:E; [|vm_compute in E; discriminate|vm_compute in E; discriminate].
  exists m'. split; [reflexivity|].
  destruct (mainLoop_frames sampleLibm 0 8 _ [] Main.exampleVars m' H1 H2 H3 E)
    as (F & A & S & _).
  split; [exact F|]. split; [exact S|].
  assert (C : forall s, animation 2 defaultState = Ok s -> colorScheme s = 0).
  { intros s Hs. vm_compute in Hs. injection Hs as <-. reflexivity. }
  exact (C _ A).
Defined.
